(** * Product importer: CSV bulk import and webhook delivery

    A shallow embedding of the import core of the repository
    ([products/models.py], [products/services/csv_importer.py]) and of
    its webhook delivery ([webhooks/models.py], [webhooks/tasks.py]),
    followed by the properties established about them.

    Conventions of the embedding.
    - Python [int] is [Z]; [len] is [Z.of_nat (length _)].
    - Python [str] is [string]; a character is a code point below 256
      and [isspace]/[lower] follow Python's tables on that range.
    - A [dict] is a [gmap]; a mutable object reachable through several
      references lives in a store and the references are its keys.
    - A raised exception is the [inl] of a sum, a normal return its [inr].
    - The product table is a list of rows; the primary key of a row is
      its position (the importer never deletes a row).
    - Time stamps, log output and the HMAC header of a delivery do not
      influence any modelled result and are left out. *)

From Stdlib Require Import ZArith List String Ascii SpecFloat.
From stdpp Require Import base option list gmap strings pretty.

Local Open Scope Z_scope.

(** ** Python strings *)

Module str.

(** [str.isspace] on one code point below 256. *)
Definition isspace (c : ascii) : bool :=
  let n := N_of_ascii c in
  ((9 <=? n)%N && (n <=? 13)%N) || ((28 <=? n)%N && (n <=? 32)%N)
  || (n =? 133)%N || (n =? 160)%N.

(** [str.lower] on one code point below 256: A-Z and the Latin-1
    capitals (all of 192..222 but the multiplication sign 215). *)
Definition lower_char (c : ascii) : ascii :=
  let n := N_of_ascii c in
  if ((65 <=? n)%N && (n <=? 90)%N)
     || ((192 <=? n)%N && (n <=? 222)%N && negb (n =? 215)%N)
  then ascii_of_N (n + 32) else c.

Fixpoint lower (s : string) : string :=
  match s with
  | EmptyString => EmptyString
  | String c s' => String (lower_char c) (lower s')
  end.

Fixpoint lstrip (s : string) : string :=
  match s with
  | EmptyString => EmptyString
  | String c s' => if isspace c then lstrip s' else s
  end.

Fixpoint rstrip (s : string) : string :=
  match s with
  | EmptyString => EmptyString
  | String c s' =>
      match rstrip s' with
      | EmptyString => if isspace c then EmptyString else String c EmptyString
      | r => String c r
      end
  end.

(** [s.strip()] *)
Definition strip (s : string) : string := rstrip (lstrip s).

(** [s.split()]: the maximal runs of non-space characters; [cur] is
    the word being read, if any. *)
Fixpoint split_go (cur : option string) (s : string) : list string :=
  match s with
  | EmptyString => match cur with Some w => [w] | None => [] end
  | String c s' =>
      if isspace c
      then match cur with
           | Some w => w :: split_go None s'
           | None => split_go None s'
           end
      else split_go (Some (from_option id EmptyString cur +:+ String c EmptyString)) s'
  end.

Definition split (s : string) : list string := split_go None s.

(** [sep.join(l)] *)
Definition join (sep : string) (l : list string) : string := String.concat sep l.

(** [s[:n]] *)
Fixpoint take (n : nat) (s : string) : string :=
  match n, s with
  | S n', String c s' => String c (take n' s')
  | _, _ => EmptyString
  end.

(** [bool(s)]: a string is true when it is not empty. *)
Definition truthy (s : string) : bool :=
  match s with EmptyString => false | _ => true end.

End str.

(** ** Double precision arithmetic

    [int / int] and [float * int] of Python on IEEE-754 binary64 with
    rounding to nearest even, and [int(float)], which truncates. *)

Module float.

Definition prec : Z := 53.
Definition emax : Z := 1024.

Definition of_int (n : Z) : spec_float := binary_normalize prec emax n 0 false.
Definition div (x y : spec_float) : spec_float := SFdiv prec emax x y.
Definition mul (x y : spec_float) : spec_float := SFmul prec emax x y.

(** [int(x)] for a finite [x]: the integer part, towards zero. *)
Definition to_int (x : spec_float) : Z :=
  match x with
  | S754_finite s m e =>
      let a := if (0 <=? e) then Z.pos m * 2 ^ e else Z.pos m / 2 ^ (- e) in
      if s then - a else a
  | _ => 0
  end.

End float.

(** ** Webhooks: [webhooks/models.py], [webhooks/tasks.py] *)

Module webhooks.

Record Webhook := {
  url : string;
  event_type : string;
  is_active : bool;
  secret : string;
  total_triggers : Z;
  successful_triggers : Z;
  failed_triggers : Z
}.

(** A webhook as [Webhook.objects.create] stores it: the three
    counters take their default 0. *)
Definition create (u e s : string) : Webhook :=
  {| url := u; event_type := e; is_active := true; secret := s;
     total_triggers := 0; successful_triggers := 0; failed_triggers := 0 |}.

(** [Webhook.record_trigger] *)
Definition record_trigger (success : bool) (w : Webhook) : Webhook :=
  {| url := url w; event_type := event_type w; is_active := is_active w;
     secret := secret w;
     total_triggers := total_triggers w + 1;
     successful_triggers :=
       if success then successful_triggers w + 1 else successful_triggers w;
     failed_triggers :=
       if success then failed_triggers w else failed_triggers w + 1 |}.

Record WebhookLog := {
  log_webhook : nat;
  log_event_type : string;
  log_payload : string;
  status_code : option Z;
  response_body : string;
  error : string;
  is_successful : bool;
  retry_count : Z
}.

(** The database as the task sees it. *)
Record Db := {
  webhook_table : gmap nat Webhook;
  log_table : list WebhookLog
}.

(** What [requests.post] does on one call: it returns a response or
    raises a [requests.RequestException]. *)
Inductive Http :=
| Response (code : Z) (text : string)
| RequestException (msg : string).

(** How one run of the task body ends.  [Retry] is the exception
    [self.retry] raises to have the run repeated. *)
Inductive Outcome :=
| Return (code : Z)
| Retry (exc : string)
| Raise (exc : string).

Definition max_retries : Z := 3.
Definition default_retry_delay : Z := 60.

(** [self.retry(exc=e)]: the run is repeated unless the number of
    retries, counting the one asked for, exceeds [max_retries]; then
    [e] itself is raised. *)
Definition retry (retries : Z) (e : string) : Outcome :=
  if retries + 1 >? max_retries then Raise e else Retry e.

(** One run of the body of [send_webhook]; [retries] is
    [self.request.retries]. *)
Definition send_webhook (retries : Z) (webhook_id : nat) (payload : string)
    (post : Http) (db : Db) : Db * Outcome :=
  match webhook_table db !! webhook_id with
  | None => (db, Raise "Webhook matching query does not exist.")
  | Some webhook =>
      match post with
      | Response code text =>
          let is_successful := (200 <=? code) && (code <? 300) in
          let entry :=
            {| log_webhook := webhook_id;
               log_event_type := event_type webhook;
               log_payload := payload;
               status_code := Some code;
               response_body := str.take 1000 text;
               error := "";
               is_successful := is_successful;
               retry_count := retries |} in
          let db' :=
            {| webhook_table :=
                 <[webhook_id := record_trigger is_successful webhook]>
                   (webhook_table db);
               log_table := log_table db ++ [entry] |} in
          if is_successful then (db', Return code)
          else (db', Raise ("Webhook failed with status " +:+ pretty code))
      | RequestException e =>
          let entry :=
            {| log_webhook := webhook_id;
               log_event_type := event_type webhook;
               log_payload := payload;
               status_code := None;
               response_body := "";
               error := e;
               is_successful := false;
               retry_count := retries |} in
          let db' :=
            {| webhook_table :=
                 <[webhook_id := record_trigger false webhook]>
                   (webhook_table db);
               log_table := log_table db ++ [entry] |} in
          (db', retry retries e)
      end
  end.

(** The task layer: a run that ends in [Retry] is repeated with one
    more retry on its counter, [default_retry_delay] seconds later;
    any other end is final.  [endpoint n] is what the target does on
    the call of the run with [n] retries.  [fuel] bounds the number
    of runs; [None] means it was too small. *)
Fixpoint deliver (fuel : nat) (retries : Z) (webhook_id : nat)
    (payload : string) (endpoint : Z -> Http) (db : Db)
    : option (Db * Outcome) :=
  match fuel with
  | O => None
  | S fuel' =>
      match send_webhook retries webhook_id payload (endpoint retries) db with
      | (db', Retry _) =>
          deliver fuel' (retries + 1) webhook_id payload endpoint db'
      | r => Some r
      end
  end.

End webhooks.

(** ** Products: [products/models.py] *)

Module products.

(** *** The models *)

Record Product := {
  sku : string;
  sku_lower : string;
  name : string;
  description : string;
  is_active : bool
}.

Inductive Status := pending | processing | completed | failed.

(** One entry of [error_details]: the keys ['row'] and ['error']. *)
Record ErrorEntry := { row : Z; error : string }.

Record UploadJob := {
  status : Status;
  total_rows : Z;
  processed_rows : Z;
  success_count : Z;
  error_count : Z;
  created_count : Z;
  updated_count : Z;
  skipped_count : Z;
  error_details : option (list ErrorEntry)
}.

(** The job as the upload view creates it: status [pending], every
    counter and the error list at their defaults. *)
Definition new_job : UploadJob :=
  {| status := pending; total_rows := 0; processed_rows := 0;
     success_count := 0; error_count := 0; created_count := 0;
     updated_count := 0; skipped_count := 0; error_details := Some [] |}.

Definition set_status (s : Status) (j : UploadJob) : UploadJob :=
  {| status := s; total_rows := total_rows j;
     processed_rows := processed_rows j; success_count := success_count j;
     error_count := error_count j; created_count := created_count j;
     updated_count := updated_count j; skipped_count := skipped_count j;
     error_details := error_details j |}.

Definition set_total_rows (n : Z) (j : UploadJob) : UploadJob :=
  {| status := status j; total_rows := n;
     processed_rows := processed_rows j; success_count := success_count j;
     error_count := error_count j; created_count := created_count j;
     updated_count := updated_count j; skipped_count := skipped_count j;
     error_details := error_details j |}.

(** [UploadJob.progress_percentage]:
    [int((processed_rows / total_rows) * 100)], in double precision. *)
Definition progress_percentage (j : UploadJob) : Z :=
  if total_rows j =? 0 then 0
  else float.to_int
         (float.mul
            (float.div (float.of_int (processed_rows j))
                       (float.of_int (total_rows j)))
            (float.of_int 100)).

(** [UploadJob.add_error] *)
Definition add_error (row_number : Z) (error_message : string)
    (j : UploadJob) : UploadJob :=
  {| status := status j; total_rows := total_rows j;
     processed_rows := processed_rows j; success_count := success_count j;
     error_count := error_count j + 1;
     created_count := created_count j; updated_count := updated_count j;
     skipped_count := skipped_count j;
     error_details :=
       Some (from_option id [] (error_details j)
             ++ [ {| row := row_number; error := error_message |} ]) |}.

(** [UploadJob.mark_as_processing] *)
Definition mark_as_processing (j : UploadJob) : UploadJob :=
  set_status processing j.

(** [UploadJob.mark_as_completed] *)
Definition mark_as_completed (j : UploadJob) : UploadJob :=
  set_status completed j.

(** [UploadJob.mark_as_failed] *)
Definition mark_as_failed (error_message : string) (j : UploadJob)
    : UploadJob :=
  let j := set_status failed j in
  if str.truthy error_message then add_error 0 error_message j else j.

(** *** The product table *)

Inductive Exn :=
| ValueError (msg : string)
| AttributeError (msg : string)
| IntegrityError (msg : string).

(** [str(e)] *)
Definition exn_str (e : Exn) : string :=
  match e with
  | ValueError m | AttributeError m | IntegrityError m => m
  end.

(** The exception of a violated [unique=True] on [sku_lower]; its
    text is the database driver's. *)
Definition unique_violation : Exn :=
  IntegrityError "UNIQUE constraint failed: products.sku_lower".

(** [Product.objects.filter(sku_lower__in=keys).in_bulk(field_name='sku_lower')]:
    the dictionary from [sku_lower] to instance, of the rows whose
    [sku_lower] is one of [keys].  A model instance read from the
    table is the pair of its key and its row. *)
Fixpoint in_bulk_from (pk : nat) (rows : list Product) (keys : list string)
    (acc : gmap string (nat * Product)) : gmap string (nat * Product) :=
  match rows with
  | [] => acc
  | p :: rows' =>
      in_bulk_from (S pk) rows' keys
        (if bool_decide (sku_lower p ∈ keys)
         then <[sku_lower p := (pk, p)]> acc else acc)
  end.

Definition in_bulk (table : list Product) (keys : list string)
    : gmap string (nat * Product) :=
  in_bulk_from 0 table keys ∅.

(** [Product.objects.bulk_create(objs, ignore_conflicts=ignore)]: the
    rows are inserted in order; one whose [sku_lower] is taken is
    left out when conflicts are ignored and fails the statement
    otherwise. *)
Fixpoint bulk_create (table : list Product) (objs : list Product)
    (ignore_conflicts : bool) : Exn + list Product :=
  match objs with
  | [] => inr table
  | p :: objs' =>
      if bool_decide (sku_lower p ∈ sku_lower <$> table)
      then if ignore_conflicts
           then bulk_create table objs' ignore_conflicts
           else inl unique_violation
      else bulk_create (table ++ [p]) objs' ignore_conflicts
  end.

(** The update of one instance by [bulk_update] with the fields
    [sku], [name], [description], [sku_lower]: the row of that key
    takes them from the instance; a [sku_lower] that another row
    holds fails the statement. *)
Definition update_row (table : list Product) (obj : (nat * Product))
    : Exn + list Product :=
  let '(pk, p) := obj in
  match table !! pk with
  | None => inr table
  | Some old =>
      if bool_decide (sku_lower p ∈ sku_lower <$> delete pk table)
      then inl unique_violation
      else inr (<[pk := {| sku := sku p; sku_lower := sku_lower p;
                           name := name p; description := description p;
                           is_active := is_active old |}]> table)
  end.

(** [Product.objects.bulk_update(objs, [...])] *)
Fixpoint bulk_update (table : list Product) (objs : list (nat * Product))
    : Exn + list Product :=
  match objs with
  | [] => inr table
  | obj :: objs' =>
      match update_row table obj with
      | inl e => inl e
      | inr table' => bulk_update table' objs'
      end
  end.

(** [Product.save] of an instance that is not in the table yet:
    [sku_lower] is recomputed from [sku], then the row is inserted. *)
Definition save (table : list Product) (p : Product) : Exn + list Product :=
  let p := {| sku := sku p; sku_lower := str.strip (str.lower (sku p));
              name := name p; description := description p;
              is_active := is_active p |} in
  if bool_decide (sku_lower p ∈ sku_lower <$> table)
  then inl unique_violation
  else inr (table ++ [p]).

(** *** The importer: [CSVImporter] *)

Definition CHUNK_SIZE : nat := 1000.
Definition REQUIRED_COLUMNS : list string := ["name"; "sku"].

Record Stats := {
  total : Z;
  processed : Z;
  created : Z;
  updated : Z;
  skipped : Z;
  errors : Z
}.

Definition no_stats : Stats :=
  {| total := 0; processed := 0; created := 0; updated := 0;
     skipped := 0; errors := 0 |}.

(** The snapshot [update_progress] puts into the cache. *)
Record Progress := {
  p_processed : Z;
  p_total : Z;
  p_percentage : Z;
  p_status : Status;
  p_created : Z;
  p_updated : Z;
  p_errors : Z
}.

(** The importer and the state it works on: its job, its option,
    its counters, the product table and the cache entry of the job. *)
Record CSVImporter := {
  upload_job : UploadJob;
  skip_duplicates : bool;
  stats : Stats;
  table : list Product;
  cache : option Progress
}.

(** [CSVImporter(upload_job_id, options)] *)
Definition init (j : UploadJob) (skip : bool) (t : list Product)
    : CSVImporter :=
  {| upload_job := j; skip_duplicates := skip; stats := no_stats;
     table := t; cache := None |}.

Definition set_job (j : UploadJob) (imp : CSVImporter) : CSVImporter :=
  {| upload_job := j; skip_duplicates := skip_duplicates imp;
     stats := stats imp; table := table imp; cache := cache imp |}.

Definition set_stats (s : Stats) (imp : CSVImporter) : CSVImporter :=
  {| upload_job := upload_job imp; skip_duplicates := skip_duplicates imp;
     stats := s; table := table imp; cache := cache imp |}.

Definition set_table (t : list Product) (imp : CSVImporter) : CSVImporter :=
  {| upload_job := upload_job imp; skip_duplicates := skip_duplicates imp;
     stats := stats imp; table := t; cache := cache imp |}.

Definition set_cache (c : Progress) (imp : CSVImporter) : CSVImporter :=
  {| upload_job := upload_job imp; skip_duplicates := skip_duplicates imp;
     stats := stats imp; table := table imp; cache := Some c |}.

Definition add_processed (n : Z) (s : Stats) : Stats :=
  {| total := total s; processed := processed s + n; created := created s;
     updated := updated s; skipped := skipped s; errors := errors s |}.

Definition add_created (n : Z) (s : Stats) : Stats :=
  {| total := total s; processed := processed s; created := created s + n;
     updated := updated s; skipped := skipped s; errors := errors s |}.

Definition add_updated (n : Z) (s : Stats) : Stats :=
  {| total := total s; processed := processed s; created := created s;
     updated := updated s + n; skipped := skipped s; errors := errors s |}.

Definition add_skipped (n : Z) (s : Stats) : Stats :=
  {| total := total s; processed := processed s; created := created s;
     updated := updated s; skipped := skipped s + n; errors := errors s |}.

Definition add_errors (n : Z) (s : Stats) : Stats :=
  {| total := total s; processed := processed s; created := created s;
     updated := updated s; skipped := skipped s; errors := errors s + n |}.

Definition set_total (n : Z) (s : Stats) : Stats :=
  {| total := n; processed := processed s; created := created s;
     updated := updated s; skipped := skipped s; errors := errors s |}.

(** [self.stats['errors'] += 1; self.stats['skipped'] += 1] *)
Definition count_rejected (imp : CSVImporter) : CSVImporter :=
  set_stats (add_skipped 1 (add_errors 1 (stats imp))) imp.

(** [CSVImporter.validate_headers] *)
Fixpoint missing_column (required headers_lower : list string)
    : bool * string :=
  match required with
  | [] => (true, "")
  | r :: required' =>
      if bool_decide (r ∈ headers_lower)
      then missing_column required' headers_lower
      else (false, "Missing required column: " +:+ r)
  end.

Definition validate_headers (headers : list string) : bool * string :=
  let headers_lower := (fun h => str.strip (str.lower h)) <$> headers in
  missing_column REQUIRED_COLUMNS headers_lower.

(** *** Rows *)

(** One item of the dictionary [csv.DictReader] yields for a record:
    a column of the header with its value, [None] when the record is
    too short to have one, or the fields beyond the header, which
    the reader collects under the key [None]. *)
Inductive Item :=
| Col (k : string) (v : option string)
| Rest (extra : list string).

Definition Row : Type := list Item.

(** [d.get(k, default)] and [d[k]] on a dictionary of strings. *)
Definition get (k default : string) (d : gmap string string) : string :=
  from_option id default (d !! k).

Definition item (k : string) (d : gmap string string) : string := d !!! k.

Definition contains (k : string) (d : gmap string string) : bool :=
  bool_decide (is_Some (d !! k)).

(** [' '.join(str(v).split()).strip()] *)
Definition cleaned (v : string) : string :=
  str.strip (str.join " " (str.split v)).

(** The first loop of [normalize_row], over [row.items()];
    [k.lower()] on the key [None] raises. *)
Fixpoint normalize_items (items : Row) (normalized : gmap string string)
    : Exn + gmap string string :=
  match items with
  | [] => inr normalized
  | Col k (Some v) :: items' =>
      normalize_items items'
        (<[str.strip (str.lower k) := cleaned v]> normalized)
  | Col k None :: items' =>
      normalize_items items' (<[str.strip (str.lower k) := ""]> normalized)
  | Rest _ :: _ =>
      inl (AttributeError "'NoneType' object has no attribute 'lower'")
  end.

(** [CSVImporter.normalize_row] *)
Definition normalize_row (r : Row) : Exn + gmap string string :=
  match normalize_items r ∅ with
  | inl e => inl e
  | inr normalized =>
      if negb (contains "sku" normalized)
         || negb (str.truthy (str.strip (get "sku" "" normalized)))
      then inl (ValueError "SKU is required and cannot be empty")
      else
      if negb (contains "name" normalized)
         || negb (str.truthy (str.strip (get "name" "" normalized)))
      then inl (ValueError "Name is required and cannot be empty")
      else
      let normalized :=
        <["sku" := str.strip (item "sku" normalized)]> normalized in
      if negb (str.truthy (item "sku" normalized))
      then inl (ValueError "SKU cannot be empty or contain only whitespace")
      else
      let normalized :=
        if negb (contains "description" normalized)
           || negb (str.truthy (item "description" normalized))
        then <["description" := ""]> normalized
        else normalized in
      let normalized :=
        <["sku" := str.take 255 (item "sku" normalized)]> normalized in
      let normalized :=
        <["name" := str.strip (str.take 500 (item "name" normalized))]>
          normalized in
      inr normalized
  end.

(** *** [CSVImporter.process_chunk] *)

(** The loop that normalizes the rows of the chunk; [idx] is the
    index [enumerate] gives the first of [rows]. *)
Fixpoint normalize_rows (idx : Z) (rows : list Row) (imp : CSVImporter)
    : list (gmap string string) * CSVImporter :=
  match rows with
  | [] => ([], imp)
  | r :: rows' =>
      match normalize_row r with
      | inr normalized =>
          let '(ns, imp') := normalize_rows (idx + 1) rows' imp in
          (normalized :: ns, imp')
      | inl e =>
          let imp := count_rejected imp in
          let imp :=
            set_job (add_error (processed (stats imp) + idx + 1) (exn_str e)
                       (upload_job imp)) imp in
          normalize_rows (idx + 1) rows' imp
      end
  end.

(** The loop that collects the lowercase SKUs and keeps the rows
    with a non-empty SKU. *)
Fixpoint collect_skus (normalized_rows : list (gmap string string))
    (imp : CSVImporter)
    : list string * list (gmap string string) * CSVImporter :=
  match normalized_rows with
  | [] => ([], [], imp)
  | r :: rows' =>
      let sku := str.strip (get "sku" "" r) in
      if str.truthy sku
      then let '(skus_lower, valid_rows, imp') := collect_skus rows' imp in
           (str.lower sku :: skus_lower, r :: valid_rows, imp')
      else collect_skus rows' (count_rejected imp)
  end.

(** The loop that sorts the rows into updates and creations.  The
    instances to update are the objects of [existing_products]
    themselves, changed in place: a later row with the same key
    changes the object an earlier row has already put on the list, so
    the list holds keys of [existing_products] and is read through
    the dictionary when the update is issued. *)
Fixpoint partition_rows (valid_rows : list (gmap string string))
    (existing_products : gmap string (nat * Product))
    : gmap string (nat * Product) * list Product * list string :=
  match valid_rows with
  | [] => (existing_products, [], [])
  | r :: rows' =>
      let sku_lower := str.lower (item "sku" r) in
      match existing_products !! sku_lower with
      | Some (pk, product) =>
          let product :=
            {| sku := item "sku" r;
               sku_lower := str.strip (str.lower (item "sku" r));
               name := item "name" r;
               description := get "description" "" r;
               is_active := is_active product |} in
          let '(existing', products_to_create, products_to_update) :=
            partition_rows rows' (<[sku_lower := (pk, product)]> existing_products) in
          (existing', products_to_create, sku_lower :: products_to_update)
      | None =>
          let product :=
            {| sku := item "sku" r;
               sku_lower := str.strip (str.lower (item "sku" r));
               name := item "name" r;
               description := get "description" "" r;
               is_active := true |} in
          let '(existing', products_to_create, products_to_update) :=
            partition_rows rows' existing_products in
          (existing', product :: products_to_create, products_to_update)
      end
  end.

(** The instances a list of references stands for. *)
Definition deref (existing_products : gmap string (nat * Product))
    (refs : list string) : list (nat * Product) :=
  omap (fun k => existing_products !! k) refs.

(** The body of [with transaction.atomic()].  The counters are
    Python state and keep what the body did to them when it raises;
    the table is rolled back by the caller.  The result is the
    exception or the pair [(created_count, updated_count)]. *)
Definition bulk_operations (products_to_create : list Product)
    (products_to_update : list (nat * Product)) (imp : CSVImporter)
    : CSVImporter * (Exn + Z * Z) :=
  let create_result :=
    match products_to_create with
    | [] => (imp, inr 0)
    | _ =>
        let before_count := Z.of_nat (length (table imp)) in
        match bulk_create (table imp) products_to_create
                (skip_duplicates imp) with
        | inl e => (imp, inl e)
        | inr table' =>
            let imp := set_table table' imp in
            let after_count := Z.of_nat (length (table imp)) in
            let created_count := after_count - before_count in
            let skipped :=
              Z.of_nat (length products_to_create) - created_count in
            let imp :=
              if skipped >? 0
              then set_stats (add_skipped skipped (stats imp)) imp
              else imp in
            (imp, inr created_count)
        end
    end in
  match create_result with
  | (imp, inl e) => (imp, inl e)
  | (imp, inr created_count) =>
      match products_to_update with
      | [] => (imp, inr (created_count, 0))
      | _ =>
          match bulk_update (table imp) products_to_update with
          | inl e => (imp, inl e)
          | inr table' =>
              (set_table table' imp,
               inr (created_count, Z.of_nat (length products_to_update)))
          end
      end
  end.

(** The loop of the [except] branch: the instances to create are
    saved one by one. *)
Fixpoint save_individually (products_to_create : list Product)
    (imp : CSVImporter) : CSVImporter :=
  match products_to_create with
  | [] => imp
  | product :: products' =>
      match save (table imp) product with
      | inr table' =>
          save_individually products'
            (set_stats (add_created 1 (stats imp)) (set_table table' imp))
      | inl individual_error =>
          let imp := count_rejected imp in
          let imp :=
            set_job
              (add_error (processed (stats imp))
                 ("SKU " +:+ sku product +:+ ": "
                  +:+ exn_str individual_error)
                 (upload_job imp)) imp in
          save_individually products' imp
      end
  end.

Definition process_chunk (rows : list Row) (imp : CSVImporter)
    : CSVImporter :=
  match rows with
  | [] => imp
  | _ =>
      let '(normalized_rows, imp) := normalize_rows 0 rows imp in
      match normalized_rows with
      | [] => imp
      | _ =>
          let '(skus_lower, valid_rows, imp) :=
            collect_skus normalized_rows imp in
          match valid_rows with
          | [] => imp
          | _ =>
              let existing_products := in_bulk (table imp) skus_lower in
              let '(existing_products, products_to_create, products_to_update) :=
                partition_rows valid_rows existing_products in
              match bulk_operations products_to_create
                      (deref existing_products products_to_update) imp with
              | (imp', inr (created_count, updated_count)) =>
                  set_stats
                    (add_updated updated_count
                       (add_created created_count (stats imp'))) imp'
              | (imp', inl _) =>
                  save_individually products_to_create
                    (set_table (table imp) imp')
              end
          end
      end
  end.

(** [CSVImporter.update_progress] *)
Definition update_progress (imp : CSVImporter) : CSVImporter :=
  let s := stats imp in
  let j := upload_job imp in
  let j :=
    {| status := status j; total_rows := total_rows j;
       processed_rows := processed s;
       success_count := created s + updated s;
       error_count := errors s;
       created_count := created s;
       updated_count := updated s;
       skipped_count := skipped s;
       error_details := error_details j |} in
  set_cache
    {| p_processed := processed s; p_total := total s;
       p_percentage := progress_percentage j; p_status := status j;
       p_created := created s; p_updated := updated s;
       p_errors := errors s |}
    (set_job j imp).

(** *** [CSVImporter.import_csv] *)

(** The file as [csv.DictReader] presents it: the field names, [None]
    for a file without a first record, and the dictionaries of the
    records after it. *)
Record CsvFile := {
  fieldnames : option (list string);
  records : list Row
}.

(** The loop of the second pass; [chunk] holds the rows read since
    the last full chunk. *)
Fixpoint read_rows (rows : list Row) (chunk : list Row) (imp : CSVImporter)
    : CSVImporter :=
  match rows with
  | [] =>
      match chunk with
      | [] => imp
      | _ => update_progress (process_chunk chunk imp)
      end
  | r :: rows' =>
      let chunk := chunk ++ [r] in
      let imp := set_stats (add_processed 1 (stats imp)) imp in
      if (CHUNK_SIZE <=? length chunk)%nat
      then read_rows rows' [] (update_progress (process_chunk chunk imp))
      else read_rows rows' chunk imp
  end.

(** The result is the importer after the call and what the call
    returned or raised. *)
Definition import_csv (file : CsvFile) (imp : CSVImporter)
    : CSVImporter * (Exn + Stats) :=
  let imp := set_job (mark_as_processing (upload_job imp)) imp in
  let header_error :=
    match fieldnames file with
    | Some ((_ :: _) as headers) =>
        let '(is_valid, error_msg) := validate_headers headers in
        if is_valid then None else Some (ValueError error_msg)
    | _ => None
    end in
  match header_error with
  | Some e =>
      (set_job (mark_as_failed (exn_str e) (upload_job imp)) imp, inl e)
  | None =>
      let row_count := Z.of_nat (length (records file)) in
      let imp := set_stats (set_total row_count (stats imp)) imp in
      let imp := set_job (set_total_rows row_count (upload_job imp)) imp in
      let imp := read_rows (records file) [] imp in
      let imp := set_job (mark_as_completed (upload_job imp)) imp in
      (imp, inr (stats imp))
  end.

End products.

(** ** Tasks and views around the import

    The Celery tasks of [products/tasks.py] and [webhooks/tasks.py]
    and the views of [products/views.py] and [webhooks/views.py] that
    start them.  A call [task.delay(...)] puts the call on the queue
    of the worker; a function that makes such calls returns them, in
    the order it makes them.  A dictionary sent as JSON is the list of
    its items; the time stamps in it are left out. *)

Module webhooks_tasks.

(** [test_webhook]: one POST of a sample payload.  The table and the
    log are only read.  The result is the success flag and the
    message; the third component of the tuple, the time the call took
    (0 on the two failure paths), is left out. *)
Definition test_webhook (webhook_id : nat) (post : webhooks.Http)
    (db : webhooks.Db) : bool * string :=
  match webhooks.webhook_table db !! webhook_id with
  | None => (false, "Error: " +:+ "Webhook matching query does not exist.")
  | Some webhook =>
      match post with
      | webhooks.Response code _ =>
          let is_successful := (200 <=? code) && (code <? 300) in
          if is_successful
          then (true, "Success (" +:+ pretty code +:+ ")")
          else (false, "Failed (" +:+ pretty code +:+ ")")
      | webhooks.RequestException e => (false, "Request failed: " +:+ e)
      end
  end.

End webhooks_tasks.

Module webhooks_views.

(** A JSON value, as far as the replies and payloads use them. *)
#[warnings="-register-all"]
Inductive Value :=
| Str (s : string)
| Bool (b : bool)
| Int (n : Z)
| Ids (l : list nat)
| Strs (l : list string)
| Dict (d : list (string * Value)).

(** What a view returns: a [JsonResponse] with its status and the
    items of its body, or a rendered template. *)
Inductive Reply :=
| Json (status : Z) (body : list (string * Value))
| Render (template : string).

(** [Webhook.save]: a webhook without a secret gets one; [token] is
    what [secrets.token_urlsafe(32)] returns when it is called. *)
Definition save (token : string) (w : webhooks.Webhook) : webhooks.Webhook :=
  if negb (str.truthy (webhooks.secret w))
  then {| webhooks.url := webhooks.url w;
          webhooks.event_type := webhooks.event_type w;
          webhooks.is_active := webhooks.is_active w;
          webhooks.secret := token;
          webhooks.total_triggers := webhooks.total_triggers w;
          webhooks.successful_triggers := webhooks.successful_triggers w;
          webhooks.failed_triggers := webhooks.failed_triggers w |}
  else w.

(** [webhook_toggle].  [get_object_or_404] raises [Http404] for a key
    that is not in the table, inside the [try] of the view. *)
Definition webhook_toggle (pk : nat) (token : string)
    (tbl : gmap nat webhooks.Webhook) : gmap nat webhooks.Webhook * Reply :=
  match tbl !! pk with
  | None =>
      (tbl, Json 400 [("success", Bool false);
                      ("error", Str "No Webhook matches the given query.")])
  | Some webhook =>
      let webhook :=
        {| webhooks.url := webhooks.url webhook;
           webhooks.event_type := webhooks.event_type webhook;
           webhooks.is_active := negb (webhooks.is_active webhook);
           webhooks.secret := webhooks.secret webhook;
           webhooks.total_triggers := webhooks.total_triggers webhook;
           webhooks.successful_triggers := webhooks.successful_triggers webhook;
           webhooks.failed_triggers := webhooks.failed_triggers webhook |} in
      let webhook := save token webhook in
      (<[pk := webhook]> tbl,
       Json 200 [("success", Bool true);
                 ("is_active", Bool (webhooks.is_active webhook))])
  end.

End webhooks_views.

Module products_tasks.

Import webhooks_views.

(** A row of the product table with its primary key.  A queryset is
    the list of its rows, in the order of the query. *)
Abbreviation Rows := (list (nat * products.Product)) (only parsing).

(** [queryset.filter(id__in=product_ids)] *)
Definition filter_id_in (product_ids : list nat) (rows : Rows) : Rows :=
  filter (fun r => r.1 ∈ product_ids) rows.

(** [queryset.filter(is_active=b)] *)
Definition filter_is_active (b : bool) (rows : Rows) : Rows :=
  filter (fun r => products.is_active r.2 = b) rows.

(** [queryset.count()] *)
Definition count {A} (rows : list A) : Z := Z.of_nat (length rows).

(** The calls the tasks and views put on the queue. *)
Inductive Call :=
| trigger_webhooks_delay (event_type : string)
    (payload : list (string * Value))
| process_csv_import_delay (upload_job_id : nat)
    (options : gmap string bool)
| bulk_delete_products_delay (product_ids : list nat)
| send_webhook_delay (webhook_id : nat) (payload : list (string * Value)).

(** [trigger_webhooks]: one [send_webhook] call for each active
    webhook of the event type; the task raises nothing.  The calls
    are made in the order of the queryset, the time of creation,
    which the table does not record; they are listed in the order of
    the keys. *)
Definition trigger_webhooks (event_type : string)
    (payload : list (string * Value)) (tbl : gmap nat webhooks.Webhook)
    : list Call :=
  (fun r => send_webhook_delay r.1 payload)
  <$> filter (fun r => webhooks.event_type r.2 = event_type
                       /\ webhooks.is_active r.2 = true)
        (map_to_list tbl).

(** An upload job in the table of jobs: the name of the file, the
    file as [csv.DictReader] presents it, and the fields of the job. *)
Record JobRow := {
  file_name : string;
  file : products.CsvFile;
  job : products.UploadJob
}.

(** What can end [process_csv_import] with an exception. *)
Inductive Failure :=
| DoesNotExist (msg : string)
| ImportError (e : products.Exn).

(** [str(e)] *)
Definition failure_str (f : Failure) : string :=
  match f with
  | DoesNotExist msg => msg
  | ImportError e => products.exn_str e
  end.

(** The dictionary [importer.import_csv()] returns. *)
Definition stats_dict (s : products.Stats) : list (string * Value) :=
  [("total", Int (products.total s));
   ("processed", Int (products.processed s));
   ("created", Int (products.created s));
   ("updated", Int (products.updated s));
   ("skipped", Int (products.skipped s));
   ("errors", Int (products.errors s))].

(** [options.get('skip_duplicates', True)] of [CSVImporter.__init__],
    for the [options] the task passes on: [{}] when it got [None]. *)
Definition skip_duplicates_of (options : option (gmap string bool)) : bool :=
  from_option id true (from_option id ∅ options !! "skip_duplicates").

(** The state a run of [process_csv_import] leaves and its end. *)
Record Run := {
  jobs : gmap nat JobRow;
  table : list products.Product;
  queued : list Call;
  result : Failure + products.Stats
}.

(** [process_csv_import] *)
Definition process_csv_import (upload_job_id : nat)
    (options : option (gmap string bool))
    (jobs : gmap nat JobRow) (table : list products.Product) : Run :=
  match jobs !! upload_job_id with
  | None =>
      let e := DoesNotExist "UploadJob matching query does not exist." in
      {| jobs := jobs; table := table;
         queued :=
           [trigger_webhooks_delay "upload.failed"
              [("upload_job_id", Int (Z.of_nat upload_job_id));
               ("error", Str (failure_str e))]];
         result := inl e |}
  | Some upload_job =>
      let importer :=
        products.init (job upload_job) (skip_duplicates_of options) table in
      let '(importer, r) := products.import_csv (file upload_job) importer in
      let jobs :=
        <[upload_job_id :=
            {| file_name := file_name upload_job; file := file upload_job;
               job := products.upload_job importer |}]> jobs in
      match r with
      | inr stats =>
          {| jobs := jobs; table := products.table importer;
             queued :=
               [trigger_webhooks_delay "upload.completed"
                  [("upload_job_id", Int (Z.of_nat upload_job_id));
                   ("file_name", Str (file_name upload_job));
                   ("stats", Dict (stats_dict stats))]];
             result := inr stats |}
      | inl e =>
          {| jobs := jobs; table := products.table importer;
             queued :=
               [trigger_webhooks_delay "upload.failed"
                  [("upload_job_id", Int (Z.of_nat upload_job_id));
                   ("error", Str (products.exn_str e))]];
             result := inl (ImportError e) |}
      end
  end.

(** An entry of the audit log. *)
Record AuditLog := {
  product_sku : string;
  action : string;
  changes : list (string * Value);
  user : string
}.

(** [bulk_delete_products]: the rows left, the audit entry written,
    the calls queued and the number returned. *)
Definition bulk_delete_products (product_ids : list nat) (rows : Rows)
    : Rows * AuditLog * list Call * Z :=
  let selected := filter_id_in product_ids rows in
  let count := count selected in
  let skus := (fun r => products.sku r.2) <$> selected in
  let entry :=
    {| product_sku := "BULK_DELETE"; action := "bulk_delete";
       changes := [("deleted_count", Int count);
                   ("product_ids", Ids product_ids);
                   ("skus", Strs (take 100 skus))];
       user := "system" |} in
  (filter (fun r => r.1 ∉ product_ids) rows, entry,
   [trigger_webhooks_delay "product.bulk_deleted"
      [("deleted_count", Int count)]],
   count).

(** The dictionary [update_product_stats] puts into the cache. *)
Record ProductStats := {
  total_products : Z;
  active_products : Z;
  inactive_products : Z;
  total_uploads : Z;
  pending_uploads : Z;
  processing_uploads : Z;
  completed_uploads : Z;
  failed_uploads : Z
}.

#[global] Instance Status_eq_dec : EqDecision products.Status.
Proof. solve_decision. Defined.

(** [UploadJob.objects.filter(status=s)] *)
Definition filter_status (s : products.Status)
    (jobs : list products.UploadJob) : list products.UploadJob :=
  filter (fun j => products.status j = s) jobs.

(** [update_product_stats] *)
Definition update_product_stats (rows : Rows) (jobs : list products.UploadJob)
    : ProductStats :=
  {| total_products := count rows;
     active_products := count (filter_is_active true rows);
     inactive_products := count (filter_is_active false rows);
     total_uploads := count jobs;
     pending_uploads := count (filter_status products.pending jobs);
     processing_uploads := count (filter_status products.processing jobs);
     completed_uploads := count (filter_status products.completed jobs);
     failed_uploads := count (filter_status products.failed jobs) |}.

(** [export_products_csv]: the rows handed to [csv.writer], the
    header first.  [exported] is [Product.objects.all()] as the
    iterator yields it, each product with its creation time as
    [strftime] formats it. *)
Definition export_products_csv (exported : list (products.Product * string))
    : list (list string) :=
  ["SKU"; "Name"; "Description"; "Status"; "Created At"]
  :: ((fun r => [products.sku r.1; products.name r.1;
                 products.description r.1;
                 if products.is_active r.1 then "Active" else "Inactive";
                 r.2]) <$> exported).

(** What [csv.DictReader] presents of the file [csv.writer] has
    written from [lines], when each row has as many fields as the
    first: the first row is the header and every other row the
    dictionary of the header names and its fields. *)
Definition written (lines : list (list string)) : products.CsvFile :=
  match lines with
  | [] => {| products.fieldnames := None; products.records := [] |}
  | header :: rows =>
      {| products.fieldnames := Some header;
         products.records :=
           (fun row => zip_with (fun k v => products.Col k (Some v))
                         header row) <$> rows |}
  end.

End products_tasks.

Module products_views.

Import webhooks_views products_tasks.

(** [UploadJob.errors]: the messages of the error list. *)
Definition errors (j : products.UploadJob) : list string :=
  match products.error_details j with
  | Some ((_ :: _) as l) => products.error <$> l
  | _ => []
  end.

(** The word Django stores for a status. *)
Definition status_str (s : products.Status) : string :=
  match s with
  | products.pending => "pending"
  | products.processing => "processing"
  | products.completed => "completed"
  | products.failed => "failed"
  end.

(** [upload_status]: the body of the reply for a job of the table. *)
Definition upload_status (upload_job : products.UploadJob)
    : list (string * Value) :=
  [("status", Str (status_str (products.status upload_job)));
   ("progress_percentage", Int (products.progress_percentage upload_job));
   ("total_rows", Int (products.total_rows upload_job));
   ("processed_rows", Int (products.processed_rows upload_job));
   ("created_count", Int (products.created_count upload_job));
   ("updated_count", Int (products.updated_count upload_job));
   ("skipped_count", Int (products.skipped_count upload_job));
   ("error_count", Int (products.error_count upload_job));
   ("errors", Strs (match errors upload_job with
                    | [] => []
                    | l => take 10 l
                    end))].

(** [s.endswith(suffix)]: [s] or one of its tails is [suffix]. *)
Fixpoint endswith (suffix s : string) : bool :=
  String.eqb s suffix
  || match s with
     | EmptyString => false
     | String _ s' => endswith suffix s'
     end.

(** The part of a request [upload_csv] reads: the method, the name of
    the file under [csv_file] if there is one, and the POST fields. *)
Record UploadRequest := {
  method : string;
  csv_file : option string;
  POST : gmap string string
}.

(** [upload_csv].  [job_id] is the key the database gives the new
    job.  The result is the reply, the job created, if one is, and
    the calls queued; the identifier of the queued task, which the
    reply repeats, is left out. *)
Definition upload_csv (request : UploadRequest) (job_id : nat)
    : Reply * option (nat * products.UploadJob) * list Call :=
  if String.eqb (method request) "POST"
  then
    match csv_file request with
    | None => (Json 400 [("error", Str "No file provided")], None, [])
    | Some name =>
        if negb (str.truthy name)
        then (Json 400 [("error", Str "No file provided")], None, [])
        else if negb (endswith ".csv" name)
        then (Json 400 [("error", Str "File must be a CSV")], None, [])
        else
          let upload_job := products.new_job in
          let options : gmap string bool :=
            <["deactivate_missing" :=
                bool_decide (POST request !! "deactivate_missing"
                             = Some "true")]>
              (<["skip_duplicates" :=
                   bool_decide (POST request !! "skip_duplicates"
                                = Some "true")]> ∅) in
          (Json 200 [("success", Bool true);
                     ("job_id", Int (Z.of_nat job_id))],
           Some (job_id, upload_job),
           [trigger_webhooks_delay "upload.started"
              [("job_id", Int (Z.of_nat job_id));
               ("file_name", Str name)];
            process_csv_import_delay job_id options])
    end
  else (Render "products/upload.html", None, []).

(** [queryset.update(is_active=b)] on the rows with a key in
    [product_ids]: the table after it and the number of rows matched. *)
Definition update_is_active (b : bool) (product_ids : list nat) (rows : Rows)
    : Rows * Z :=
  ((fun r =>
      if bool_decide (r.1 ∈ product_ids)
      then (r.1, {| products.sku := products.sku r.2;
                    products.sku_lower := products.sku_lower r.2;
                    products.name := products.name r.2;
                    products.description := products.description r.2;
                    products.is_active := b |})
      else r) <$> rows,
   count (filter_id_in product_ids rows)).

(** [bulk_activate] and [bulk_deactivate], for a body that holds a
    list of keys under [product_ids]. *)
Definition bulk_activate (product_ids : list nat) (rows : Rows)
    : Rows * Reply * list Call :=
  let skus := (fun r => products.sku r.2) <$> filter_id_in product_ids rows in
  let '(rows, count) := update_is_active true product_ids rows in
  (rows,
   Json 200 [("success", Bool true); ("count", Int count)],
   if count >? 0
   then [trigger_webhooks_delay "product.updated"
           [("action", Str "bulk_activate"); ("count", Int count);
            ("product_ids", Ids product_ids);
            ("skus", Strs (take 100 skus))]]
   else []).

Definition bulk_deactivate (product_ids : list nat) (rows : Rows)
    : Rows * Reply * list Call :=
  let skus := (fun r => products.sku r.2) <$> filter_id_in product_ids rows in
  let '(rows, count) := update_is_active false product_ids rows in
  (rows,
   Json 200 [("success", Bool true); ("count", Int count)],
   if count >? 0
   then [trigger_webhooks_delay "product.updated"
           [("action", Str "bulk_deactivate"); ("count", Int count);
            ("product_ids", Ids product_ids);
            ("skus", Strs (take 100 skus))]]
   else []).

(** [bulk_delete_view]: the deletion itself is left to the task,
    whose identifier in the reply is left out. *)
Definition bulk_delete_view (product_ids : list nat) : Reply * list Call :=
  (Json 200 [("success", Bool true);
             ("count", Int (Z.of_nat (length product_ids)))],
   [bulk_delete_products_delay product_ids]).

End products_views.
(** * Notions used in the statements *)

(** ** Webhooks *)

Definition triggers_balanced (w : webhooks.Webhook) : Prop :=
  webhooks.successful_triggers w + webhooks.failed_triggers w
  = webhooks.total_triggers w.

(** The webhook after a sequence of [record_trigger] calls, oldest first. *)
Definition record_triggers (outcomes : list bool) (w : webhooks.Webhook)
    : webhooks.Webhook :=
  fold_left (fun w b => webhooks.record_trigger b w) outcomes w.

(** The endpoint of the retry scenario: every call is answered with
    HTTP 500. *)
Definition always_500 (text : string) : Z -> webhooks.Http :=
  fun _ => webhooks.Response 500 text.


(** ** Imports *)

(** The entries of the error list of a job; a list that is still
    [None] has none. *)
Definition error_entries (j : products.UploadJob) : list products.ErrorEntry :=
  from_option id [] (products.error_details j).

(** The header names as [validate_headers] compares them. *)
Definition lowered (headers : list string) : list string :=
  (fun h => str.strip (str.lower h)) <$> headers.

(** A header row lacks a required column. *)
Definition lacks_required_column (headers : list string) : Prop :=
  "sku" ∉ lowered headers \/ "name" ∉ lowered headers.

(** The whole job failed with message [msg]: the job is [failed], the
    message is the last entry of its error list, with row number 0,
    its error count is one higher, and the exception reached the
    caller. *)
Definition fails_with (msg : string) (before : products.CSVImporter)
    (result : products.CSVImporter * (products.Exn + products.Stats)) : Prop :=
  products.status (products.upload_job result.1) = products.failed
  /\ error_entries (products.upload_job result.1)
     = error_entries (products.upload_job before)
       ++ [ {| products.row := 0; products.error := msg |} ]
  /\ products.error_count (products.upload_job result.1)
     = products.error_count (products.upload_job before) + 1
  /\ result.2 = inl (products.ValueError msg).

(** A record with the columns [sku] and [name]. *)
Definition record (sku name : string) : products.Row :=
  [products.Col "sku" (Some sku); products.Col "name" (Some name)].

(** A file with the header [sku,name] and the given records. *)
Definition csv (records : list products.Row) : products.CsvFile :=
  {| products.fieldnames := Some ["sku"; "name"];
     products.records := records |}.

(** The file without any record, not even a header. *)
Definition empty_file : products.CsvFile :=
  {| products.fieldnames := None; products.records := [] |}.

(** The file whose first line is blank: the reader takes it as a
    header without fields. *)
Definition blank_header_file : products.CsvFile :=
  {| products.fieldnames := Some []; products.records := [] |}.

(** A product as the importer stores it for a record [sku,name]. *)
Definition stored (sku name : string) : products.Product :=
  {| products.sku := sku; products.sku_lower := str.strip (str.lower sku);
     products.name := name; products.description := "";
     products.is_active := true |}.

(** A fresh import of [file] into the table [t]. *)
Definition import (skip : bool) (file : products.CsvFile)
    (t : list products.Product)
    : products.CSVImporter * (products.Exn + products.Stats) :=
  products.import_csv file (products.init products.new_job skip t).

(** The second of two imports of the same file, each with a job of its
    own, the second into the table the first has left. *)
Definition reimport (skip : bool) (file : products.CsvFile)
    (t : list products.Product)
    : products.CSVImporter * (products.Exn + products.Stats) :=
  import skip file (products.table (import skip file t).1).

(** [n] times the character [c]. *)
Fixpoint replicate_char (n : nat) (c : ascii) : string :=
  match n with
  | O => EmptyString
  | S n' => String c (replicate_char n' c)
  end.

(** A SKU of 256 characters whose 255th is a space. *)
Definition sku_256 : string := replicate_char 254 "a" +:+ " b".

(** The rows of a table that stand for a case-insensitive SKU. *)
Definition rows_of_sku (key : string) (t : list products.Product)
    : list products.Product :=
  filter (fun p => products.sku_lower p = key) t.

(** A string of spaces only. *)
Fixpoint blank (s : string) : bool :=
  match s with
  | EmptyString => true
  | String c s' => str.isspace c && blank s'
  end.

(** The importer, the instances to create and the instances to update
    with which [process_chunk] enters its atomic block; [None] when it
    returns before it gets there. *)
Definition chunk_plan (rows : list products.Row) (imp : products.CSVImporter)
    : option (products.CSVImporter * list products.Product
              * list (nat * products.Product)) :=
  match rows with
  | [] => None
  | _ =>
      let '(normalized_rows, imp) := products.normalize_rows 0 rows imp in
      match normalized_rows with
      | [] => None
      | _ =>
          let '(skus_lower, valid_rows, imp) :=
            products.collect_skus normalized_rows imp in
          match valid_rows with
          | [] => None
          | _ =>
              let '(existing, to_create, to_update) :=
                products.partition_rows valid_rows
                  (products.in_bulk (products.table imp) skus_lower) in
              Some (imp, to_create, products.deref existing to_update)
          end
      end
  end.

(** The entry the fallback records for an instance it could not save. *)
Definition fallback_entry (at_row : Z) (p : products.Product)
    : products.ErrorEntry :=
  {| products.row := at_row;
     products.error :=
       "SKU " +:+ products.sku p +:+ ": "
       +:+ products.exn_str products.unique_violation |}.

(** The row [Product.save] stores for an instance: [sku_lower] is
    computed again from the SKU. *)
Definition as_saved (p : products.Product) : products.Product :=
  {| products.sku := products.sku p;
     products.sku_lower := str.strip (str.lower (products.sku p));
     products.name := products.name p;
     products.description := products.description p;
     products.is_active := products.is_active p |}.

(** ** The table and the rows of a chunk *)

Definition keys (t : list products.Product) : list string :=
  products.sku_lower <$> t.

(** The constraint [unique=True] on [sku_lower]. *)
Definition unique_skus (t : list products.Product) : Prop := NoDup (keys t).

(** The SKU stored for a case-insensitive SKU, if the table has a row
    for it. *)
Definition stored_sku (key : string) (t : list products.Product)
    : option string :=
  head (products.sku <$> rows_of_sku key t).

(** The rows of a chunk that [normalize_row] accepts, normalized. *)
Definition normalized_of (rows : list products.Row)
    : list (gmap string string) :=
  omap (fun r => match products.normalize_row r with
                 | inr n => Some n
                 | inl _ => None
                 end) rows.

(** The test of the second loop of [process_chunk]. *)
Definition is_valid (n : gmap string string) : Prop :=
  str.truthy (str.strip (products.get "sku" "" n)) = true.

(** The rows of a chunk that reach the sorting into updates and
    creations. *)
Definition valid_rows_of (rows : list products.Row)
    : list (gmap string string) :=
  filter is_valid (normalized_of rows).

(** The key under which a row is looked up among the existing
    products, and the [sku_lower] it is stored with. *)
Definition lookup_key (n : gmap string string) : string :=
  str.lower (products.item "sku" n).

Definition create_key (n : gmap string string) : string :=
  str.strip (str.lower (products.item "sku" n)).

(** The SKU stored for [key] after a chunk with the valid rows [vs],
    from the one stored before ([cur]): a chunk that finds the product
    in the table leaves it with the SKU of its last row looked up under
    the key; a chunk that does not find it creates it from its first
    row stored under the key. *)
Definition track_chunk (key : string) (vs : list (gmap string string))
    (cur : option string) : option string :=
  match cur with
  | Some s =>
      match last (filter (fun n => lookup_key n = key) vs) with
      | Some n => Some (products.item "sku" n)
      | None => Some s
      end
  | None =>
      match head (filter (fun n => create_key n = key) vs) with
      | Some n => Some (products.item "sku" n)
      | None => None
      end
  end.

(** The chunks in which [read_rows] hands the rows to [process_chunk],
    when [chunk] holds the rows read since the last full chunk. *)
Fixpoint chunks_from (rows chunk : list products.Row)
    : list (list products.Row) :=
  match rows with
  | [] => match chunk with [] => [] | _ => [chunk] end
  | r :: rows' =>
      let chunk := chunk ++ [r] in
      if (products.CHUNK_SIZE <=? length chunk)%nat
      then chunk :: chunks_from rows' []
      else chunks_from rows' chunk
  end.

Definition chunks (rows : list products.Row) : list (list products.Row) :=
  chunks_from rows [].

(** The instance the sorting loop makes of a row; [active] is the flag
    of the existing product, [True] for a new one. *)
Definition product_of (n : gmap string string) (active : bool)
    : products.Product :=
  {| products.sku := products.item "sku" n;
     products.sku_lower := str.strip (str.lower (products.item "sku" n));
     products.name := products.item "name" n;
     products.description := products.get "description" "" n;
     products.is_active := active |}.

(** The row an update leaves: the four fields of the instance, the
    flag of the row. *)
Definition merge (p old : products.Product) : products.Product :=
  {| products.sku := products.sku p;
     products.sku_lower := products.sku_lower p;
     products.name := products.name p;
     products.description := products.description p;
     products.is_active := products.is_active old |}.

(** The sum the accounting of an import is about. *)
Definition accounted (s : products.Stats) : Z :=
  products.created s + products.updated s + products.skipped s.

(** The lowercase SKUs the second loop collects from the valid rows. *)
Definition skus_lower_of (vs : list (gmap string string)) : list string :=
  (fun n => str.lower (str.strip (products.get "sku" "" n))) <$> vs.

(** The SKU stored for [key] after the chunks [cs], processed in
    order. *)
Definition track (key : string) (cs : list (list products.Row))
    (cur : option string) : option string :=
  fold_left (fun cur c => track_chunk key (valid_rows_of c) cur) cs cur.

(** The counters of the job are those of the importer. *)
Definition synced (imp : products.CSVImporter) : Prop :=
  let j := products.upload_job imp in
  let s := products.stats imp in
  products.processed_rows j = products.processed s
  /\ products.created_count j = products.created s
  /\ products.updated_count j = products.updated s
  /\ products.skipped_count j = products.skipped s
  /\ products.error_count j = products.errors s
  /\ products.success_count j = products.created s + products.updated s.

(** The header check of [import_csv] lets the file pass. *)
Definition header_accepted (file : products.CsvFile) : Prop :=
  match products.fieldnames file with
  | Some ((_ :: _) as headers) => (products.validate_headers headers).1 = true
  | _ => True
  end.

(** The importer with which the second pass of a fresh import of
    [file] into [t] starts. *)
Definition second_pass_start (skip : bool) (file : products.CsvFile)
    (t : list products.Product) : products.CSVImporter :=
  let n := Z.of_nat (length (products.records file)) in
  products.set_job
    (products.set_total_rows n
       (products.mark_as_processing products.new_job))
    (products.set_stats
       (products.set_total n products.no_stats)
       (products.init products.new_job skip t)).

(** ** An import of 50000 records, 29 chunks in *)

(** The file: 50000 records for one product. *)
Definition file_50000 : products.CsvFile :=
  csv (replicate (Z.to_nat 50000) (record "x" "Widget")).

(** The importer after the 29th chunk of the import of [file_50000]
    into a table that holds the product. *)
Definition after_29_chunks : products.CSVImporter :=
  products.read_rows (take (Z.to_nat 29000) (products.records file_50000)) []
    (second_pass_start true file_50000 [stored "x" "old"]).

(** A record without a usable SKU: every value under a column named
    [sku] is blank. *)
Definition sku_blank (r : products.Row) : Prop :=
  forall k v, products.Col k (Some v) ∈ r ->
              str.strip (str.lower k) = "sku" -> str.strip v = "".
(** ** Notions used in the further properties *)

(** The log entry of a call that failed in transport: it has no
    status code and counts as a failure. *)
Definition transport_failure (l : webhooks.WebhookLog) : Prop :=
  webhooks.status_code l = None /\ webhooks.is_successful l = false.

(** The log entries written for a webhook. *)
Definition logs_of (id : nat) (db : webhooks.Db) : list webhooks.WebhookLog :=
  filter (fun l => webhooks.log_webhook l = id) (webhooks.log_table db).

(** The counters of every webhook tell what the log holds for it: as
    many triggers as entries, as many successful ones as successful
    entries, as many failed ones as failed entries. *)
Definition counters_match_log (db : webhooks.Db) : Prop :=
  forall id w,
    webhooks.webhook_table db !! id = Some w ->
    webhooks.total_triggers w = Z.of_nat (length (logs_of id db))
    /\ webhooks.successful_triggers w
       = Z.of_nat (length (filter (fun l => webhooks.is_successful l = true)
                             (logs_of id db)))
    /\ webhooks.failed_triggers w
       = Z.of_nat (length (filter (fun l => webhooks.is_successful l = false)
                             (logs_of id db))).

(** No logged response body is longer than 1000 characters. *)
Definition bodies_bounded (db : webhooks.Db) : Prop :=
  Forall (fun l => (String.length (webhooks.response_body l) <= 1000)%nat)
    (webhooks.log_table db).

(** An endpoint that fails in transport on its first two calls and
    answers 200 from then on, and a table with one webhook for it. *)
Definition recovering_endpoint : Z -> webhooks.Http :=
  fun r => if r <? 2 then webhooks.RequestException "timed out"
           else webhooks.Response 200 "ok".

Definition one_webhook : webhooks.Db :=
  {| webhooks.webhook_table :=
       {[ 7%nat := webhooks.create "https://example.org/hook"
                     "upload.completed" "s3cr3t" ]};
     webhooks.log_table := [] |}.

(** ** The table across an import *)

(** The [sku_lower] of a row is what [Product.save] computes from
    its SKU. *)
Definition key_of_sku (p : products.Product) : Prop :=
  products.sku_lower p = str.strip (str.lower (products.sku p)).

Definition keys_consistent (t : list products.Product) : Prop :=
  Forall key_of_sku t.

(** What may have happened to a table between two moments of an
    import: every row is still there, under its primary key, active
    or not as it was, and with the key of its SKU if it had it; a row
    that has appeared is active and has the key of its SKU; the
    constraint on [sku_lower] still holds if it did. *)
Definition table_step (t t' : list products.Product) : Prop :=
  (forall pk p, t !! pk = Some p ->
     exists p', t' !! pk = Some p'
                /\ products.is_active p' = products.is_active p
                /\ (key_of_sku p -> key_of_sku p'))
  /\ (forall pk p', t' !! pk = Some p' -> t !! pk = None ->
        products.is_active p' = true /\ key_of_sku p')
  /\ (unique_skus t -> unique_skus t').

(** The errors counted that are not in the error list of the job. *)
Definition error_gap (imp : products.CSVImporter) : Z :=
  products.errors (products.stats imp)
  - Z.of_nat (length (error_entries (products.upload_job imp))).

(** What a chunk may do to the importer. *)
Definition import_step (imp imp' : products.CSVImporter) : Prop :=
  table_step (products.table imp) (products.table imp')
  /\ products.skip_duplicates imp' = products.skip_duplicates imp
  /\ products.cache imp' = products.cache imp
  /\ products.processed (products.stats imp')
     = products.processed (products.stats imp)
  /\ products.total (products.stats imp') = products.total (products.stats imp)
  /\ products.status (products.upload_job imp')
     = products.status (products.upload_job imp)
  /\ products.total_rows (products.upload_job imp')
     = products.total_rows (products.upload_job imp)
  /\ error_gap imp' = error_gap imp
  /\ error_entries (products.upload_job imp)
     `prefix_of` error_entries (products.upload_job imp')
  /\ products.created (products.stats imp)
     <= products.created (products.stats imp')
  /\ products.updated (products.stats imp)
     <= products.updated (products.stats imp')
  /\ products.skipped (products.stats imp)
     <= products.skipped (products.stats imp')
  /\ products.errors (products.stats imp)
     <= products.errors (products.stats imp').

(** What a stretch of the second pass in which [n] records are read
    may do to the importer. *)
Definition pass_step (n : Z) (imp imp' : products.CSVImporter) : Prop :=
  table_step (products.table imp) (products.table imp')
  /\ products.skip_duplicates imp' = products.skip_duplicates imp
  /\ products.processed (products.stats imp')
     = products.processed (products.stats imp) + n
  /\ products.total (products.stats imp') = products.total (products.stats imp)
  /\ products.status (products.upload_job imp')
     = products.status (products.upload_job imp)
  /\ products.total_rows (products.upload_job imp')
     = products.total_rows (products.upload_job imp)
  /\ error_gap imp' = error_gap imp
  /\ error_entries (products.upload_job imp)
     `prefix_of` error_entries (products.upload_job imp')
  /\ products.created (products.stats imp)
     <= products.created (products.stats imp')
  /\ products.updated (products.stats imp)
     <= products.updated (products.stats imp')
  /\ products.skipped (products.stats imp)
     <= products.skipped (products.stats imp')
  /\ products.errors (products.stats imp)
     <= products.errors (products.stats imp').

(** The snapshot in the cache is the one [update_progress] makes of
    the importer as it is. *)
Definition cache_current (imp : products.CSVImporter) : Prop :=
  exists c,
    products.cache imp = Some c
    /\ products.p_processed c = products.processed (products.stats imp)
    /\ products.p_total c = products.total (products.stats imp)
    /\ products.p_status c = products.status (products.upload_job imp)
    /\ products.p_created c = products.created (products.stats imp)
    /\ products.p_updated c = products.updated (products.stats imp)
    /\ products.p_errors c = products.errors (products.stats imp).

(** A file with a record that is rejected, one that is new, and two
    for the product of the table. *)
Definition mixed_file : products.CsvFile :=
  csv [record "  " "no sku"; record "N1" "New"; record "X" "first";
       record "x" "second"].

(** ** The queue *)

(** The [send_webhook] calls the worker makes when it runs the
    [trigger_webhooks] calls among [calls] on the table [tbl]. *)
Definition triggered (calls : list products_tasks.Call)
    (tbl : gmap nat webhooks.Webhook) : list products_tasks.Call :=
  calls ≫= (fun c =>
    match c with
    | products_tasks.trigger_webhooks_delay e payload =>
        products_tasks.trigger_webhooks e payload tbl
    | _ => []
    end).

(** The webhook is in the table, is active and listens to the event. *)
Definition subscribed (event_type : string) (id : nat)
    (tbl : gmap nat webhooks.Webhook) : Prop :=
  exists w, tbl !! id = Some w
            /\ webhooks.event_type w = event_type
            /\ webhooks.is_active w = true.

(** A table of jobs with one job, for [mixed_file], and a table of
    webhooks with one for each end of an upload. *)
Definition mixed_upload : products_tasks.JobRow :=
  {| products_tasks.file_name := "products.csv";
     products_tasks.file := mixed_file;
     products_tasks.job := products.new_job |}.

Definition one_job : gmap nat products_tasks.JobRow :=
  {[ 3%nat := mixed_upload ]}.

Definition two_webhooks : gmap nat webhooks.Webhook :=
  <[ 1%nat := webhooks.create "https://example.org/done"
                "upload.completed" "a" ]>
    {[ 2%nat := webhooks.create "https://example.org/failed"
                  "upload.failed" "b" ]}.

(** ** Bulk operations of the product list *)

(** [bulk_activate] when [b] is [true], [bulk_deactivate] when not. *)
Definition bulk_set_active (b : bool) (product_ids : list nat)
    (rows : products_tasks.Rows)
    : products_tasks.Rows * webhooks_views.Reply * list products_tasks.Call :=
  if b then products_views.bulk_activate product_ids rows
  else products_views.bulk_deactivate product_ids rows.

(** The word the payload of a bulk update carries. *)
Definition bulk_action (b : bool) : string :=
  if b then "bulk_activate" else "bulk_deactivate".

(** Two rows agree in all the fields the importer writes. *)
Definition same_product (p p' : products.Product) : Prop :=
  products.sku p' = products.sku p
  /\ products.sku_lower p' = products.sku_lower p
  /\ products.name p' = products.name p
  /\ products.description p' = products.description p.

(** Three rows of the product list. *)
Definition three_rows : products_tasks.Rows :=
  [(5%nat, stored "a" "A"); (4%nat, stored "b" "B"); (2%nat, stored "c" "C")].

(** ** Export and import *)

(** A product whose fields are what the importer would make of
    them: the SKU, the name and the description have no space at
    their ends and only single spaces inside, the SKU and the name
    are not empty and within the length of their columns, and
    [sku_lower] is the key of the SKU. *)
Definition clean (q : products.Product) : Prop :=
  products.cleaned (products.sku q) = products.sku q
  /\ products.sku q <> ""
  /\ (String.length (products.sku q) <= 255)%nat
  /\ products.cleaned (products.name q) = products.name q
  /\ products.name q <> ""
  /\ (String.length (products.name q) <= 500)%nat
  /\ products.cleaned (products.description q) = products.description q
  /\ key_of_sku q.

(** A valid row that restates a product of the table: its SKU is
    stripped and its fields are those of the product. *)
Definition restates (t : list products.Product) (n : gmap string string)
    : Prop :=
  str.strip (products.item "sku" n) = products.item "sku" n
  /\ exists q, q ∈ t /\ product_of n (products.is_active q) = q.

(** The dictionary [normalize_row] makes of the exported row of a
    clean product. *)
Definition exported_row (r : products.Product * string)
    : gmap string string :=
  <["sku" := products.sku r.1]>
    (<["name" := products.name r.1]>
       (<["description" := products.description r.1]>
          (<["status" :=
               products.cleaned
                 (if products.is_active r.1 then "Active" else "Inactive")]>
             (<["created at" := products.cleaned r.2]> ∅)))).

(** A table of two products. *)
Definition two_products : list products.Product :=
  [stored "a1" "Red widget"; stored "b 2" "Blue widget"].

(** A file that names the first of them again, after a record
    without SKU. *)
Definition restating_file : products.CsvFile :=
  csv [record "  " "no sku"; record "a1" "Red widget"].

(** The two products as an export lists them, newest first. *)
Definition two_exported : list (products.Product * string) :=
  [(stored "b 2" "Blue widget", "2024-05-02 10:00:00");
   (stored "a1" "Red widget", "2024-05-01 09:30:00")].

(** * Tactics *)

(** Split a conjunction into its parts, and nothing else. *)
Ltac split_ands := repeat match goal with |- _ /\ _ => split end.

(** Projections of an importer that has been written to. *)
Ltac importer_fields :=
  cbn [products.table products.stats products.upload_job
       products.skip_duplicates products.cache
       products.set_table products.set_stats products.set_job
       products.set_cache products.total products.processed
       products.created products.updated products.skipped products.errors
       products.add_skipped products.add_created products.add_updated
       products.add_errors products.add_processed products.count_rejected
       fst snd] in *.

(** * Properties *)

(** ** Webhook statistics *)

Lemma record_trigger_balanced (b : bool) (w : webhooks.Webhook) :
  triggers_balanced w -> triggers_balanced (webhooks.record_trigger b w).
Proof.
  unfold triggers_balanced. destruct b; simpl; lia.
Qed.

Lemma record_triggers_balanced (outcomes : list bool) (w : webhooks.Webhook) :
  triggers_balanced w -> triggers_balanced (record_triggers outcomes w).
Proof.
  revert w. induction outcomes as [|b l IH]; intros w Hw; simpl.
  - exact Hw.
  - apply IH. now apply record_trigger_balanced.
Qed.

(** C8. A webhook reached from a freshly created one by any sequence of
    [record_trigger] calls satisfies
    [successful_triggers + failed_triggers = total_triggers], and so
    does the webhook after one more call, whatever its outcome. *)
Theorem record_trigger_invariant :
  forall (u e s : string) (outcomes : list bool) (success : bool),
    let w := record_triggers outcomes (webhooks.create u e s) in
    triggers_balanced w /\ triggers_balanced (webhooks.record_trigger success w).
Proof.
  intros u e s outcomes success w.
  assert (Hw : triggers_balanced w).
  { apply record_triggers_balanced. reflexivity. }
  split; [exact Hw | now apply record_trigger_balanced].
Qed.

(** ** Webhook delivery *)

(** C1 (the code at the scenario of the claim). When the endpoint
    answers 500, the first run of [send_webhook] writes one log entry,
    counts one failed trigger and raises an ordinary exception, which
    the task layer does not repeat: the delivery ends after a single
    attempt, whatever bound on the number of runs is allowed. *)
Theorem send_webhook_500_not_retried :
  forall (fuel : nat) (id : nat) (payload text : string)
         (w : webhooks.Webhook) (tbl : gmap nat webhooks.Webhook)
         (logs : list webhooks.WebhookLog),
    webhooks.deliver (S fuel) 0 id payload (always_500 text)
      {| webhooks.webhook_table := <[id := w]> tbl;
         webhooks.log_table := logs |}
    = Some
        ({| webhooks.webhook_table :=
              <[id := webhooks.record_trigger false w]> tbl;
            webhooks.log_table :=
              logs ++ [ {| webhooks.log_webhook := id;
                           webhooks.log_event_type := webhooks.event_type w;
                           webhooks.log_payload := payload;
                           webhooks.status_code := Some 500;
                           webhooks.response_body := str.take 1000 text;
                           webhooks.error := "";
                           webhooks.is_successful := false;
                           webhooks.retry_count := 0 |} ] |},
         webhooks.Raise "Webhook failed with status 500").
Proof.
  intros. cbn [webhooks.deliver]. unfold webhooks.send_webhook, always_500.
  cbn [webhooks.webhook_table webhooks.log_table].
  rewrite lookup_insert_eq. cbn -[pretty str.take].
  rewrite insert_insert_eq. reflexivity.
Qed.

(** X5. The path that does reach [self.retry]: when every call
    fails in transport, the task runs four times (retry counts 0, 1,
    2, 3) before the exception is raised for good, and the webhook
    counts four failed triggers. *)
Lemma send_webhook_transport_failure_runs :
  forall (id : nat) (payload e : string) (w : webhooks.Webhook)
         (tbl : gmap nat webhooks.Webhook),
    exists db',
      webhooks.deliver 5 0 id payload (fun _ => webhooks.RequestException e)
        {| webhooks.webhook_table := <[id := w]> tbl;
           webhooks.log_table := [] |}
      = Some (db', webhooks.Raise e)
      /\ map webhooks.retry_count (webhooks.log_table db') = [0; 1; 2; 3]
      /\ webhooks.webhook_table db' !! id
         = Some (record_triggers [false; false; false; false] w).
Proof.
  intros. eexists. split; [|split].
  - cbn [webhooks.deliver]. unfold webhooks.send_webhook.
    cbn [webhooks.webhook_table webhooks.log_table].
    repeat (rewrite lookup_insert_eq; cbn [webhooks.webhook_table webhooks.log_table
              webhooks.retry Z.add Z.gtb Z.compare Pos.compare Pos.compare_cont
              webhooks.max_retries Pos.add Pos.succ]).
    reflexivity.
  - reflexivity.
  - cbn [webhooks.webhook_table]. rewrite !insert_insert_eq, lookup_insert_eq.
    reflexivity.
Qed.

(** ** Strings *)

Lemma isspace_lower_char (c : ascii) :
  str.isspace (str.lower_char c) = str.isspace c.
Proof.
  destruct c as [[] [] [] [] [] [] [] []]; reflexivity.
Qed.

Lemma lstrip_lower (s : string) :
  str.lstrip (str.lower s) = str.lower (str.lstrip s).
Proof.
  induction s as [|c s IH]; simpl; [reflexivity|].
  rewrite isspace_lower_char. destruct (str.isspace c); [exact IH | reflexivity].
Qed.

Lemma rstrip_lower (s : string) :
  str.rstrip (str.lower s) = str.lower (str.rstrip s).
Proof.
  induction s as [|c s IH]; simpl; [reflexivity|].
  rewrite IH, isspace_lower_char.
  destruct (str.rstrip s); simpl; [|reflexivity].
  destruct (str.isspace c); reflexivity.
Qed.

Lemma strip_lower (s : string) :
  str.strip (str.lower s) = str.lower (str.strip s).
Proof.
  unfold str.strip. now rewrite lstrip_lower, rstrip_lower.
Qed.

Lemma rstrip_idemp (s : string) : str.rstrip (str.rstrip s) = str.rstrip s.
Proof.
  induction s as [|c s IH]; simpl; [reflexivity|].
  destruct (str.rstrip s) as [|d r] eqn:E.
  - destruct (str.isspace c) eqn:Ec; simpl; [reflexivity|]. now rewrite Ec.
  - simpl. simpl in IH. now rewrite IH.
Qed.

(** A string that starts with a character that is no space keeps it
    when stripped on the right. *)
Lemma rstrip_head (c : ascii) (s : string) :
  str.isspace c = false -> exists r, str.rstrip (String c s) = String c r.
Proof.
  intros Hc. simpl. destruct (str.rstrip s); rewrite ?Hc; eauto.
Qed.

Lemma lstrip_head (s : string) :
  str.lstrip s = EmptyString
  \/ exists c r, str.lstrip s = String c r /\ str.isspace c = false.
Proof.
  induction s as [|c s IH]; simpl; [now left|].
  destruct (str.isspace c) eqn:Ec; [exact IH|]. right. eauto.
Qed.

Lemma lstrip_strip (s : string) : str.lstrip (str.strip s) = str.strip s.
Proof.
  unfold str.strip. destruct (lstrip_head s) as [-> | (c & r & -> & Hc)].
  - reflexivity.
  - destruct (rstrip_head c r Hc) as [r' ->]. simpl. now rewrite Hc.
Qed.

Lemma strip_idemp (s : string) : str.strip (str.strip s) = str.strip s.
Proof.
  unfold str.strip at 1. rewrite lstrip_strip.
  unfold str.strip. apply rstrip_idemp.
Qed.

(** The lowercase of a stripped string is stripped: the keys collected
    for the lookup are not changed when [sku_lower] is recomputed. *)
Lemma strip_lower_strip (s : string) :
  str.strip (str.lower (str.strip s)) = str.lower (str.strip s).
Proof.
  now rewrite strip_lower, strip_idemp.
Qed.

Lemma rstrip_empty_blank (s : string) :
  str.rstrip s = EmptyString -> blank s = true.
Proof.
  induction s as [|c s IH]; simpl; [reflexivity|].
  destruct (str.rstrip s); [|discriminate].
  destruct (str.isspace c); [intros _; now apply IH | discriminate].
Qed.

Lemma lstrip_blank (s : string) :
  blank (str.lstrip s) = true -> blank s = true.
Proof.
  induction s as [|c s IH]; simpl; [reflexivity|].
  destruct (str.isspace c) eqn:Ec; simpl; [exact IH|]. now rewrite Ec.
Qed.

Lemma strip_empty_blank (s : string) :
  str.strip s = EmptyString -> blank s = true.
Proof.
  intros H. apply lstrip_blank, rstrip_empty_blank, H.
Qed.

Lemma split_blank (s : string) : blank s = true -> str.split s = [].
Proof.
  unfold str.split. induction s as [|c s IH]; simpl; [reflexivity|].
  destruct (str.isspace c); simpl; [exact IH | discriminate].
Qed.

(** A value that is empty when stripped is empty when cleaned. *)
Lemma cleaned_blank (v : string) :
  str.strip v = EmptyString -> products.cleaned v = EmptyString.
Proof.
  intros H. unfold products.cleaned.
  now rewrite (split_blank v (strip_empty_blank v H)).
Qed.

(** ** Header validation and the end of a job *)

Lemma missing_column_spec (headers_lower : list string) :
  products.missing_column products.REQUIRED_COLUMNS headers_lower
  = if bool_decide ("name" ∈ headers_lower)
    then if bool_decide ("sku" ∈ headers_lower)
         then (true, "")
         else (false, "Missing required column: sku")
    else (false, "Missing required column: name").
Proof.
  unfold products.REQUIRED_COLUMNS. simpl.
  repeat case_bool_decide; reflexivity.
Qed.

Lemma validate_headers_missing (headers : list string) :
  lacks_required_column headers ->
  products.validate_headers headers = (false, "Missing required column: name")
  \/ products.validate_headers headers = (false, "Missing required column: sku").
Proof.
  intros H. unfold products.validate_headers. fold (lowered headers).
  rewrite missing_column_spec.
  unfold lacks_required_column in H.
  repeat case_bool_decide; auto. tauto.
Qed.

(** C9. For a file without any record the field names are [None]:
    the header check is not made, although it would fail on a header
    without fields, and the import completes with [total_rows = 0],
    the status [completed] and no entry added to the error list; the
    product table is left as it was.  A file whose header row is
    [description] alone, for contrast, fails. *)
Theorem empty_file_completes :
  forall (j : products.UploadJob) (skip : bool) (t : list products.Product),
    let result := products.import_csv empty_file (products.init j skip t) in
    let other :=
      products.import_csv
        {| products.fieldnames := Some ["description"];
           products.records := [] |}
        (products.init j skip t) in
    result.2 = inr products.no_stats
    /\ products.status (products.upload_job result.1) = products.completed
    /\ products.total_rows (products.upload_job result.1) = 0
    /\ products.error_details (products.upload_job result.1)
       = products.error_details j
    /\ products.table result.1 = t
    /\ (products.validate_headers []).1 = false
    /\ products.status (products.upload_job other.1) = products.failed
    /\ other.2 = inl (products.ValueError "Missing required column: name").
Proof.
  intros j skip t. repeat split.
Qed.

(** C5 (as stated, refuted). A header row lacks both required columns
    when it has no field at all, which is how the reader presents a
    blank first line; for such a file the check is skipped and the job
    completes. *)
Lemma blank_header_not_failed :
  ~ (forall (file : products.CsvFile) (imp : products.CSVImporter)
            (headers : list string),
        products.fieldnames file = Some headers ->
        lacks_required_column headers ->
        products.status (products.upload_job (products.import_csv file imp).1)
        = products.failed).
Proof.
  intros H.
  specialize (H blank_header_file
                (products.init products.new_job true []) [] eq_refl).
  assert (Hl : lacks_required_column []).
  { left. unfold lowered. simpl. apply not_elem_of_nil. }
  specialize (H Hl). vm_compute in H. discriminate.
Qed.

(** C5 (amended). When the header row has at least one field and lacks
    [sku] or [name], compared in lower case and trimmed, the job fails:
    its status becomes [failed], the message naming the missing column
    is appended to the error list with row number 0, and the exception
    reaches the caller; no record is read and the product table is
    left as it was. *)
Theorem missing_column_fails_job :
  forall (file : products.CsvFile) (imp : products.CSVImporter)
         (h : string) (headers : list string),
    products.fieldnames file = Some (h :: headers) ->
    lacks_required_column (h :: headers) ->
    exists msg,
      (msg = "Missing required column: name"
       \/ msg = "Missing required column: sku")
      /\ fails_with msg imp (products.import_csv file imp)
      /\ products.table (products.import_csv file imp).1 = products.table imp
      /\ products.stats (products.import_csv file imp).1 = products.stats imp.
Proof.
  intros file imp h headers Hf Hl.
  unfold products.import_csv. rewrite Hf.
  destruct (validate_headers_missing _ Hl) as [-> | ->].
  - exists "Missing required column: name". split; [now left|].
    repeat split.
  - exists "Missing required column: sku". split; [now right|].
    repeat split.
Qed.

Lemma missing_column_fails_job_witness :
  exists msg,
    (msg = "Missing required column: name"
     \/ msg = "Missing required column: sku")
    /\ fails_with msg (products.init products.new_job true [])
         (products.import_csv
            {| products.fieldnames := Some ["SKU"; "title"];
               products.records := [record "A1" "Widget"] |}
            (products.init products.new_job true []))
    /\ products.table
         (products.import_csv
            {| products.fieldnames := Some ["SKU"; "title"];
               products.records := [record "A1" "Widget"] |}
            (products.init products.new_job true [])).1
       = products.table (products.init products.new_job true [])
    /\ products.stats
         (products.import_csv
            {| products.fieldnames := Some ["SKU"; "title"];
               products.records := [record "A1" "Widget"] |}
            (products.init products.new_job true [])).1
       = products.stats (products.init products.new_job true []).
Proof.
  apply (missing_column_fails_job
           {| products.fieldnames := Some ["SKU"; "title"];
              products.records := [record "A1" "Widget"] |}
           (products.init products.new_job true []) "SKU" ["title"]).
  - reflexivity.
  - right. unfold lowered. vm_compute. 
    intros H. repeat (apply elem_of_cons in H as [H|H]; [discriminate|]).
    now apply elem_of_nil in H.
Defined.


(** ** The import at particular files *)


(** C3 (the code where it departs from the claim). Conflicts are not
    ignored and the table holds [x]; the chunk updates [x] and creates
    [Y] and [y].  The insertion fails on [y], the chunk is rolled back
    and only the creations are tried again one by one: [Y] is created,
    [y] is an error, and the row [x] is counted nowhere.  The job
    completes with 3 rows processed, but
    created + updated + duplicate skips is 1 and
    processed - errors is 2. *)
Theorem fallback_loses_update_row :
  let result :=
    import false (csv [record "x" "new"; record "Y" "a"; record "y" "b"])
      [stored "x" "old"] in
  let j := products.upload_job result.1 in
  products.status j = products.completed
  /\ products.processed_rows j = 3 /\ products.total_rows j = 3
  /\ products.created_count j = 1 /\ products.updated_count j = 0
  /\ products.skipped_count j = 1 /\ products.error_count j = 1
  /\ products.created_count j + products.updated_count j
     + (products.skipped_count j - products.error_count j)
     <> products.processed_rows j - products.error_count j
  /\ products.table result.1 = [stored "x" "old"; stored "Y" "a"].
Proof.
  vm_compute. repeat split; discriminate.
Qed.

(** C4 (the code where it departs from the claim). The only record of
    the file has a blank SKU.  It is rejected, counted as an error and
    as skipped, and the job completes; but the entry of the error list
    carries the row number 2, the number of rows read so far plus the
    position in the chunk, where the record is row 1 of the file. *)
Theorem blank_sku_row_number :
  let result := import true (csv [record "   " "Widget"]) [] in
  let j := products.upload_job result.1 in
  products.status j = products.completed
  /\ products.error_count j = 1 /\ products.skipped_count j = 1
  /\ error_entries j
     = [ {| products.row := 2;
            products.error := "SKU is required and cannot be empty" |} ].
Proof.
  vm_compute. repeat split.
Qed.

(** C6 (the code where it departs from the claim). The SKU of the only
    record has 256 characters; its truncation to 255 ends in a space,
    which is kept in [sku] but not in [sku_lower].  The first import
    creates the product.  The second looks the row up under the key
    with the space, does not find it, tries to create it again and
    drops it as a duplicate: no creation, but no update either, for
    one valid row. *)
Theorem truncated_sku_not_updated :
  let file := csv [record sku_256 "Widget"] in
  let first := import true file [] in
  let second := reimport true file [] in
  (exists n, products.normalize_row (record sku_256 "Widget") = inr n)
  /\ products.created_count (products.upload_job first.1) = 1
  /\ products.created_count (products.upload_job second.1) = 0
  /\ products.updated_count (products.upload_job second.1) = 0
  /\ products.skipped_count (products.upload_job second.1) = 1
  /\ products.error_count (products.upload_job second.1) = 0.
Proof.
  split; [eexists; vm_compute; reflexivity|].
  vm_compute. repeat split.
Qed.

(** ** What the phases of a chunk leave alone *)

Lemma normalize_rows_frame (rows : list products.Row) :
  forall (idx : Z) (imp : products.CSVImporter),
    let imp' := (products.normalize_rows idx rows imp).2 in
    products.table imp' = products.table imp
    /\ products.skip_duplicates imp' = products.skip_duplicates imp
    /\ products.cache imp' = products.cache imp
    /\ products.processed (products.stats imp')
       = products.processed (products.stats imp)
    /\ products.total (products.stats imp')
       = products.total (products.stats imp)
    /\ products.created (products.stats imp')
       = products.created (products.stats imp)
    /\ products.updated (products.stats imp')
       = products.updated (products.stats imp).
Proof.
  induction rows as [|r rows IH]; intros idx imp; simpl; [tauto|].
  destruct (products.normalize_row r) as [e|n].
  - specialize (IH (idx + 1)
      (products.set_job
         (products.add_error
            (products.processed (products.stats (products.count_rejected imp))
             + idx + 1) (products.exn_str e)
            (products.upload_job (products.count_rejected imp)))
         (products.count_rejected imp))).
    simpl in IH. exact IH.
  - specialize (IH (idx + 1) imp).
    destruct (products.normalize_rows (idx + 1) rows imp) as [ns imp1].
    exact IH.
Qed.

Lemma collect_skus_frame (ns : list (gmap string string)) :
  forall (imp : products.CSVImporter),
    let imp' := (products.collect_skus ns imp).2 in
    products.table imp' = products.table imp
    /\ products.skip_duplicates imp' = products.skip_duplicates imp
    /\ products.cache imp' = products.cache imp
    /\ products.upload_job imp' = products.upload_job imp
    /\ products.processed (products.stats imp')
       = products.processed (products.stats imp)
    /\ products.total (products.stats imp')
       = products.total (products.stats imp)
    /\ products.created (products.stats imp')
       = products.created (products.stats imp)
    /\ products.updated (products.stats imp')
       = products.updated (products.stats imp).
Proof.
  induction ns as [|n ns IH]; intros imp; simpl; [tauto|].
  destruct (str.truthy (str.strip (products.get "sku" "" n))).
  - specialize (IH imp).
    destruct (products.collect_skus ns imp) as [[ks vs] imp1]. exact IH.
  - specialize (IH (products.count_rejected imp)). simpl in IH. exact IH.
Qed.

(** The atomic block that raises has changed neither the job nor any
    counter but [skipped]. *)
Lemma bulk_operations_raise_frame
    (to_create : list products.Product) (to_update : list (nat * products.Product))
    (imp imp' : products.CSVImporter) (e : products.Exn) :
  products.bulk_operations to_create to_update imp = (imp', inl e) ->
  products.upload_job imp' = products.upload_job imp
  /\ products.skip_duplicates imp' = products.skip_duplicates imp
  /\ products.processed (products.stats imp')
     = products.processed (products.stats imp)
  /\ products.created (products.stats imp')
     = products.created (products.stats imp)
  /\ products.updated (products.stats imp')
     = products.updated (products.stats imp)
  /\ e = products.unique_violation.
Proof.
  unfold products.bulk_operations. intros H.
  destruct to_create as [|p ps].
  - destruct to_update as [|o os]; [discriminate|].
    destruct (products.bulk_update _ _) eqn:Eu; [|discriminate].
    injection H as <- <-. repeat split.
    revert Eu. generalize (products.table imp). generalize (o :: os).
    induction l as [|[pk q] l IH]; intros t Eu; simpl in Eu; [discriminate|].
    destruct (t !! pk) as [old|]; [|now apply IH in Eu].
    case_bool_decide; [now injection Eu as <-|now apply IH in Eu].
  - destruct (products.bulk_create _ _ _) as [e1|t1] eqn:Ec.
    + injection H as <- <-. repeat split.
      revert Ec. generalize (products.table imp). generalize (p :: ps).
      induction l as [|q l IH]; intros t Ec; simpl in Ec; [discriminate|].
      case_bool_decide; [|now apply IH in Ec].
      destruct (products.skip_duplicates imp); [now apply IH in Ec|].
      now injection Ec as <-.
    + destruct to_update as [|o os]; [discriminate|].
      match type of H with
      | context [products.bulk_update ?t ?l] =>
          destruct (products.bulk_update t l) eqn:Eu; [|discriminate]
      end.
      injection H as <- <-.
      assert (He : e0 = products.unique_violation).
      { revert Eu. match goal with
                   | |- products.bulk_update ?t _ = _ -> _ => generalize t
                   end.
        generalize (o :: os).
        induction l as [|[pk q] l IH]; intros t Eu; simpl in Eu; [discriminate|].
        destruct (t !! pk) as [old|]; [|now apply IH in Eu].
        case_bool_decide; [now injection Eu as <-|now apply IH in Eu]. }
      destruct (_ >? 0); repeat split; exact He.
Qed.

(** The fallback only appends: rows to the table, one entry to the
    error list for each instance it could not save; it counts no
    update. *)
Lemma save_individually_spec (to_create : list products.Product) :
  forall (imp : products.CSVImporter),
    let imp' := products.save_individually to_create imp in
    products.table imp `prefix_of` products.table imp'
    /\ products.updated (products.stats imp')
       = products.updated (products.stats imp)
    /\ products.processed (products.stats imp')
       = products.processed (products.stats imp)
    /\ exists failed_ones,
         failed_ones `sublist_of` to_create
         /\ error_entries (products.upload_job imp')
            = error_entries (products.upload_job imp)
              ++ (fallback_entry (products.processed (products.stats imp))
                  <$> failed_ones).
Proof.
  induction to_create as [|p ps IH]; intros imp; simpl.
  - repeat split; [reflexivity|]. exists []. split; [constructor|].
    simpl. now rewrite app_nil_r.
  - unfold products.save. case_bool_decide as Hin.
    + match goal with
      | |- context [products.save_individually ps ?i] => specialize (IH i)
      end.
      simpl in IH. destruct IH as (Hp & Hu & Hpr & fs & Hfs & He).
      repeat split; [exact Hp | exact Hu | exact Hpr |].
      exists (p :: fs). split; [now constructor|].
      etrans; [exact He|]. unfold error_entries. simpl.
      rewrite <- app_assoc. reflexivity.
    + match goal with
      | |- context [products.save_individually ps ?i] => specialize (IH i)
      end.
      simpl in IH. destruct IH as (Hp & Hu & Hpr & fs & Hfs & He).
      repeat split; [| exact Hu | exact Hpr |].
      * etrans; [|exact Hp]. now apply prefix_app_r.
      * exists fs. split; [now constructor|]. exact He.
Qed.

(** ** The chunk whose atomic block raises *)

Lemma chunk_plan_frame (rows : list products.Row)
    (imp imp2 : products.CSVImporter) (to_create : list products.Product)
    (to_update : list (nat * products.Product)) :
  chunk_plan rows imp = Some (imp2, to_create, to_update) ->
  products.table imp2 = products.table imp
  /\ products.skip_duplicates imp2 = products.skip_duplicates imp
  /\ products.processed (products.stats imp2)
     = products.processed (products.stats imp)
  /\ products.created (products.stats imp2)
     = products.created (products.stats imp)
  /\ products.updated (products.stats imp2)
     = products.updated (products.stats imp).
Proof.
  unfold chunk_plan. destruct rows as [|r rows]; [discriminate|].
  pose proof (normalize_rows_frame (r :: rows) 0 imp) as Hn.
  destruct (products.normalize_rows 0 (r :: rows) imp) as [ns imp1].
  destruct ns as [|n ns]; [discriminate|].
  pose proof (collect_skus_frame (n :: ns) imp1) as Hc.
  destruct (products.collect_skus (n :: ns) imp1) as [[ks vs] imp2'].
  destruct vs as [|v vs]; [discriminate|].
  destruct (products.partition_rows _ _) as [[E C] U].
  intros [= <- <- <-]. simpl in Hn, Hc.
  destruct Hn as (Hn1 & Hn2 & _ & Hn3 & _ & Hn4 & Hn5).
  destruct Hc as (Hc1 & Hc2 & _ & _ & Hc3 & _ & Hc4 & Hc5).
  repeat split; congruence.
Qed.

Lemma process_chunk_raise (rows : list products.Row)
    (imp imp2 imp3 : products.CSVImporter) (to_create : list products.Product)
    (to_update : list (nat * products.Product)) (e : products.Exn) :
  chunk_plan rows imp = Some (imp2, to_create, to_update) ->
  products.bulk_operations to_create to_update imp2 = (imp3, inl e) ->
  products.process_chunk rows imp
  = products.save_individually to_create
      (products.set_table (products.table imp2) imp3).
Proof.
  unfold chunk_plan, products.process_chunk.
  destruct rows as [|r rows]; [discriminate|].
  destruct (products.normalize_rows 0 (r :: rows) imp) as [ns imp1].
  destruct ns as [|n ns]; [discriminate|].
  destruct (products.collect_skus (n :: ns) imp1) as [[ks vs] imp2'].
  destruct vs as [|v vs]; [discriminate|].
  destruct (products.partition_rows _ _) as [[E C] U].
  intros [= <- <- <-] Hb. now rewrite Hb.
Qed.

(** The fallback in full: every instance to create is tried once, in
    order; the ones saved are appended to the table and counted as
    created, the other ones are counted as errors and recorded. *)
Lemma save_individually_retries (to_create : list products.Product) :
  forall (imp : products.CSVImporter),
    let imp' := products.save_individually to_create imp in
    exists saved not_saved,
      to_create ≡ₚ saved ++ not_saved
      /\ saved `sublist_of` to_create
      /\ not_saved `sublist_of` to_create
      /\ products.table imp' = products.table imp ++ (as_saved <$> saved)
      /\ NoDup (keys (as_saved <$> saved))
      /\ (forall p, p ∈ saved ->
            products.sku_lower (as_saved p) ∉ keys (products.table imp))
      /\ (forall p, p ∈ to_create ->
            products.sku_lower (as_saved p) ∈ keys (products.table imp'))
      /\ (forall k,
            rows_of_sku k (as_saved <$> saved)
            = if decide (k ∈ keys (products.table imp)) then []
              else option_list
                     (head (rows_of_sku k (as_saved <$> to_create))))
      /\ products.created (products.stats imp')
         = products.created (products.stats imp) + Z.of_nat (length saved)
      /\ products.updated (products.stats imp')
         = products.updated (products.stats imp)
      /\ products.errors (products.stats imp')
         = products.errors (products.stats imp)
           + Z.of_nat (length not_saved)
      /\ products.skipped (products.stats imp')
         = products.skipped (products.stats imp)
           + Z.of_nat (length not_saved)
      /\ error_entries (products.upload_job imp')
         = error_entries (products.upload_job imp)
           ++ (fallback_entry (products.processed (products.stats imp))
               <$> not_saved).
Proof.
  induction to_create as [|p ps IH]; intros imp; cbn [products.save_individually].
  - exists [], []. cbn [fmap list_fmap length app].
    rewrite !app_nil_r.
    split_ands; try reflexivity; try lia; try constructor;
      try (intros p Hp; now apply elem_of_nil in Hp).
    intros k. now case_decide.
  - unfold products.save. fold (as_saved p).
    change (products.sku_lower <$> products.table imp)
      with (keys (products.table imp)).
    case_bool_decide as Hin.
    + match goal with
      | |- context [products.save_individually ps ?i] =>
          specialize (IH i); set (imp1 := i) in *
      end.
      cbv zeta in IH.
      destruct IH as (sv & ns & Hperm & Hsv & Hns & Ht & Hnd & Hnew & Hall
                      & Hfst & Hc & Hu & He & Hs & Hent).
      assert (Ht1 : products.table imp1 = products.table imp) by reflexivity.
      exists sv, (p :: ns). rewrite Ht1 in *. split_ands.
      * rewrite Hperm. apply Permutation_middle.
      * now apply sublist_cons.
      * now apply sublist_skip.
      * exact Ht.
      * exact Hnd.
      * exact Hnew.
      * intros q Hq. apply elem_of_cons in Hq as [->|Hq]; [|now apply Hall].
        rewrite Ht. unfold keys. rewrite fmap_app. apply elem_of_app.
        now left.
      * intros k. rewrite (Hfst k). case_decide as Hk; [reflexivity|].
        cbn [fmap list_fmap]. unfold rows_of_sku.
        rewrite filter_cons_False; [reflexivity|].
        intros Hx. apply Hk. now rewrite <- Hx.
      * rewrite Hc. reflexivity.
      * rewrite Hu. reflexivity.
      * rewrite He. subst imp1. importer_fields. cbn [length]. lia.
      * rewrite Hs. subst imp1. importer_fields. cbn [length]. lia.
      * rewrite Hent. subst imp1. unfold error_entries.
        cbn [products.upload_job products.set_job products.add_error
             products.error_details from_option id fmap list_fmap].
        importer_fields.
        rewrite <- app_assoc. reflexivity.
    + match goal with
      | |- context [products.save_individually ps ?i] =>
          specialize (IH i); set (imp1 := i) in *
      end.
      cbv zeta in IH.
      destruct IH as (sv & ns & Hperm & Hsv & Hns & Ht & Hnd & Hnew & Hall
                      & Hfst & Hc & Hu & He & Hs & Hent).
      assert (Ht1 : products.table imp1 = products.table imp ++ [as_saved p])
        by reflexivity.
      exists (p :: sv), ns. rewrite Ht1 in *.
      assert (Hk1 : forall q, q ∈ sv ->
                (products.sku_lower (as_saved q) ∉ keys (products.table imp))
                /\ products.sku_lower (as_saved q)
                   <> products.sku_lower (as_saved p)).
      { intros q Hq. specialize (Hnew q Hq). unfold keys in Hnew.
        rewrite fmap_app in Hnew. cbn [fmap list_fmap] in Hnew.
        split.
        - intros Hx. apply Hnew, elem_of_app. now left.
        - intros Hx. apply Hnew, elem_of_app. right. rewrite Hx. now left. }
      split_ands.
      * cbn [app]. now rewrite Hperm.
      * now apply sublist_skip.
      * now apply sublist_cons.
      * rewrite Ht. cbn [fmap list_fmap]. now rewrite <- app_assoc.
      * cbn [fmap list_fmap]. unfold keys in *. cbn [fmap list_fmap].
        apply NoDup_cons. split; [|exact Hnd].
        intros Hx. apply list_elem_of_fmap in Hx as (q' & Hq' & Hin').
        apply list_elem_of_fmap in Hin' as (q & -> & Hq).
        destruct (Hk1 q Hq) as [_ Hne]. now apply Hne.
      * intros q Hq. apply elem_of_cons in Hq as [->|Hq]; [exact Hin|].
        apply (Hk1 q Hq).
      * intros q Hq. apply elem_of_cons in Hq as [->|Hq]; [|now apply Hall].
        rewrite Ht. unfold keys. rewrite !fmap_app. cbn [fmap list_fmap].
        apply elem_of_app. left. apply elem_of_app. right. now left.
      * intros k. specialize (Hfst k). unfold rows_of_sku in Hfst |- *.
        cbn [fmap list_fmap].
        destruct (decide (products.sku_lower (as_saved p) = k)) as [Hk|Hk].
        -- rewrite !filter_cons_True by exact Hk.
           rewrite Hfst. rewrite decide_True.
           ++ rewrite decide_False by (rewrite <- Hk; exact Hin). reflexivity.
           ++ unfold keys. rewrite fmap_app. apply elem_of_app. right.
              cbn [fmap list_fmap]. rewrite Hk. now left.
        -- rewrite !filter_cons_False by exact Hk.
           rewrite Hfst.
           destruct (decide (k ∈ keys (products.table imp))) as [Hkt|Hkt].
           ++ rewrite decide_True; [reflexivity|].
              unfold keys. rewrite fmap_app. apply elem_of_app. now left.
           ++ rewrite decide_False; [reflexivity|].
              unfold keys. rewrite fmap_app. intros Hx.
              apply elem_of_app in Hx as [Hx|Hx]; [now apply Hkt|].
              cbn [fmap list_fmap] in Hx.
              apply list_elem_of_singleton in Hx. now apply Hk.
      * rewrite Hc. subst imp1. importer_fields. cbn [length]. lia.
      * rewrite Hu. reflexivity.
      * rewrite He. reflexivity.
      * rewrite Hs. reflexivity.
      * rewrite Hent. reflexivity.
Qed.

(** The atomic block leaves the count of errors alone, whatever its
    outcome. *)
Lemma bulk_operations_errors
    (to_create : list products.Product)
    (to_update : list (nat * products.Product))
    (imp imp' : products.CSVImporter) (r : products.Exn + Z * Z) :
  products.bulk_operations to_create to_update imp = (imp', r) ->
  products.errors (products.stats imp') = products.errors (products.stats imp).
Proof.
  unfold products.bulk_operations. intros H.
  destruct to_create as [|p ps].
  - destruct to_update as [|o os]; [now injection H as <- _|].
    destruct (products.bulk_update _ _); now injection H as <- _.
  - destruct (products.bulk_create _ _ _) as [e1|t1];
      [now injection H as <- _|].
    destruct (_ >? 0); destruct to_update as [|o os];
      try (now injection H as <- _);
      match type of H with
      | context [products.bulk_update ?t ?l] =>
          destruct (products.bulk_update t l)
      end; now injection H as <- _.
Qed.

(** C10. When the atomic block of a chunk raises, the table is taken
    back to what it was before the chunk and only the instances to
    create are tried again, one by one and in order.  Each of them is
    either saved, that is appended to the table and counted as
    created, or not saved, that is counted as an error and recorded
    in the error list; the ones saved are the first of each key that
    the table did not hold, so that afterwards the key of every
    instance to create is in the table.  No row that was in the
    table is changed, so no update of the chunk is applied;
    [updated] is what it was before the chunk, and so is the
    [updated_count] that [update_progress] then gives the job; and
    the entries added to the error list after the atomic block are
    the entries of the instances to create that were not saved, none
    for an instance to update. *)
Theorem failed_chunk_drops_updates :
  forall (rows : list products.Row) (imp imp2 imp3 : products.CSVImporter)
         (to_create : list products.Product)
         (to_update : list (nat * products.Product)) (e : products.Exn),
    chunk_plan rows imp = Some (imp2, to_create, to_update) ->
    products.bulk_operations to_create to_update imp2 = (imp3, inl e) ->
    let imp' := products.process_chunk rows imp in
    exists saved not_saved,
      to_create ≡ₚ saved ++ not_saved
      /\ saved `sublist_of` to_create
      /\ not_saved `sublist_of` to_create
      /\ products.table imp' = products.table imp ++ (as_saved <$> saved)
      /\ NoDup (keys (as_saved <$> saved))
      /\ (forall p, p ∈ saved ->
            products.sku_lower (as_saved p) ∉ keys (products.table imp))
      /\ (forall p, p ∈ to_create ->
            products.sku_lower (as_saved p) ∈ keys (products.table imp'))
      /\ (forall k,
            rows_of_sku k (as_saved <$> saved)
            = if decide (k ∈ keys (products.table imp)) then []
              else option_list
                     (head (rows_of_sku k (as_saved <$> to_create))))
      /\ products.created (products.stats imp')
         = products.created (products.stats imp) + Z.of_nat (length saved)
      /\ products.updated (products.stats imp')
         = products.updated (products.stats imp)
      /\ products.updated_count
           (products.upload_job (products.update_progress imp'))
         = products.updated (products.stats imp)
      /\ products.errors (products.stats imp')
         = products.errors (products.stats imp2)
           + Z.of_nat (length not_saved)
      /\ error_entries (products.upload_job imp')
         = error_entries (products.upload_job imp2)
           ++ (fallback_entry (products.processed (products.stats imp))
               <$> not_saved).
Proof.
  intros rows imp imp2 imp3 C objs e Hplan Hbulk imp'.
  destruct (chunk_plan_frame _ _ _ _ _ Hplan) as (Ht & _ & Hp & Hc & Hu).
  destruct (bulk_operations_raise_frame _ _ _ _ _ Hbulk)
    as (Hj & _ & Hp3 & Hc3 & Hu3 & _).
  pose proof (bulk_operations_errors _ _ _ _ _ Hbulk) as He3.
  assert (Himp' : imp' = products.save_individually C
                           (products.set_table (products.table imp) imp3)).
  { subst imp'. rewrite (process_chunk_raise _ _ _ _ _ _ _ Hplan Hbulk).
    now rewrite Ht. }
  destruct (save_individually_retries C
              (products.set_table (products.table imp) imp3))
    as (sv & ns & Hperm & Hsv & Hns & Htab & Hnd & Hnew & Hall & Hfst
        & Hcr & Hup & Her & _ & Hent).
  rewrite <- Himp' in Htab, Hall, Hcr, Hup, Her, Hent.
  importer_fields.
  exists sv, ns. split_ands; try assumption; try congruence.
  change (products.updated (products.stats imp')
          = products.updated (products.stats imp)).
  congruence.
Qed.

Lemma failed_chunk_drops_updates_witness :
  let rows := [record "x" "new"; record "Y" "a"; record "y" "b"] in
  let imp :=
    products.set_stats (products.add_processed 3 products.no_stats)
      (products.init products.new_job false [stored "x" "old"]) in
  let imp' := products.process_chunk rows imp in
  exists imp2 imp3 to_create to_update e,
    chunk_plan rows imp = Some (imp2, to_create, to_update)
    /\ products.bulk_operations to_create to_update imp2 = (imp3, inl e)
    /\ to_create = [stored "Y" "a"; stored "y" "b"]
    /\ to_update = [(0%nat, stored "x" "new")]
    /\ products.table imp' = [stored "x" "old"; stored "Y" "a"]
    /\ exists saved not_saved,
         to_create ≡ₚ saved ++ not_saved
         /\ saved `sublist_of` to_create
         /\ not_saved `sublist_of` to_create
         /\ products.table imp' = products.table imp ++ (as_saved <$> saved)
         /\ NoDup (keys (as_saved <$> saved))
         /\ (forall p, p ∈ saved ->
               products.sku_lower (as_saved p) ∉ keys (products.table imp))
         /\ (forall p, p ∈ to_create ->
               products.sku_lower (as_saved p) ∈ keys (products.table imp'))
         /\ (forall k,
               rows_of_sku k (as_saved <$> saved)
               = if decide (k ∈ keys (products.table imp)) then []
                 else option_list
                        (head (rows_of_sku k (as_saved <$> to_create))))
         /\ products.created (products.stats imp')
            = products.created (products.stats imp) + Z.of_nat (length saved)
         /\ products.updated (products.stats imp')
            = products.updated (products.stats imp)
         /\ products.updated_count
              (products.upload_job (products.update_progress imp'))
            = products.updated (products.stats imp)
         /\ products.errors (products.stats imp')
            = products.errors (products.stats imp2)
              + Z.of_nat (length not_saved)
         /\ error_entries (products.upload_job imp')
            = error_entries (products.upload_job imp2)
              ++ (fallback_entry (products.processed (products.stats imp))
                  <$> not_saved).
Proof.
  intros rows imp imp'.
  eexists _, _, _, _, _.
  split; [vm_compute; reflexivity|].
  split; [vm_compute; reflexivity|].
  split; [reflexivity|].
  split; [reflexivity|].
  split; [vm_compute; reflexivity|].
  apply (failed_chunk_drops_updates rows imp _ _ _ _ _
           ltac:(vm_compute; reflexivity)
           ltac:(vm_compute; reflexivity)).
Defined.

(** ** The first two loops of a chunk *)

Lemma normalize_rows_fst (rows : list products.Row) :
  forall (idx : Z) (imp : products.CSVImporter),
    (products.normalize_rows idx rows imp).1 = normalized_of rows.
Proof.
  induction rows as [|r rows IH]; intros idx imp; simpl; [reflexivity|].
  destruct (products.normalize_row r) as [e|n].
  - apply IH.
  - specialize (IH (idx + 1) imp).
    destruct (products.normalize_rows (idx + 1) rows imp) as [ns imp1].
    simpl in *. now rewrite IH.
Qed.

(** Each row is normalized or counted as skipped and as an error. *)
Lemma normalize_rows_counts (rows : list products.Row) :
  forall (idx : Z) (imp : products.CSVImporter),
    let imp' := (products.normalize_rows idx rows imp).2 in
    products.skipped (products.stats imp')
    + Z.of_nat (length (normalized_of rows))
    = products.skipped (products.stats imp) + Z.of_nat (length rows)
    /\ products.errors (products.stats imp')
       + Z.of_nat (length (normalized_of rows))
       = products.errors (products.stats imp) + Z.of_nat (length rows)
    /\ products.status (products.upload_job imp')
       = products.status (products.upload_job imp)
    /\ products.total_rows (products.upload_job imp')
       = products.total_rows (products.upload_job imp).
Proof.
  induction rows as [|r rows IH]; intros idx imp.
  - simpl. repeat split; lia.
  - cbn [products.normalize_rows normalized_of omap list_omap].
    fold (normalized_of rows).
    destruct (products.normalize_row r) as [e|n].
    + match goal with
      | |- context [products.normalize_rows (idx + 1) rows ?i] =>
          specialize (IH (idx + 1) i)
      end.
      cbv zeta in IH. destruct IH as (H1 & H2 & H3 & H4).
      simpl in H1, H2, H3, H4. simpl.
      repeat split; [lia | lia | exact H3 | exact H4].
    + specialize (IH (idx + 1) imp). cbv zeta in IH.
      destruct (products.normalize_rows (idx + 1) rows imp) as [ns imp1].
      simpl in *. destruct IH as (H1 & H2 & H3 & H4).
      repeat split; [lia | lia | exact H3 | exact H4].
Qed.

Lemma collect_skus_fst (ns : list (gmap string string)) :
  forall (imp : products.CSVImporter),
    (products.collect_skus ns imp).1
    = ((fun n => str.lower (str.strip (products.get "sku" "" n)))
         <$> filter is_valid ns,
       filter is_valid ns).
Proof.
  induction ns as [|n ns IH]; intros imp; simpl; [reflexivity|].
  destruct (str.truthy (str.strip (products.get "sku" "" n))) eqn:Ev.
  - specialize (IH imp).
    destruct (products.collect_skus ns imp) as [[ks vs] imp1].
    simpl in IH. injection IH as -> ->.
    rewrite filter_cons_True by exact Ev. reflexivity.
  - rewrite filter_cons_False; [apply IH|].
    unfold is_valid. rewrite Ev. discriminate.
Qed.

Lemma collect_skus_counts (ns : list (gmap string string)) :
  forall (imp : products.CSVImporter),
    let imp' := (products.collect_skus ns imp).2 in
    products.skipped (products.stats imp')
    + Z.of_nat (length (filter is_valid ns))
    = products.skipped (products.stats imp) + Z.of_nat (length ns)
    /\ products.errors (products.stats imp')
       + Z.of_nat (length (filter is_valid ns))
       = products.errors (products.stats imp) + Z.of_nat (length ns).
Proof.
  induction ns as [|n ns IH]; intros imp.
  - simpl. split; lia.
  - simpl. destruct (str.truthy (str.strip (products.get "sku" "" n))) eqn:Ev.
    + rewrite filter_cons_True by exact Ev.
      specialize (IH imp). cbv zeta in IH.
      destruct (products.collect_skus ns imp) as [[ks vs] imp1].
      simpl in *. lia.
    + rewrite filter_cons_False by (unfold is_valid; rewrite Ev; discriminate).
      specialize (IH (products.count_rejected imp)). cbv zeta in IH.
      simpl in IH. lia.
Qed.

Lemma valid_rows_of_app (l1 l2 : list products.Row) :
  valid_rows_of (l1 ++ l2) = valid_rows_of l1 ++ valid_rows_of l2.
Proof.
  unfold valid_rows_of, normalized_of. now rewrite omap_app, filter_app.
Qed.

(** ** The dictionary of existing products *)

Lemma in_bulk_from_sound (rows : list products.Product) (ks : list string) :
  forall (pk : nat) (acc : gmap string (nat * products.Product))
         (k : string) (i : nat) (p : products.Product),
    products.in_bulk_from pk rows ks acc !! k = Some (i, p) ->
    acc !! k = Some (i, p)
    \/ exists j, i = (pk + j)%nat /\ rows !! j = Some p
                 /\ products.sku_lower p = k /\ k ∈ ks.
Proof.
  induction rows as [|q rows IH]; intros pk acc k i p H; simpl in H.
  - now left.
  - apply IH in H as [H | (j & -> & Hj & Hk & Hin)].
    + case_bool_decide as Hq; [|now left].
      destruct (decide (products.sku_lower q = k)) as [<-|Hne].
      * rewrite lookup_insert_eq in H. injection H as <- <-.
        right. exists 0%nat. rewrite Nat.add_0_r. auto.
      * rewrite lookup_insert_ne in H by exact Hne. now left.
    + right. exists (S j). split; [lia|]. auto.
Qed.

Lemma in_bulk_sound (t : list products.Product) (ks : list string)
    (k : string) (i : nat) (p : products.Product) :
  products.in_bulk t ks !! k = Some (i, p) ->
  t !! i = Some p /\ products.sku_lower p = k /\ k ∈ ks.
Proof.
  intros H. apply in_bulk_from_sound in H as [H | (j & -> & H)].
  - now rewrite lookup_empty in H.
  - exact H.
Qed.

Lemma in_bulk_from_other (rows : list products.Product) (ks : list string) :
  forall (pk : nat) (acc : gmap string (nat * products.Product)) (k : string),
    k ∉ keys rows ->
    products.in_bulk_from pk rows ks acc !! k = acc !! k.
Proof.
  induction rows as [|q rows IH]; intros pk acc k Hk; simpl; [reflexivity|].
  unfold keys in Hk. rewrite fmap_cons, not_elem_of_cons in Hk.
  destruct Hk as [Hne Hk]. rewrite IH by exact Hk.
  case_bool_decide; [|reflexivity]. now rewrite lookup_insert_ne.
Qed.

Lemma in_bulk_from_complete (rows : list products.Product) (ks : list string) :
  forall (pk : nat) (acc : gmap string (nat * products.Product))
         (j : nat) (p : products.Product),
    unique_skus rows -> rows !! j = Some p -> products.sku_lower p ∈ ks ->
    products.in_bulk_from pk rows ks acc !! products.sku_lower p
    = Some ((pk + j)%nat, p).
Proof.
  induction rows as [|q rows IH]; intros pk acc j p Hu Hj Hin; [discriminate|].
  unfold unique_skus, keys in Hu. rewrite fmap_cons in Hu.
  apply NoDup_cons in Hu as [Hq Hu]. simpl.
  destruct j as [|j]; simpl in Hj.
  - injection Hj as ->. rewrite in_bulk_from_other by exact Hq.
    rewrite bool_decide_eq_true_2 by exact Hin.
    rewrite lookup_insert_eq. now rewrite Nat.add_0_r.
  - rewrite (IH (S pk) _ j p Hu Hj Hin). f_equal. f_equal. lia.
Qed.

Lemma in_bulk_complete (t : list products.Product) (ks : list string)
    (i : nat) (p : products.Product) :
  unique_skus t -> t !! i = Some p -> products.sku_lower p ∈ ks ->
  products.in_bulk t ks !! products.sku_lower p = Some (i, p).
Proof.
  intros Hu Hi Hin. unfold products.in_bulk.
  now rewrite (in_bulk_from_complete t ks 0 ∅ i p Hu Hi Hin).
Qed.

Lemma in_bulk_None (t : list products.Product) (ks : list string) (k : string) :
  k ∉ keys t \/ k ∉ ks -> products.in_bulk t ks !! k = None.
Proof.
  intros H. destruct (products.in_bulk t ks !! k) as [[i p]|] eqn:E;
    [|reflexivity].
  apply in_bulk_sound in E as (Hi & Hk & Hin). exfalso.
  destruct H as [H|H]; [|now apply H].
  apply H. unfold keys. rewrite <- Hk.
  apply list_elem_of_fmap_2. eapply list_elem_of_lookup_2, Hi.
Qed.

(** ** The sorting into updates and creations *)

Lemma item_get (k : string) (n : gmap string string) :
  products.item k n = products.get k "" n.
Proof.
  unfold products.item, products.get, lookup_total, map_lookup_total.
  destruct (n !! k); reflexivity.
Qed.

Lemma partition_rows_cons (n : gmap string string)
    (vs : list (gmap string string)) (E : gmap string (nat * products.Product)) :
  products.partition_rows (n :: vs) E
  = match E !! lookup_key n with
    | Some (pk, product) =>
        let '(E', C, U) :=
          products.partition_rows vs
            (<[lookup_key n :=
                 (pk, product_of n (products.is_active product))]> E) in
        (E', C, lookup_key n :: U)
    | None =>
        let '(E', C, U) := products.partition_rows vs E in
        (E', product_of n true :: C, U)
    end.
Proof. reflexivity. Qed.

(** The references to update are the lookup keys found in the
    dictionary, the instances to create come from the rows whose key is
    not found, both in the order of the rows; and an object of the
    dictionary ends with the fields of the last row looked up under
    its key. *)
Lemma partition_rows_spec (vs : list (gmap string string)) :
  forall (E : gmap string (nat * products.Product)),
    let '(E', C, U) := products.partition_rows vs E in
    C = (fun n => product_of n true)
          <$> filter (fun n => E !! lookup_key n = None) vs
    /\ U = lookup_key <$> filter (fun n => is_Some (E !! lookup_key n)) vs
    /\ forall k,
         E' !! k
         = match E !! k with
           | None => None
           | Some (i, p) =>
               Some (i, match last (filter (fun n => lookup_key n = k) vs) with
                        | Some n => product_of n (products.is_active p)
                        | None => p
                        end)
           end.
Proof.
  induction vs as [|n vs IH]; intros E.
  - simpl. repeat split. intros k. destruct (E !! k) as [[i p]|]; reflexivity.
  - rewrite partition_rows_cons.
    destruct (E !! lookup_key n) as [[pk product]|] eqn:En.
    + specialize (IH (<[lookup_key n :=
                         (pk, product_of n (products.is_active product))]> E)).
      destruct (products.partition_rows vs _) as [[E' C] U].
      destruct IH as (HC & HU & HE).
      assert (Hdom : forall m : gmap string string,
                 <[lookup_key n :=
                     (pk, product_of n (products.is_active product))]> E
                 !! lookup_key m = None
                 <-> E !! lookup_key m = None).
      { intros m. destruct (decide (lookup_key n = lookup_key m)) as [Heq|Hne].
        - rewrite <- Heq, lookup_insert_eq, En. split; discriminate.
        - now rewrite lookup_insert_ne. }
      repeat split.
      * rewrite HC. rewrite filter_cons_False by (rewrite En; discriminate).
        f_equal. apply list_filter_iff. exact Hdom.
      * rewrite HU. rewrite filter_cons_True by (rewrite En; eauto).
        rewrite fmap_cons. f_equal. f_equal. apply list_filter_iff.
        intros m. rewrite <- !not_eq_None_Some. now rewrite Hdom.
      * intros k. rewrite HE.
        destruct (decide (lookup_key n = k)) as [<-|Hne].
        -- rewrite lookup_insert_eq, En.
           rewrite filter_cons_True by reflexivity.
           destruct (filter (fun m => lookup_key m = lookup_key n) vs)
             as [|m ms] eqn:Ef; [reflexivity|].
           rewrite last_cons_cons.
           destruct (last (m :: ms)) eqn:El; [reflexivity|].
           now apply last_None in El.
        -- rewrite lookup_insert_ne by exact Hne.
           now rewrite filter_cons_False by exact Hne.
    + specialize (IH E).
      destruct (products.partition_rows vs E) as [[E' C] U].
      destruct IH as (HC & HU & HE).
      repeat split.
      * rewrite HC. now rewrite filter_cons_True by exact En.
      * rewrite HU. rewrite filter_cons_False; [reflexivity|].
        rewrite En. now intros [? ?].
      * intros k. rewrite HE. destruct (E !! k) as [[i p]|] eqn:Ek;
          [|reflexivity].
        rewrite filter_cons_False; [reflexivity|]. congruence.
Qed.

(** ** Rows of a key in a table with unique keys *)

Lemma rows_of_sku_app (k : string) (t1 t2 : list products.Product) :
  rows_of_sku k (t1 ++ t2) = rows_of_sku k t1 ++ rows_of_sku k t2.
Proof. apply filter_app. Qed.

Lemma rows_of_sku_absent (k : string) (t : list products.Product) :
  k ∉ keys t -> rows_of_sku k t = [].
Proof.
  intros Hk. unfold rows_of_sku.
  induction t as [|q t IH]; [reflexivity|].
  unfold keys in Hk. rewrite fmap_cons, not_elem_of_cons in Hk.
  destruct Hk as [Hne Hk].
  rewrite filter_cons_False by congruence. now apply IH.
Qed.

Lemma rows_of_sku_unique (t : list products.Product) (j : nat)
    (q : products.Product) :
  unique_skus t -> t !! j = Some q -> rows_of_sku (products.sku_lower q) t = [q].
Proof.
  revert j. induction t as [|p t IH]; intros j Hu Hj; [discriminate|].
  unfold unique_skus, keys in Hu. rewrite fmap_cons in Hu.
  apply NoDup_cons in Hu as [Hp Hu].
  destruct j as [|j]; simpl in Hj.
  - injection Hj as ->. unfold rows_of_sku.
    rewrite filter_cons_True by reflexivity.
    f_equal. now apply rows_of_sku_absent.
  - unfold rows_of_sku. rewrite filter_cons_False.
    + now apply (IH j).
    + intros Heq. apply Hp. rewrite Heq.
      apply list_elem_of_fmap_2. eapply list_elem_of_lookup_2, Hj.
Qed.

Lemma keys_lookup (k : string) (t : list products.Product) :
  k ∈ keys t ->
  exists j q, t !! j = Some q /\ products.sku_lower q = k.
Proof.
  unfold keys. intros H. apply list_elem_of_fmap in H as (q & -> & Hq).
  apply list_elem_of_lookup in Hq as [j Hj]. eauto.
Qed.

Lemma lookup_keys (t : list products.Product) (j : nat) (q : products.Product) :
  t !! j = Some q -> products.sku_lower q ∈ keys t.
Proof.
  intros Hj. apply list_elem_of_fmap_2. eapply list_elem_of_lookup_2, Hj.
Qed.

Lemma rows_of_sku_nil_absent (k : string) (t : list products.Product) :
  rows_of_sku k t = [] -> k ∉ keys t.
Proof.
  intros H Hk. apply keys_lookup in Hk as (j & q & Hj & Hq).
  assert (Hin : q ∈ rows_of_sku k t).
  { apply list_elem_of_filter. split; [exact Hq|].
    eapply list_elem_of_lookup_2, Hj. }
  rewrite H in Hin. now apply elem_of_nil in Hin.
Qed.

Lemma stored_sku_lookup (t : list products.Product) (j : nat)
    (q : products.Product) :
  unique_skus t -> t !! j = Some q ->
  stored_sku (products.sku_lower q) t = Some (products.sku q).
Proof.
  intros Hu Hj. unfold stored_sku. now rewrite (rows_of_sku_unique t j q).
Qed.

Lemma stored_sku_absent (k : string) (t : list products.Product) :
  k ∉ keys t -> stored_sku k t = None.
Proof.
  intros Hk. unfold stored_sku. now rewrite rows_of_sku_absent.
Qed.

Lemma unique_delete_notin (t : list products.Product) (i : nat)
    (q : products.Product) :
  unique_skus t -> t !! i = Some q ->
  products.sku_lower q ∉ products.sku_lower <$> delete i t.
Proof.
  intros Hu Hi. unfold unique_skus, keys in Hu.
  rewrite <- (take_drop_middle t i q Hi) in Hu.
  rewrite delete_take_drop, fmap_app.
  rewrite fmap_app, fmap_cons in Hu.
  apply NoDup_app in Hu as (_ & Hdis & Hr).
  apply NoDup_cons in Hr as [Hq _].
  intros Hin. apply elem_of_app in Hin as [Hin|Hin]; [|now apply Hq].
  apply (Hdis _ Hin). now left.
Qed.

(** ** [bulk_create] that ignores conflicts *)

Lemma bulk_create_ignore (C : list products.Product) :
  forall (t : list products.Product),
    exists N,
      products.bulk_create t C true = inr (t ++ N)
      /\ (length N <= length C)%nat
      /\ (unique_skus t -> unique_skus (t ++ N))
      /\ forall k,
           rows_of_sku k (t ++ N)
           = rows_of_sku k t
             ++ (if decide (k ∈ keys t) then []
                 else option_list (head (rows_of_sku k C))).
Proof.
  induction C as [|p C IH]; intros t.
  - exists []. rewrite app_nil_r. simpl. repeat split; [lia|auto|].
    intros k. case_decide; now rewrite app_nil_r.
  - simpl. fold (keys t). case_bool_decide as Hp.
    + destruct (IH t) as (N & HN & Hlen & Hu & Hrows).
      exists N. repeat split; [exact HN | simpl; lia | exact Hu |].
      intros k. rewrite Hrows. f_equal. case_decide as Hk; [reflexivity|].
      unfold rows_of_sku at 2. rewrite filter_cons_False; [reflexivity|].
      intros Heq. apply Hk. now rewrite <- Heq.
    + destruct (IH (t ++ [p])) as (N & HN & Hlen & Hu & Hrows).
      exists (p :: N). rewrite <- app_assoc in HN, Hu, Hrows. simpl in *.
      repeat split; [exact HN | lia | |].
      * intros Ht. apply Hu. unfold unique_skus, keys in *.
        rewrite fmap_app. apply NoDup_app. repeat split; [exact Ht | |].
        -- intros x Hx Hx'. simpl in Hx'. apply list_elem_of_singleton in Hx'.
           subst x. now apply Hp.
        -- simpl. apply NoDup_singleton.
      * intros k. rewrite Hrows, rows_of_sku_app, <- app_assoc. f_equal.
        unfold keys. rewrite fmap_app. simpl.
        destruct (decide (products.sku_lower p = k)) as [Heq|Hne].
        -- subst k. unfold rows_of_sku at 1 3.
           rewrite !filter_cons_True by reflexivity.
           rewrite decide_True by (apply elem_of_app; right; now left).
           rewrite decide_False by exact Hp. now rewrite filter_nil.
        -- unfold rows_of_sku at 1 3.
           rewrite !filter_cons_False by exact Hne. rewrite filter_nil. simpl.
           case_decide as H1; case_decide as H2; try reflexivity.
           ++ apply elem_of_app in H1 as [H1|H1]; [contradiction|].
              apply list_elem_of_singleton in H1. congruence.
           ++ exfalso. apply H1, elem_of_app. now left.
Qed.

(** ** [bulk_update] that does not change a key *)

Lemma merge_merge (p p' q : products.Product) :
  merge p' (merge p q) = merge p' q.
Proof. reflexivity. Qed.

Lemma bulk_update_ok (objs : list (nat * products.Product)) :
  forall (t : list products.Product),
    unique_skus t ->
    Forall (fun o => exists q, t !! o.1 = Some q
                               /\ products.sku_lower q
                                  = products.sku_lower o.2) objs ->
    exists t',
      products.bulk_update t objs = inr t'
      /\ keys t' = keys t
      /\ forall j,
           t' !! j
           = match last (filter (fun o => o.1 = j) objs) with
             | Some o => merge o.2 <$> t !! j
             | None => t !! j
             end.
Proof.
  induction objs as [|[i p] objs IH]; intros t Hu Hall.
  - exists t. simpl. auto.
  - apply Forall_cons in Hall as [(q & Hi & Hk) Hall]. simpl in Hi, Hk.
    simpl. rewrite Hi.
    rewrite bool_decide_eq_false_2
      by (rewrite <- Hk; now apply unique_delete_notin).
    fold (merge p q).
    assert (Hkeys : keys (<[i := merge p q]> t) = keys t).
    { unfold keys. rewrite list_fmap_insert. apply list_insert_id.
      rewrite list_lookup_fmap, Hi. simpl. now rewrite Hk. }
    destruct (IH (<[i := merge p q]> t)) as (t' & Ht' & Hk' & Hrow).
    + unfold unique_skus. now rewrite Hkeys.
    + eapply Forall_impl; [exact Hall|]. intros [i' p'] (q' & Hi' & Hq').
      simpl in *. destruct (decide (i = i')) as [<-|Hne].
      * exists (merge p q). rewrite list_lookup_insert_eq
          by (eapply lookup_lt_Some, Hi).
        split; [reflexivity|]. simpl. congruence.
      * exists q'. now rewrite list_lookup_insert_ne.
    + exists t'. split; [exact Ht'|]. split; [congruence|].
      intros j. rewrite Hrow. destruct (decide (i = j)) as [<-|Hne].
      * rewrite filter_cons_True by reflexivity.
        rewrite list_lookup_insert_eq by (eapply lookup_lt_Some, Hi).
        rewrite Hi.
        destruct (filter (fun o => o.1 = i) objs) as [|o os]; [reflexivity|].
        rewrite last_cons_cons.
        destruct (last (o :: os)) eqn:El; [reflexivity|].
        now apply last_None in El.
      * rewrite filter_cons_False by exact Hne.
        now rewrite list_lookup_insert_ne.
Qed.

(** ** The atomic block of a chunk that ignores conflicts *)

Section Upsert.

Variable t : list products.Product.
Hypothesis t_unique : unique_skus t.
Variable vs : list (gmap string string).
Variable E' : gmap string (nat * products.Product).
Variable C : list products.Product.
Variable U : list string.
Hypothesis sorted :
  products.partition_rows vs (products.in_bulk t (skus_lower_of vs))
  = (E', C, U).

Local Abbreviation E0 := (products.in_bulk t (skus_lower_of vs)).

Lemma skus_lower_stripped (k : string) :
  k ∈ skus_lower_of vs -> str.strip k = k.
Proof.
  unfold skus_lower_of. intros H.
  apply list_elem_of_fmap in H as (n & -> & _). apply strip_lower_strip.
Qed.

(** A row whose lookup key is stripped has that key among the
    collected ones. *)
Lemma lookup_key_collected (n : gmap string string) :
  n ∈ vs -> str.strip (lookup_key n) = lookup_key n ->
  lookup_key n ∈ skus_lower_of vs.
Proof.
  intros Hn Hs. unfold skus_lower_of.
  apply list_elem_of_fmap. exists n. split; [|exact Hn].
  rewrite <- item_get, <- strip_lower. symmetry. exact Hs.
Qed.

Lemma found_row (k : string) (i : nat) (p : products.Product) :
  E0 !! k = Some (i, p) ->
  t !! i = Some p /\ products.sku_lower p = k /\ str.strip k = k.
Proof.
  intros H. apply in_bulk_sound in H as (Hi & Hk & Hin).
  repeat split; [exact Hi | exact Hk |]. now apply skus_lower_stripped.
Qed.

Lemma sorted_create :
  C = (fun n => product_of n true)
        <$> filter (fun n => E0 !! lookup_key n = None) vs.
Proof.
  pose proof (partition_rows_spec vs E0) as H. rewrite sorted in H. apply H.
Qed.

Lemma sorted_update :
  U = lookup_key <$> filter (fun n => is_Some (E0 !! lookup_key n)) vs.
Proof.
  pose proof (partition_rows_spec vs E0) as H. rewrite sorted in H. apply H.
Qed.

Lemma sorted_store (k : string) :
  E' !! k
  = match E0 !! k with
    | None => None
    | Some (i, p) =>
        Some (i, match last (filter (fun n => lookup_key n = k) vs) with
                 | Some n => product_of n (products.is_active p)
                 | None => p
                 end)
    end.
Proof.
  pose proof (partition_rows_spec vs E0) as H. rewrite sorted in H. apply H.
Qed.

(** Every row goes to one of the two lists. *)
Lemma sorted_length : (length C + length U = length vs)%nat.
Proof.
  rewrite sorted_create, sorted_update, !length_fmap.
  rewrite <- (length_app (filter _ vs) (filter _ vs)).
  rewrite <- (Permutation_length
                (filter_app_complement
                   (fun n => E0 !! lookup_key n = None) vs)).
  rewrite !length_app. f_equal.
  f_equal. apply list_filter_iff. intros n.
  now rewrite <- not_eq_None_Some.
Qed.

(** The instance behind a reference: it sits on the row that holds
    the key and carries the fields of the last row looked up under
    the key. *)
Lemma reference_found (k : string) :
  k ∈ U ->
  exists i p n,
    E0 !! k = Some (i, p)
    /\ last (filter (fun n => lookup_key n = k) vs) = Some n
    /\ E' !! k = Some (i, product_of n (products.is_active p)).
Proof.
  rewrite sorted_update. intros H.
  apply list_elem_of_fmap in H as (n & -> & Hn).
  apply list_elem_of_filter in Hn as [[[i p] Hf] Hn].
  destruct (last (filter (fun m => lookup_key m = lookup_key n) vs))
    as [m|] eqn:El.
  - exists i, p, m. repeat split; [exact Hf|].
    now rewrite sorted_store, Hf, El.
  - apply last_None in El.
    assert (Hin : n ∈ filter (fun m => lookup_key m = lookup_key n) vs)
      by now apply list_elem_of_filter.
    rewrite El in Hin. now apply elem_of_nil in Hin.
Qed.

Lemma deref_length : length (products.deref E' U) = length U.
Proof.
  unfold products.deref.
  assert (H : forall k, k ∈ U -> is_Some (E' !! k)).
  { intros k Hk. destruct (reference_found k Hk) as (i & p & n & _ & _ & ->).
    eauto. }
  clear sorted. induction U as [|k U' IH]; [reflexivity|].
  simpl. destruct (H k) as [o Ho]; [now left|]. rewrite Ho. simpl.
  f_equal. apply IH. intros k' Hk'. apply H. now right.
Qed.

Lemma deref_elem (o : nat * products.Product) :
  o ∈ products.deref E' U ->
  exists p n,
    t !! o.1 = Some p
    /\ str.strip (products.sku_lower p) = products.sku_lower p
    /\ last (filter (fun n => lookup_key n = products.sku_lower p) vs)
       = Some n
    /\ o.2 = product_of n (products.is_active p).
Proof.
  unfold products.deref. intros H.
  apply list_elem_of_omap in H as (k & Hk & Ho).
  destruct (reference_found k Hk) as (i & p & n & Hf & Hl & He).
  rewrite He in Ho. injection Ho as <-.
  destruct (found_row k i p Hf) as (Hi & Hkp & Hs). subst k.
  exists p, n. simpl. auto.
Qed.

(** The last row looked up under a key. *)
Lemma last_lookup_key (k : string) (n : gmap string string) :
  last (filter (fun n => lookup_key n = k) vs) = Some n ->
  n ∈ vs /\ lookup_key n = k.
Proof.
  intros H. apply last_Some_elem_of in H.
  apply list_elem_of_filter in H. tauto.
Qed.

(** A row stored under a key the table does not hold is not
    found: it goes to the creations. *)
Lemma create_key_not_found (k : string) (n : gmap string string) :
  k ∉ keys t -> create_key n = k -> E0 !! lookup_key n = None.
Proof.
  intros Hk Hn. destruct (E0 !! lookup_key n) as [[i p]|] eqn:Ef;
    [|reflexivity].
  destruct (found_row _ _ _ Ef) as (Hi & Hp & Hs). exfalso. apply Hk.
  rewrite <- Hn. unfold create_key. fold (lookup_key n).
  rewrite Hs, <- Hp. eapply lookup_keys, Hi.
Qed.

Lemma create_rows (k : string) :
  k ∉ keys t ->
  rows_of_sku k C
  = (fun n => product_of n true) <$> filter (fun n => create_key n = k) vs.
Proof.
  intros Hk. rewrite sorted_create.
  assert (Hnf : forall n, create_key n = k -> E0 !! lookup_key n = None)
    by (intros n Hn; now apply (create_key_not_found k)).
  remember E0 as E eqn:HeqE. clear HeqE sorted.
  induction vs as [|n l IH]; [reflexivity|].
  destruct (decide (create_key n = k)) as [Hn|Hn].
  - rewrite (filter_cons_True (fun n => create_key n = k)) by exact Hn.
    rewrite filter_cons_True by now apply Hnf.
    rewrite !fmap_cons. unfold rows_of_sku.
    rewrite filter_cons_True by exact Hn. f_equal. apply IH.
  - rewrite (filter_cons_False (fun n => create_key n = k)) by exact Hn.
    destruct (decide (E !! lookup_key n = None)) as [Hf|Hf].
    + rewrite filter_cons_True by exact Hf. rewrite fmap_cons.
      unfold rows_of_sku. rewrite filter_cons_False by exact Hn. apply IH.
    + rewrite filter_cons_False by exact Hf. apply IH.
Qed.

(** The instances to update sit on rows of the table and leave the
    keys of their rows as they are. *)
Lemma deref_keeps_keys (N : list products.Product) :
  Forall (fun o => exists q, (t ++ N) !! o.1 = Some q
                             /\ products.sku_lower q
                                = products.sku_lower o.2)
         (products.deref E' U).
Proof.
  apply Forall_forall. intros o Ho.
  destruct (deref_elem o Ho) as (p & n & Hi & Hs & Hl & Ho2).
  exists p. split.
  - rewrite lookup_app_l by (eapply lookup_lt_Some, Hi). exact Hi.
  - rewrite Ho2. simpl. fold (lookup_key n).
    apply last_lookup_key in Hl as [_ ->]. now rewrite Hs.
Qed.

(** The instances to update that sit on the row [i]. *)
Lemma deref_on_row (i : nat) (q : products.Product) :
  t !! i = Some q ->
  last (filter (fun o => o.1 = i) (products.deref E' U))
  = match last (filter (fun n => lookup_key n = products.sku_lower q) vs) with
    | Some n =>
        if decide (str.strip (products.sku_lower q) = products.sku_lower q)
        then Some (i, product_of n (products.is_active q))
        else None
    | None => None
    end.
Proof.
  intros Hi.
  assert (Hall : forall o,
             o ∈ filter (fun o => o.1 = i) (products.deref E' U) ->
             str.strip (products.sku_lower q) = products.sku_lower q
             /\ exists n,
                  last (filter (fun n => lookup_key n = products.sku_lower q)
                          vs) = Some n
                  /\ o = (i, product_of n (products.is_active q))).
  { intros [i' p'] Ho. apply list_elem_of_filter in Ho as [Hi' Ho].
    simpl in Hi'. subst i'.
    destruct (deref_elem _ Ho) as (p & n & Hp & Hs & Hl & Ho2).
    simpl in Hp, Ho2. rewrite Hi in Hp. injection Hp as <-.
    split; [exact Hs|]. exists n. split; [exact Hl|]. now rewrite Ho2. }
  destruct (last (filter (fun o => o.1 = i) (products.deref E' U)))
    as [o|] eqn:Eo.
  - destruct (Hall o (last_Some_elem_of _ _ Eo)) as (Hs & n & -> & ->).
    now rewrite decide_True by exact Hs.
  - apply last_None in Eo.
    destruct (last (filter (fun n => lookup_key n = products.sku_lower q) vs))
      as [n|] eqn:El; [|reflexivity].
    case_decide as Hs; [|reflexivity]. exfalso.
    apply last_lookup_key in El as [Hn Hkn].
    assert (Hf : E0 !! products.sku_lower q = Some (i, q)).
    { apply in_bulk_complete; [exact t_unique | exact Hi |].
      rewrite <- Hkn. apply lookup_key_collected; [exact Hn|].
      now rewrite Hkn. }
    assert (HU : products.sku_lower q ∈ U).
    { rewrite sorted_update, <- Hkn. apply list_elem_of_fmap_2.
      apply list_elem_of_filter. split; [|exact Hn]. rewrite Hkn, Hf. eauto. }
    destruct (reference_found _ HU) as (i' & p' & n' & _ & _ & He).
    assert (Hin : (i', product_of n' (products.is_active p'))
                  ∈ products.deref E' U).
    { apply list_elem_of_omap. eauto. }
    rewrite sorted_store, Hf in He. injection He as <- _.
    assert (Hin' : (i, product_of n' (products.is_active p'))
                   ∈ filter (fun o => o.1 = i) (products.deref E' U))
      by now apply list_elem_of_filter.
    rewrite Eo in Hin'. now apply elem_of_nil in Hin'.
Qed.

(** The atomic block succeeds; the table it leaves has unique keys,
    and for a stripped key the SKU it stores is the one
    [track_chunk] gives. *)
Lemma upsert_result :
  exists N t2,
    products.bulk_create t C true = inr (t ++ N)
    /\ (length N <= length C)%nat
    /\ products.bulk_update (t ++ N) (products.deref E' U) = inr t2
    /\ length t2 = length (t ++ N)
    /\ unique_skus t2
    /\ forall k, str.strip k = k ->
         stored_sku k t2 = track_chunk k vs (stored_sku k t).
Proof.
  destruct (bulk_create_ignore C t) as (N & HN & Hlen & HuN & HrowsN).
  destruct (bulk_update_ok (products.deref E' U) (t ++ N)
              (HuN t_unique) (deref_keeps_keys N))
    as (t2 & Ht2 & Hkeys & Hrow).
  assert (Hu2 : unique_skus t2)
    by (unfold unique_skus; rewrite Hkeys; exact (HuN t_unique)).
  exists N, t2. repeat split; [exact HN | exact Hlen | exact Ht2 | | exact Hu2 |].
  { apply (f_equal length) in Hkeys. unfold keys in Hkeys.
    now rewrite !length_fmap in Hkeys. }
  intros k Hk.
  assert (Hsame : forall j q2 q1,
             t2 !! j = Some q2 -> (t ++ N) !! j = Some q1 ->
             products.sku_lower q2 = products.sku_lower q1).
  { intros j q2 q1 H2 H1.
    assert (H : keys t2 !! j = keys (t ++ N) !! j) by now rewrite Hkeys.
    unfold keys in H. rewrite !list_lookup_fmap, H2, H1 in H.
    now injection H. }
  destruct (decide (k ∈ keys t)) as [Hin|Hnin].
  - apply keys_lookup in Hin as (i & q & Hi & Hq).
    assert (Hi1 : (t ++ N) !! i = Some q).
    { rewrite lookup_app_l by (eapply lookup_lt_Some, Hi). exact Hi. }
    replace (stored_sku k t) with (Some (products.sku q))
      by (rewrite <- Hq; symmetry; now apply (stored_sku_lookup t i q)).
    unfold track_chunk. specialize (Hrow i).
    rewrite (deref_on_row i q Hi), Hq, Hi1 in Hrow.
    destruct (last (filter (fun n => lookup_key n = k) vs)) as [n|] eqn:El.
    + rewrite decide_True in Hrow by exact Hk. simpl in Hrow.
      pose proof (Hsame _ _ _ Hrow Hi1) as Hs2. rewrite Hq in Hs2.
      pose proof (stored_sku_lookup t2 i _ Hu2 Hrow) as Hst.
      simpl in Hs2, Hst. rewrite Hs2 in Hst. exact Hst.
    + pose proof (stored_sku_lookup t2 i _ Hu2 Hrow) as Hst.
      rewrite Hq in Hst. exact Hst.
  - rewrite (stored_sku_absent k t Hnin). unfold track_chunk.
    specialize (HrowsN k).
    rewrite (rows_of_sku_absent k t Hnin), decide_False in HrowsN
      by exact Hnin.
    rewrite (create_rows k Hnin) in HrowsN. simpl in HrowsN.
    destruct (filter (fun n => create_key n = k) vs) as [|n ns] eqn:Ef.
    + simpl in HrowsN. apply stored_sku_absent.
      unfold keys. fold (keys t2). rewrite Hkeys.
      now apply rows_of_sku_nil_absent.
    + simpl in HrowsN.
      assert (Hin : product_of n true ∈ rows_of_sku k (t ++ N))
        by (rewrite HrowsN; now left).
      apply list_elem_of_filter in Hin as [Hkn Hin].
      apply list_elem_of_lookup in Hin as [j Hj].
      assert (Hge : (length t <= j)%nat).
      { destruct (le_lt_dec (length t) j) as [H|H]; [exact H|]. exfalso.
        rewrite lookup_app_l in Hj by exact H.
        apply Hnin. rewrite <- Hkn. eapply lookup_keys, Hj. }
      specialize (Hrow j).
      assert (Hno : filter (fun o => o.1 = j) (products.deref E' U) = []).
      { destruct (filter (fun o => o.1 = j) (products.deref E' U))
          as [|o os] eqn:Eo; [reflexivity|]. exfalso.
        assert (Ho : o ∈ filter (fun o => o.1 = j) (products.deref E' U))
          by (rewrite Eo; now left).
        apply list_elem_of_filter in Ho as [Hoj Ho].
        destruct (deref_elem _ Ho) as (p & _ & Hp & _).
        apply lookup_lt_Some in Hp. lia. }
      rewrite Hno in Hrow. simpl in Hrow. rewrite Hj in Hrow.
      pose proof (stored_sku_lookup t2 j _ Hu2 Hrow) as Hst.
      simpl in Hkn, Hst. rewrite Hkn in Hst. exact Hst.
Qed.

(** When every row is found, nothing is put on the list of
    creations. *)
Lemma all_found_no_create :
  (forall n, n ∈ vs ->
     lookup_key n ∈ keys t /\ str.strip (lookup_key n) = lookup_key n) ->
  C = [] /\ length U = length vs.
Proof.
  intros Hall.
  assert (HC : C = []).
  { rewrite sorted_create.
    destruct (filter (fun n => E0 !! lookup_key n = None) vs) as [|n ns] eqn:Ef;
      [reflexivity|]. exfalso.
    assert (Hn : n ∈ filter (fun n => E0 !! lookup_key n = None) vs)
      by (rewrite Ef; now left).
    apply list_elem_of_filter in Hn as [Hnone Hn].
    destruct (Hall n Hn) as [Hk Hs].
    apply keys_lookup in Hk as (i & q & Hi & Hq).
    assert (Hf : E0 !! products.sku_lower q = Some (i, q)).
    { apply in_bulk_complete; [exact t_unique | exact Hi |].
      rewrite Hq. now apply lookup_key_collected. }
    rewrite Hq, Hnone in Hf. discriminate. }
  split; [exact HC|]. pose proof sorted_length as Hl. rewrite HC in Hl.
  simpl in Hl. now rewrite Hl.
Qed.

(** The keys after the atomic block: those of the table and of the
    rows inserted; every row of the chunk has its key among them. *)
Lemma upsert_keys (N t2 : list products.Product) :
  products.bulk_create t C true = inr (t ++ N) ->
  products.bulk_update (t ++ N) (products.deref E' U) = inr t2 ->
  keys t2 = keys (t ++ N)
  /\ (forall n, n ∈ vs -> create_key n ∈ keys t2)
  /\ ((forall n, n ∈ vs ->
         lookup_key n ∈ keys t /\ str.strip (lookup_key n) = lookup_key n) ->
      N = [] /\ length U = length vs).
Proof.
  intros Hc Hu.
  destruct (bulk_create_ignore C t) as (N' & HN' & _ & HuN & HrowsN).
  rewrite Hc in HN'. injection HN' as HN'. apply app_inv_head in HN'.
  subst N'.
  destruct (bulk_update_ok (products.deref E' U) (t ++ N)
              (HuN t_unique) (deref_keeps_keys N))
    as (t2' & Ht2' & Hkeys & _).
  rewrite Hu in Ht2'. injection Ht2' as <-.
  split; [exact Hkeys|]. split.
  - intros n Hn. rewrite Hkeys.
    destruct (E0 !! lookup_key n) as [[i p]|] eqn:Ef.
    + destruct (found_row _ _ _ Ef) as (Hi & Hp & Hs).
      unfold create_key. fold (lookup_key n). rewrite Hs, <- Hp.
      unfold keys. rewrite fmap_app. apply elem_of_app. left.
      eapply lookup_keys, Hi.
    + destruct (decide (create_key n ∈ keys t)) as [Hin|Hnin].
      * unfold keys. rewrite fmap_app. apply elem_of_app. now left.
      * specialize (HrowsN (create_key n)).
        rewrite (rows_of_sku_absent _ t Hnin), decide_False in HrowsN
          by exact Hnin.
        assert (HinC : product_of n true ∈ rows_of_sku (create_key n) C).
        { apply list_elem_of_filter. split; [reflexivity|].
          rewrite sorted_create.
          apply (list_elem_of_fmap_2 (fun m => product_of m true)).
          now apply list_elem_of_filter. }
        destruct (rows_of_sku (create_key n) C) as [|p ps] eqn:Er;
          [now apply elem_of_nil in HinC|].
        simpl in HrowsN.
        destruct (decide (create_key n ∈ keys (t ++ N))) as [H|H];
          [exact H|].
        rewrite (rows_of_sku_absent _ _ H) in HrowsN. discriminate.
  - intros Hall. destruct (all_found_no_create Hall) as [HC HU].
    split; [|exact HU]. rewrite HC in Hc. simpl in Hc. injection Hc as Hc.
    apply (f_equal length) in Hc. rewrite length_app in Hc.
    destruct N; [reflexivity | simpl in Hc; lia].
Qed.

End Upsert.

(** ** A chunk of an import that ignores conflicts *)

Lemma track_chunk_nil (k : string) (cur : option string) :
  track_chunk k [] cur = cur.
Proof. destruct cur; reflexivity. Qed.

Lemma bulk_operations_ignoring (C : list products.Product)
    (objs : list (nat * products.Product)) (imp : products.CSVImporter)
    (N t2 : list products.Product) :
  products.skip_duplicates imp = true ->
  products.bulk_create (products.table imp) C true
  = inr (products.table imp ++ N) ->
  (length N <= length C)%nat ->
  products.bulk_update (products.table imp ++ N) objs = inr t2 ->
  exists imp',
    products.bulk_operations C objs imp
    = (imp', inr (Z.of_nat (length N), Z.of_nat (length objs)))
    /\ products.table imp' = t2
    /\ products.upload_job imp' = products.upload_job imp
    /\ products.skip_duplicates imp' = true
    /\ products.cache imp' = products.cache imp
    /\ products.total (products.stats imp') = products.total (products.stats imp)
    /\ products.processed (products.stats imp')
       = products.processed (products.stats imp)
    /\ products.created (products.stats imp')
       = products.created (products.stats imp)
    /\ products.updated (products.stats imp')
       = products.updated (products.stats imp)
    /\ products.errors (products.stats imp')
       = products.errors (products.stats imp)
    /\ products.skipped (products.stats imp')
       = products.skipped (products.stats imp)
         + Z.of_nat (length C) - Z.of_nat (length N).
Proof.
  intros Hskip Hc Hlen Hu. unfold products.bulk_operations.
  destruct C as [|p C].
  - simpl in Hc. injection Hc as Hc.
    assert (N = []) as ->.
    { apply (f_equal length) in Hc. rewrite length_app in Hc.
      destruct N; [reflexivity | simpl in Hc; lia]. }
    rewrite app_nil_r in Hu.
    destruct objs as [|o objs].
    + simpl in Hu. injection Hu as <-.
      exists imp. importer_fields. repeat split; try assumption; lia.
    + rewrite Hu. eexists. split; [reflexivity|].
      importer_fields. repeat split; try assumption; lia.
  - rewrite Hskip, Hc.
    cbn [products.table products.set_table].
    replace (Z.of_nat (length (products.table imp ++ N))
             - Z.of_nat (length (products.table imp)))
      with (Z.of_nat (length N)) by (rewrite length_app; lia).
    destruct (Z.of_nat (length (p :: C)) - Z.of_nat (length N) >? 0) eqn:Hs.
    + destruct objs as [|o objs].
      * simpl in Hu. injection Hu as <-.
        eexists. split; [reflexivity|]. importer_fields. repeat split; try assumption; lia.
      * cbn [products.table products.set_table products.set_stats].
        rewrite Hu. eexists. split; [reflexivity|].
        importer_fields. repeat split; try assumption; lia.
    + assert (Z.of_nat (length (p :: C)) - Z.of_nat (length N) = 0) by lia.
      destruct objs as [|o objs].
      * simpl in Hu. injection Hu as <-.
        eexists. split; [reflexivity|]. importer_fields. repeat split; try assumption; lia.
      * cbn [products.table products.set_table products.set_stats].
        rewrite Hu. eexists. split; [reflexivity|].
        importer_fields. repeat split; try assumption; lia.
Qed.

(** The effect of a chunk on an importer that ignores conflicts, on a
    table with unique keys. *)
Lemma process_chunk_ignoring (rows : list products.Row)
    (imp : products.CSVImporter) :
  products.skip_duplicates imp = true ->
  unique_skus (products.table imp) ->
  let imp' := products.process_chunk rows imp in
  unique_skus (products.table imp')
  /\ (forall k, str.strip k = k ->
        stored_sku k (products.table imp')
        = track_chunk k (valid_rows_of rows)
            (stored_sku k (products.table imp)))
  /\ accounted (products.stats imp')
     = accounted (products.stats imp) + Z.of_nat (length rows)
  /\ products.errors (products.stats imp')
     + Z.of_nat (length (valid_rows_of rows))
     = products.errors (products.stats imp) + Z.of_nat (length rows)
  /\ products.processed (products.stats imp')
     = products.processed (products.stats imp)
  /\ products.total (products.stats imp') = products.total (products.stats imp)
  /\ products.skip_duplicates imp' = true
  /\ products.status (products.upload_job imp')
     = products.status (products.upload_job imp)
  /\ products.total_rows (products.upload_job imp')
     = products.total_rows (products.upload_job imp).
Proof.
  intros Hskip Hu imp'. subst imp'. unfold products.process_chunk.
  destruct rows as [|r rows].
  { assert (Hv : valid_rows_of [] = []) by reflexivity. rewrite Hv.
    cbn [length]. repeat split; try assumption; try lia.
    intros k _. now rewrite track_chunk_nil. }
  pose proof (normalize_rows_fst (r :: rows) 0 imp) as Hn1.
  pose proof (normalize_rows_counts (r :: rows) 0 imp) as Hn2.
  pose proof (normalize_rows_frame (r :: rows) 0 imp) as Hn3.
  destruct (products.normalize_rows 0 (r :: rows) imp) as [ns imp1].
  cbv zeta in Hn2, Hn3. cbn [fst snd] in Hn1, Hn2, Hn3.
  destruct Hn2 as (Hs1 & He1 & Hst1 & Htr1).
  destruct Hn3 as (Ht1 & Hsk1 & _ & Hp1 & Hto1 & Hc1 & Hup1).
  subst ns. unfold valid_rows_of.
  destruct (normalized_of (r :: rows)) as [|n ns] eqn:En.
  { rewrite filter_nil. cbn [length] in *. unfold accounted.
    rewrite Ht1. repeat split; try assumption; try congruence; try lia.
    intros k _. now rewrite track_chunk_nil. }
  pose proof (collect_skus_fst (n :: ns) imp1) as Hc2.
  pose proof (collect_skus_counts (n :: ns) imp1) as Hc3.
  pose proof (collect_skus_frame (n :: ns) imp1) as Hc4.
  destruct (products.collect_skus (n :: ns) imp1) as [[ks vs] imp2].
  cbv zeta in Hc3, Hc4. cbn [fst snd] in Hc2, Hc3, Hc4.
  injection Hc2 as -> ->.
  destruct Hc3 as (Hs2 & He2).
  destruct Hc4 as (Ht2 & Hsk2 & _ & Hj2 & Hp2 & Hto2 & Hcr2 & Hup2).
  destruct (filter is_valid (n :: ns)) as [|v vs] eqn:Ev.
  { cbn [fmap list_fmap]. cbn [length] in *. unfold accounted.
    rewrite Ht2, Ht1, Hj2.
    repeat split; try assumption; try congruence; try lia.
    intros k _. now rewrite track_chunk_nil. }
  fold (skus_lower_of (v :: vs)).
  destruct (products.partition_rows (v :: vs)
              (products.in_bulk (products.table imp2)
                 (skus_lower_of (v :: vs)))) as [[E' C] U] eqn:Hpart.
  assert (Hu2 : unique_skus (products.table imp2)) by (rewrite Ht2, Ht1; exact Hu).
  destruct (upsert_result _ Hu2 _ _ _ _ Hpart)
    as (N & t2 & Hcreate & Hlen & Hupdate & _ & Hu' & Htrack).
  destruct (bulk_operations_ignoring C (products.deref E' U) imp2 N t2)
    as (imp3 & Hbulk & Ht3 & Hj3 & Hsk3 & _ & Hto3 & Hp3 & Hcr3 & Hup3
        & He3 & Hs3); try assumption; try congruence.
  rewrite Hbulk. importer_fields.
  pose proof (sorted_length _ _ _ _ _ Hpart) as Hlen2.
  rewrite (deref_length _ _ _ _ _ Hpart).
  rewrite Ht3. repeat split; try assumption; try congruence.
  - intros k Hk. rewrite (Htrack k Hk). now rewrite Ht2, Ht1.
  - unfold accounted in *. importer_fields. lia.
Qed.

(** The same chunk, seen through its keys and its two counters: either
    no row is valid and the table is left alone, or the table is the
    one the atomic block leaves. *)
Lemma process_chunk_ignoring_shape (rows : list products.Row)
    (imp : products.CSVImporter) :
  products.skip_duplicates imp = true ->
  unique_skus (products.table imp) ->
  let imp' := products.process_chunk rows imp in
  let vs := valid_rows_of rows in
  (vs = []
   /\ products.table imp' = products.table imp
   /\ products.created (products.stats imp')
      = products.created (products.stats imp)
   /\ products.updated (products.stats imp')
      = products.updated (products.stats imp))
  \/ exists E' C U N,
       products.partition_rows vs
         (products.in_bulk (products.table imp) (skus_lower_of vs))
       = (E', C, U)
       /\ products.bulk_create (products.table imp) C true
          = inr (products.table imp ++ N)
       /\ products.bulk_update (products.table imp ++ N)
            (products.deref E' U)
          = inr (products.table imp')
       /\ products.created (products.stats imp')
          = products.created (products.stats imp) + Z.of_nat (length N)
       /\ products.updated (products.stats imp')
          = products.updated (products.stats imp) + Z.of_nat (length U).
Proof.
  intros Hskip Hu imp' vs. subst imp' vs. unfold products.process_chunk.
  destruct rows as [|r rows].
  { left. split_ands; reflexivity. }
  pose proof (normalize_rows_fst (r :: rows) 0 imp) as Hn1.
  pose proof (normalize_rows_frame (r :: rows) 0 imp) as Hn3.
  destruct (products.normalize_rows 0 (r :: rows) imp) as [ns imp1].
  cbv zeta in Hn3. cbn [fst snd] in Hn1, Hn3.
  destruct Hn3 as (Ht1 & Hsk1 & _ & _ & _ & Hc1 & Hup1).
  subst ns. unfold valid_rows_of.
  destruct (normalized_of (r :: rows)) as [|n ns] eqn:En.
  { left. rewrite filter_nil. split_ands; congruence. }
  pose proof (collect_skus_fst (n :: ns) imp1) as Hc2.
  pose proof (collect_skus_frame (n :: ns) imp1) as Hc4.
  destruct (products.collect_skus (n :: ns) imp1) as [[ks vs] imp2].
  cbv zeta in Hc4. cbn [fst snd] in Hc2, Hc4.
  injection Hc2 as -> ->.
  destruct Hc4 as (Ht2 & Hsk2 & _ & _ & _ & _ & Hcr2 & Hup2).
  destruct (filter is_valid (n :: ns)) as [|v vs] eqn:Ev.
  { left. cbn [fmap list_fmap]. split_ands; congruence. }
  right. fold (skus_lower_of (v :: vs)).
  destruct (products.partition_rows (v :: vs)
              (products.in_bulk (products.table imp2)
                 (skus_lower_of (v :: vs)))) as [[E' C] U] eqn:Hpart.
  assert (Hu2 : unique_skus (products.table imp2)) by (rewrite Ht2, Ht1; exact Hu).
  destruct (upsert_result _ Hu2 _ _ _ _ Hpart)
    as (N & t2 & Hcreate & Hlen & Hupdate & _).
  destruct (bulk_operations_ignoring C (products.deref E' U) imp2 N t2)
    as (imp3 & Hbulk & Ht3 & _ & _ & _ & _ & _ & Hcr3 & Hup3 & _);
    try assumption; try congruence.
  rewrite Hbulk. importer_fields.
  rewrite (deref_length _ _ _ _ _ Hpart).
  assert (Ht : products.table imp2 = products.table imp) by congruence.
  rewrite Ht in Hpart, Hcreate, Hupdate.
  exists E', C, U, N. rewrite Ht3.
  split_ands; try assumption; congruence.
Qed.

Lemma process_chunk_keys (rows : list products.Row)
    (imp : products.CSVImporter) :
  products.skip_duplicates imp = true ->
  unique_skus (products.table imp) ->
  let imp' := products.process_chunk rows imp in
  (forall k, k ∈ keys (products.table imp) -> k ∈ keys (products.table imp'))
  /\ (forall n, n ∈ valid_rows_of rows ->
        create_key n ∈ keys (products.table imp'))
  /\ ((forall n, n ∈ valid_rows_of rows ->
         lookup_key n ∈ keys (products.table imp)
         /\ str.strip (lookup_key n) = lookup_key n) ->
      products.created (products.stats imp')
      = products.created (products.stats imp)
      /\ products.updated (products.stats imp')
         = products.updated (products.stats imp)
           + Z.of_nat (length (valid_rows_of rows))).
Proof.
  intros Hskip Hu. cbv zeta.
  pose proof (process_chunk_ignoring_shape rows imp Hskip Hu) as H.
  cbv zeta in H.
  destruct H as [(Hv & Ht & Hc & Hup)
                | (E' & C & U & N & Hpart & Hcreate & Hupdate & Hc & Hup)].
  - rewrite Hv, Ht. split_ands.
    + auto.
    + intros n Hn. now apply elem_of_nil in Hn.
    + intros _. simpl. split; [exact Hc | lia].
  - destruct (upsert_keys _ Hu _ _ _ _ Hpart N _ Hcreate Hupdate)
      as (Hkeys & Hk2 & Hk3).
    split_ands.
    + intros k Hk. rewrite Hkeys. unfold keys. rewrite fmap_app.
      apply elem_of_app. now left.
    + exact Hk2.
    + intros Hall. destruct (Hk3 Hall) as [-> HU].
      rewrite Hc, Hup, HU. simpl. split; lia.
Qed.

(** ** The second pass of an import that ignores conflicts *)

Lemma update_progress_synced (imp : products.CSVImporter) :
  synced (products.update_progress imp).
Proof. repeat split. Qed.

Lemma update_progress_stats (imp : products.CSVImporter) :
  products.stats (products.update_progress imp) = products.stats imp.
Proof. reflexivity. Qed.

Lemma update_progress_table (imp : products.CSVImporter) :
  products.table (products.update_progress imp) = products.table imp.
Proof. reflexivity. Qed.

Lemma update_progress_skip (imp : products.CSVImporter) :
  products.skip_duplicates (products.update_progress imp)
  = products.skip_duplicates imp.
Proof. reflexivity. Qed.

Lemma update_progress_status (imp : products.CSVImporter) :
  products.status (products.upload_job (products.update_progress imp))
  = products.status (products.upload_job imp).
Proof. reflexivity. Qed.

Lemma update_progress_total_rows (imp : products.CSVImporter) :
  products.total_rows (products.upload_job (products.update_progress imp))
  = products.total_rows (products.upload_job imp).
Proof. reflexivity. Qed.

Lemma read_rows_ignoring (rows : list products.Row) :
  forall (chunk : list products.Row) (imp : products.CSVImporter),
    products.skip_duplicates imp = true ->
    unique_skus (products.table imp) ->
    let imp' := products.read_rows rows chunk imp in
    unique_skus (products.table imp')
    /\ (forall k, str.strip k = k ->
          stored_sku k (products.table imp')
          = track k (chunks_from rows chunk)
              (stored_sku k (products.table imp)))
    /\ accounted (products.stats imp')
       = accounted (products.stats imp)
         + Z.of_nat (length chunk) + Z.of_nat (length rows)
    /\ products.processed (products.stats imp')
       = products.processed (products.stats imp) + Z.of_nat (length rows)
    /\ products.total (products.stats imp')
       = products.total (products.stats imp)
    /\ products.status (products.upload_job imp')
       = products.status (products.upload_job imp)
    /\ products.total_rows (products.upload_job imp')
       = products.total_rows (products.upload_job imp)
    /\ (synced imp \/ chunk <> [] \/ rows <> [] -> synced imp').
Proof.
  induction rows as [|r rows IH]; intros chunk imp Hskip Hu imp'; subst imp'.
  - cbn [products.read_rows chunks_from length]. destruct chunk as [|c chunk].
    + unfold track. cbn [fold_left length].
      split_ands; try assumption; try lia; try (intros; reflexivity).
      intros H. destruct H as [H|H]; [exact H|]. destruct H as [H|H]; congruence.
    + destruct (process_chunk_ignoring (c :: chunk) imp Hskip Hu)
        as (Hu' & Htr & Hacc & _ & Hp & Ht & Hs & Hst & Htot).
      unfold track. cbn [fold_left].
      rewrite update_progress_stats, update_progress_table,
        update_progress_status, update_progress_total_rows.
      cbn [length] in *.
      split_ands; try assumption; try lia.
      intros _. apply update_progress_synced.
  - cbn [products.read_rows chunks_from].
    set (imp1 := products.set_stats
                   (products.add_processed 1 (products.stats imp)) imp).
    assert (Hskip1 : products.skip_duplicates imp1 = true) by exact Hskip.
    assert (Hu1 : unique_skus (products.table imp1)) by exact Hu.
    destruct (products.CHUNK_SIZE <=? length (chunk ++ [r]))%nat.
    + destruct (process_chunk_ignoring (chunk ++ [r]) imp1 Hskip1 Hu1)
        as (Hu' & Htr & Hacc & _ & Hp & Ht & Hs & Hst & Htot).
      destruct (IH [] (products.update_progress
                         (products.process_chunk (chunk ++ [r]) imp1)))
        as (IH1 & IH2 & IH3 & IH4 & IH5 & IH6 & IH7 & IH8);
        [exact Hs | exact Hu' |].
      rewrite update_progress_stats, update_progress_table,
        update_progress_status, update_progress_total_rows in *.
      cbn [length] in *.
      split_ands; try assumption.
      * intros k Hk. rewrite (IH2 k Hk). unfold track. cbn [fold_left].
        now rewrite (Htr k Hk).
      * rewrite IH3, Hacc, length_app. unfold accounted. simpl. lia.
      * rewrite IH4, Hp. simpl. lia.
      * rewrite IH5, Ht. reflexivity.
      * rewrite IH6, Hst. reflexivity.
      * rewrite IH7, Htot. reflexivity.
      * intros _. apply IH8. left. apply update_progress_synced.
    + destruct (IH (chunk ++ [r]) imp1 Hskip1 Hu1)
        as (IH1 & IH2 & IH3 & IH4 & IH5 & IH6 & IH7 & IH8).
      split_ands; try assumption.
      * rewrite IH3, length_app. unfold accounted. simpl. lia.
      * rewrite IH4. simpl. lia.
      * intros _. apply IH8. right. left. now destruct chunk.
Qed.

(** The keys of the table grow along the second pass and come to hold
    the key of every valid row; and when every row is found, the pass
    creates nothing and updates once for each valid row. *)
Lemma read_rows_keys (rows : list products.Row) :
  forall (chunk : list products.Row) (imp : products.CSVImporter),
    products.skip_duplicates imp = true ->
    unique_skus (products.table imp) ->
    let imp' := products.read_rows rows chunk imp in
    (forall k, k ∈ keys (products.table imp) ->
               k ∈ keys (products.table imp'))
    /\ (forall n, n ∈ valid_rows_of (chunk ++ rows) ->
          create_key n ∈ keys (products.table imp'))
    /\ ((forall n, n ∈ valid_rows_of (chunk ++ rows) ->
           lookup_key n ∈ keys (products.table imp)
           /\ str.strip (lookup_key n) = lookup_key n) ->
        products.created (products.stats imp')
        = products.created (products.stats imp)
        /\ products.updated (products.stats imp')
           = products.updated (products.stats imp)
             + Z.of_nat (length (valid_rows_of (chunk ++ rows)))).
Proof.
  induction rows as [|r rows IH]; intros chunk imp Hskip Hu; cbv zeta.
  - cbn [products.read_rows]. rewrite app_nil_r. destruct chunk as [|c chunk].
    + split_ands; [auto | |].
      * intros n Hn. now apply elem_of_nil in Hn.
      * intros _. simpl. split; lia.
    + rewrite update_progress_table, update_progress_stats.
      apply (process_chunk_keys (c :: chunk) imp Hskip Hu).
  - cbn [products.read_rows].
    set (imp1 := products.set_stats
                   (products.add_processed 1 (products.stats imp)) imp).
    assert (Hskip1 : products.skip_duplicates imp1 = true) by exact Hskip.
    assert (Hu1 : unique_skus (products.table imp1)) by exact Hu.
    replace (chunk ++ r :: rows) with ((chunk ++ [r]) ++ rows)
      by now rewrite <- app_assoc.
    destruct (products.CHUNK_SIZE <=? length (chunk ++ [r]))%nat.
    + destruct (process_chunk_ignoring (chunk ++ [r]) imp1 Hskip1 Hu1)
        as (Hu' & _ & _ & _ & _ & _ & Hs & _).
      destruct (process_chunk_keys (chunk ++ [r]) imp1 Hskip1 Hu1)
        as (K1 & K2 & K3).
      destruct (IH [] (products.update_progress
                         (products.process_chunk (chunk ++ [r]) imp1)))
        as (J1 & J2 & J3); [exact Hs | exact Hu' |].
      rewrite update_progress_table, update_progress_stats in *.
      cbn [app] in J2, J3. rewrite valid_rows_of_app.
      split_ands.
      * intros k Hk. apply J1, K1, Hk.
      * intros n Hn. apply elem_of_app in Hn as [Hn|Hn].
        -- apply J1, K2, Hn.
        -- apply J2, Hn.
      * intros Hall.
        destruct K3 as [Kc Ku].
        { intros n Hn. apply Hall, elem_of_app. now left. }
        destruct J3 as [Jc Ju].
        { intros n Hn. destruct (Hall n) as [Hk Hst].
          - apply elem_of_app. now right.
          - split; [|exact Hst]. apply K1, Hk. }
        rewrite Jc, Ju, Kc, Ku, length_app. simpl. split; lia.
    + apply (IH (chunk ++ [r]) imp1 Hskip1 Hu1).
Qed.

(** ** The whole import *)

Lemma import_accepted (skip : bool) (file : products.CsvFile)
    (t : list products.Product) :
  header_accepted file ->
  import skip file t
  = (let imp := products.read_rows (products.records file) []
                  (second_pass_start skip file t) in
     (products.set_job (products.mark_as_completed (products.upload_job imp))
        imp,
      inr (products.stats imp))).
Proof.
  unfold header_accepted, import, products.import_csv, second_pass_start.
  destruct (products.fieldnames file) as [[|h hs]|]; try reflexivity.
  destruct (products.validate_headers (h :: hs)) as [ok msg].
  simpl. intros ->. reflexivity.
Qed.



(** Rows that fit into one chunk are handed over together. *)
Lemma chunks_from_short (rows : list products.Row) :
  forall chunk,
    (length chunk + length rows <= products.CHUNK_SIZE)%nat ->
    chunks_from rows chunk
    = match chunk ++ rows with [] => [] | l => [l] end.
Proof.
  induction rows as [|r rows IH]; intros chunk Hlen; cbn [chunks_from].
  - rewrite app_nil_r. now destruct chunk.
  - cbn [length] in Hlen.
    destruct (products.CHUNK_SIZE <=? length (chunk ++ [r]))%nat eqn:Hfull.
    + apply Nat.leb_le in Hfull. rewrite length_app in Hfull. simpl in Hfull.
      assert (rows = []) as -> by (destruct rows; [reflexivity|simpl in Hlen; lia]).
      cbn [chunks_from]. now destruct chunk.
    + rewrite IH by (rewrite length_app; simpl; lia).
      rewrite <- app_assoc. simpl. now destruct chunk.
Qed.


Lemma second_pass (file : products.CsvFile) (t : list products.Product) :
  unique_skus t ->
  let imp' := products.read_rows (products.records file) []
                (second_pass_start true file t) in
  unique_skus (products.table imp')
  /\ (forall k, str.strip k = k ->
        stored_sku k (products.table imp')
        = track k (chunks (products.records file)) (stored_sku k t))
  /\ accounted (products.stats imp')
     = Z.of_nat (length (products.records file))
  /\ products.processed (products.stats imp')
     = Z.of_nat (length (products.records file))
  /\ products.total_rows (products.upload_job imp')
     = Z.of_nat (length (products.records file))
  /\ synced imp'.
Proof.
  intros Hu.
  destruct (read_rows_ignoring (products.records file) []
              (second_pass_start true file t) eq_refl Hu)
    as (H1 & H2 & H3 & H4 & _ & _ & H7 & H8).
  cbv zeta. split_ands.
  - exact H1.
  - exact H2.
  - rewrite H3. reflexivity.
  - rewrite H4. reflexivity.
  - exact H7.
  - apply H8. left. repeat split.
Qed.

(** X23. When conflicts are ignored no atomic block raises, and the
    ledger of a fresh job closes: the job completes with
    [processed_rows = total_rows], the number of records, and every
    record is counted once, as created, as updated or as skipped, the
    rejected rows being among the skipped ones. *)
Lemma accounting_closes_ignoring_conflicts :
  forall (file : products.CsvFile) (t : list products.Product),
    unique_skus t -> header_accepted file ->
    let j := products.upload_job (import true file t).1 in
    products.status j = products.completed
    /\ products.processed_rows j = products.total_rows j
    /\ products.total_rows j = Z.of_nat (length (products.records file))
    /\ products.created_count j + products.updated_count j
       + (products.skipped_count j - products.error_count j)
       = products.processed_rows j - products.error_count j.
Proof.
  intros file t Hu Hh j. subst j.
  rewrite (import_accepted true file t Hh).
  destruct (second_pass file t Hu) as (_ & _ & H3 & H4 & H5 & H6).
  destruct H6 as (S1 & S2 & S3 & S4 & S5 & _).
  cbn [fst products.upload_job products.set_job products.mark_as_completed
       products.set_status products.status products.processed_rows
       products.total_rows products.created_count products.updated_count
       products.skipped_count products.error_count].
  unfold accounted in H3. split_ands; [reflexivity | lia | lia | lia].
Qed.

(** ** Progress *)

Lemma progress_percentage_no_rows (j : products.UploadJob) :
  products.total_rows j = 0 -> products.progress_percentage j = 0.
Proof.
  intros H. unfold products.progress_percentage. now rewrite H.
Qed.

(** The second pass can be cut after any number of full chunks. *)
Lemma read_rows_full_chunks (l1 l2 : list products.Row) :
  forall (chunk : list products.Row) (imp : products.CSVImporter),
    (length chunk < products.CHUNK_SIZE)%nat ->
    ((length chunk + length l1) mod products.CHUNK_SIZE = 0)%nat ->
    products.read_rows (l1 ++ l2) chunk imp
    = products.read_rows l2 [] (products.read_rows l1 chunk imp).
Proof.
  induction l1 as [|r l1 IH]; intros chunk imp Hlt Hmod.
  - cbn [length] in Hmod.
    rewrite Nat.add_0_r, Nat.mod_small in Hmod by exact Hlt.
    destruct chunk; [reflexivity | discriminate].
  - cbn [app products.read_rows].
    destruct (products.CHUNK_SIZE <=? length (chunk ++ [r]))%nat eqn:Hfull.
    + apply Nat.leb_le in Hfull. rewrite length_app in Hfull.
      cbn [length] in Hfull, Hmod.
      apply IH; [unfold products.CHUNK_SIZE; cbn [length]; lia|].
      assert (Hc : (length chunk + 1 = products.CHUNK_SIZE)%nat) by lia.
      replace (length chunk + S (length l1))%nat
        with (length l1 + 1 * products.CHUNK_SIZE)%nat in Hmod by lia.
      rewrite Nat.Div0.mod_add in Hmod. exact Hmod.
    + apply Nat.leb_gt in Hfull. apply IH; [exact Hfull|].
      rewrite length_app. cbn [length] in *.
      now replace (length chunk + 1 + length l1)%nat
        with (length chunk + S (length l1))%nat by lia.
Qed.

(** The import of [file_50000] goes through [after_29_chunks]. *)
Lemma import_through_29_chunks :
  import true file_50000 [stored "x" "old"]
  = (let imp :=
       products.read_rows
         (drop (Z.to_nat 29000) (products.records file_50000)) []
         after_29_chunks in
     (products.set_job (products.mark_as_completed (products.upload_job imp))
        imp,
      inr (products.stats imp))).
Proof.
  rewrite import_accepted by (vm_compute; reflexivity).
  cbv zeta. unfold after_29_chunks.
  rewrite <- read_rows_full_chunks.
  - now rewrite take_drop.
  - unfold products.CHUNK_SIZE. simpl. lia.
  - rewrite length_take. vm_compute. reflexivity.
Qed.

(** C7 (as stated, refuted). After 29 of the 50 chunks of an import of
    50000 records the job has 29000 of 50000 rows processed.  The
    quotient and its product with 100 are rounded in double precision
    to a value just below 58, and the percentage, which the cache
    publishes too, is 57; the floor of the exact value is 58. *)
Lemma progress_percentage_below_floor :
  let j := products.upload_job after_29_chunks in
  products.processed_rows j = 29000
  /\ products.total_rows j = 50000
  /\ products.progress_percentage j = 57
  /\ products.p_percentage <$> products.cache after_29_chunks = Some 57
  /\ products.progress_percentage j
     <> (products.processed_rows j * 100) / products.total_rows j.
Proof.
  vm_compute. split_ands; try reflexivity. discriminate.
Qed.

(** C7 (amended). A file with a valid header and no record is
    imported with [total_rows = 0], a percentage of 0 and the status
    [completed].  The percentage of a job is 0 when [total_rows] is 0;
    otherwise it is the integer part of the double precision value
    of [(processed_rows / total_rows) * 100]. *)
Theorem headers_only_progress :
  forall (headers : list string) (j : products.UploadJob) (skip : bool)
         (t : list products.Product),
    (products.validate_headers headers).1 = true ->
    let result :=
      products.import_csv
        {| products.fieldnames := Some headers; products.records := [] |}
        (products.init j skip t) in
    result.2 = inr products.no_stats
    /\ products.status (products.upload_job result.1) = products.completed
    /\ products.total_rows (products.upload_job result.1) = 0
    /\ products.progress_percentage (products.upload_job result.1) = 0
    /\ (forall j', products.total_rows j' = 0 ->
          products.progress_percentage j' = 0)
    /\ (forall j', products.total_rows j' <> 0 ->
          products.progress_percentage j'
          = float.to_int
              (float.mul
                 (float.div (float.of_int (products.processed_rows j'))
                            (float.of_int (products.total_rows j')))
                 (float.of_int 100))).
Proof.
  intros headers j skip t Hv. unfold products.import_csv. simpl.
  assert (Hgen :
    (forall j', products.total_rows j' = 0 ->
       products.progress_percentage j' = 0)
    /\ (forall j', products.total_rows j' <> 0 ->
          products.progress_percentage j'
          = float.to_int
              (float.mul
                 (float.div (float.of_int (products.processed_rows j'))
                            (float.of_int (products.total_rows j')))
                 (float.of_int 100)))).
  { split; [exact progress_percentage_no_rows|].
    intros j' Hj'. unfold products.progress_percentage.
    apply Z.eqb_neq in Hj'. now rewrite Hj'. }
  destruct headers as [|h hs]; [split_ands; try reflexivity; apply Hgen|].
  destruct (products.validate_headers (h :: hs)) as [ok msg]. simpl in Hv.
  subst ok. split_ands; try reflexivity; apply Hgen.
Qed.

Lemma headers_only_progress_witness :
  let result :=
    products.import_csv
      {| products.fieldnames := Some ["Name"; " SKU "; "description"];
         products.records := [] |}
      (products.init products.new_job true [stored "x" "old"]) in
  products.status (products.upload_job result.1) = products.completed
  /\ products.total_rows (products.upload_job result.1) = 0
  /\ products.progress_percentage (products.upload_job result.1) = 0.
Proof.
  intros result.
  destruct (headers_only_progress ["Name"; " SKU "; "description"]
              products.new_job true [stored "x" "old"]
              ltac:(vm_compute; reflexivity))
    as (_ & H1 & H2 & H3 & _).
  split_ands; [exact H1 | exact H2 | exact H3].
Defined.

(** ** Rejected rows *)

(** A record without a usable SKU is rejected by [normalize_row]. *)
Lemma normalize_items_blank (items : products.Row) :
  forall (normalized : gmap string string),
    sku_blank items ->
    str.strip (products.get "sku" "" normalized) = "" ->
    match products.normalize_items items normalized with
    | inl _ => True
    | inr n => str.strip (products.get "sku" "" n) = ""
    end.
Proof.
  induction items as [|[k [v|]|extra] items IH]; intros normalized Hb Hn;
    simpl; [exact Hn | | | exact I].
  - apply IH.
    + intros k' v' Hin. apply Hb. now right.
    + unfold products.get.
      destruct (decide (str.strip (str.lower k) = "sku")) as [Hk|Hk].
      * rewrite Hk, lookup_insert_eq. simpl.
        rewrite (cleaned_blank v); [reflexivity|].
        apply (Hb k v); [now left | exact Hk].
      * rewrite lookup_insert_ne by exact Hk. exact Hn.
  - apply IH.
    + intros k' v' Hin. apply Hb. now right.
    + unfold products.get.
      destruct (decide (str.strip (str.lower k) = "sku")) as [Hk|Hk].
      * rewrite Hk, lookup_insert_eq. reflexivity.
      * rewrite lookup_insert_ne by exact Hk. exact Hn.
Qed.

Lemma blank_sku_rejected (r : products.Row) :
  sku_blank r -> exists e, products.normalize_row r = inl e.
Proof.
  intros Hb. unfold products.normalize_row.
  pose proof (normalize_items_blank r ∅ Hb eq_refl) as H.
  destruct (products.normalize_items r ∅) as [e|n]; [eauto|].
  rewrite H. simpl. rewrite orb_true_r. eauto.
Qed.

(** The first loop of a chunk only adds to the error list, and the
    entry of a rejected row carries the number of rows read so far
    plus its position in the chunk. *)
Lemma normalize_rows_entries_grow (rows : list products.Row) :
  forall (idx : Z) (imp : products.CSVImporter),
    error_entries (products.upload_job imp)
    `prefix_of`
    error_entries (products.upload_job (products.normalize_rows idx rows imp).2).
Proof.
  induction rows as [|r rows IH]; intros idx imp; simpl; [reflexivity|].
  destruct (products.normalize_row r) as [e|n].
  - etrans; [|apply IH]. unfold error_entries. simpl. now apply prefix_app_r.
  - specialize (IH (idx + 1) imp).
    destruct (products.normalize_rows (idx + 1) rows imp) as [ns imp1].
    exact IH.
Qed.

Lemma normalize_rows_entry (rows : list products.Row) :
  forall (idx : Z) (imp : products.CSVImporter) (i : nat) (r : products.Row)
         (e : products.Exn),
    rows !! i = Some r -> products.normalize_row r = inl e ->
    {| products.row :=
         products.processed (products.stats imp) + idx + Z.of_nat i + 1;
       products.error := products.exn_str e |}
    ∈ error_entries
        (products.upload_job (products.normalize_rows idx rows imp).2).
Proof.
  induction rows as [|r0 rows IH]; intros idx imp i r e Hi He; [discriminate|].
  destruct i as [|i]; simpl in Hi.
  - injection Hi as ->.
    replace (products.processed (products.stats imp) + idx + Z.of_nat 0 + 1)
      with (products.processed (products.stats imp) + idx + 1) by lia.
    simpl. rewrite He.
    eapply elem_of_prefix; [|apply normalize_rows_entries_grow].
    unfold error_entries. simpl. apply elem_of_app. right. now left.
  - simpl. destruct (products.normalize_row r0) as [e0|n0].
    + match goal with
      | |- context [products.normalize_rows (idx + 1) rows ?i0] =>
          pose proof (IH (idx + 1) i0 i r e Hi He) as H
      end.
      simpl in H.
      replace (products.processed (products.stats imp) + idx
               + Z.of_nat (S i) + 1)
        with (products.processed (products.stats imp) + (idx + 1)
              + Z.of_nat i + 1) by lia.
      exact H.
    + pose proof (IH (idx + 1) imp i r e Hi He) as H.
      destruct (products.normalize_rows (idx + 1) rows imp) as [ns imp1].
      simpl in *.
      replace (products.processed (products.stats imp) + idx
               + Z.of_nat (S i) + 1)
        with (products.processed (products.stats imp) + (idx + 1)
              + Z.of_nat i + 1) by lia.
      exact H.
Qed.

Lemma bulk_operations_job (C : list products.Product)
    (objs : list (nat * products.Product)) (imp : products.CSVImporter) :
  products.upload_job (products.bulk_operations C objs imp).1
  = products.upload_job imp.
Proof.
  unfold products.bulk_operations.
  destruct C as [|p C].
  - destruct objs as [|o objs]; [reflexivity|].
    destruct (products.bulk_update _ _); reflexivity.
  - destruct (products.bulk_create _ _ _) as [e|t1]; [reflexivity|].
    destruct (_ >? 0); destruct objs as [|o objs]; try reflexivity;
      cbn [products.table products.set_table products.set_stats];
      destruct (products.bulk_update _ _); reflexivity.
Qed.

(** What the first loop has recorded stays in the error list of the
    chunk. *)
Lemma process_chunk_entries (rows : list products.Row)
    (imp : products.CSVImporter) :
  error_entries (products.upload_job (products.normalize_rows 0 rows imp).2)
  `prefix_of`
  error_entries (products.upload_job (products.process_chunk rows imp)).
Proof.
  unfold products.process_chunk. destruct rows as [|r rows]; [reflexivity|].
  destruct (products.normalize_rows 0 (r :: rows) imp) as [ns imp1].
  cbn [snd]. destruct ns as [|n ns]; [reflexivity|].
  pose proof (collect_skus_frame (n :: ns) imp1) as Hc.
  destruct (products.collect_skus (n :: ns) imp1) as [[ks vs] imp2].
  cbv zeta in Hc. cbn [snd] in Hc. destruct Hc as (_ & _ & _ & Hj & _).
  rewrite <- Hj.
  destruct vs as [|v vs]; [reflexivity|].
  destruct (products.partition_rows _ _) as [[E' C] U].
  pose proof (bulk_operations_job C (products.deref E' U) imp2) as Hb.
  destruct (products.bulk_operations C (products.deref E' U) imp2)
    as [imp3 [e|[cc uc]]]; cbn [fst] in Hb.
  - destruct (save_individually_spec C
                (products.set_table (products.table imp2) imp3))
      as (_ & _ & _ & fs & _ & He).
    cbv zeta in He. rewrite He. cbn [products.upload_job products.set_table].
    rewrite Hb. now apply prefix_app_r.
  - cbn [products.upload_job products.set_stats]. now rewrite Hb.
Qed.

(** A file of one chunk is handed to [process_chunk] whole, after all
    its rows have been counted as processed. *)
Lemma read_rows_short (rows : list products.Row) :
  forall (chunk : list products.Row) (imp : products.CSVImporter),
    (length chunk + length rows <= products.CHUNK_SIZE)%nat ->
    chunk ++ rows <> [] ->
    exists imp0,
      products.read_rows rows chunk imp
      = products.update_progress (products.process_chunk (chunk ++ rows) imp0)
      /\ products.processed (products.stats imp0)
         = products.processed (products.stats imp) + Z.of_nat (length rows)
      /\ products.upload_job imp0 = products.upload_job imp
      /\ products.table imp0 = products.table imp
      /\ products.skip_duplicates imp0 = products.skip_duplicates imp.
Proof.
  induction rows as [|r rows IH]; intros chunk imp Hlen Hne.
  - rewrite app_nil_r in *. exists imp. cbn [products.read_rows length].
    destruct chunk; [congruence|]. split_ands; try reflexivity. lia.
  - cbn [products.read_rows]. cbn [length] in Hlen.
    destruct (products.CHUNK_SIZE <=? length (chunk ++ [r]))%nat eqn:Hfull.
    + apply Nat.leb_le in Hfull. rewrite length_app in Hfull.
      cbn [length] in Hfull.
      assert (rows = []) as -> by (destruct rows; [reflexivity|simpl in Hlen; lia]).
      eexists. cbn [products.read_rows]. split; [reflexivity|].
      cbn [length]. split_ands; try reflexivity; try (simpl; lia).
    + destruct (IH (chunk ++ [r])
                  (products.set_stats
                     (products.add_processed 1 (products.stats imp)) imp))
        as (imp0 & H1 & H2 & H3 & H4 & H5).
      * rewrite length_app. cbn [length]. lia.
      * now destruct chunk.
      * exists imp0. rewrite <- app_assoc in H1. split; [exact H1|].
        simpl in H2. split_ands; try assumption.
        rewrite H2. cbn [length]. lia.
Qed.

(** X25. In a file of one chunk, the entry recorded for a rejected record
    carries the number of records of the file plus the 1-based number
    of the record: the number of the row in the file is never the one
    recorded. *)
Lemma rejected_row_number :
  forall (skip : bool) (file : products.CsvFile) (t : list products.Product)
         (i : nat) (r : products.Row) (e : products.Exn),
    header_accepted file ->
    (length (products.records file) <= products.CHUNK_SIZE)%nat ->
    products.records file !! i = Some r ->
    products.normalize_row r = inl e ->
    {| products.row :=
         Z.of_nat (length (products.records file)) + (Z.of_nat i + 1);
       products.error := products.exn_str e |}
    ∈ error_entries (products.upload_job (import skip file t).1).
Proof.
  intros skip file t i r e Hh Hlen Hi He.
  rewrite (import_accepted skip file t Hh). cbv zeta.
  cbn [fst products.upload_job products.set_job].
  destruct (read_rows_short (products.records file) []
              (second_pass_start skip file t) Hlen)
    as (imp0 & -> & Hp & _).
  { simpl. intros Hnil. rewrite Hnil in Hi. discriminate. }
  simpl app.
  change (error_entries
            (products.mark_as_completed
               (products.upload_job
                  (products.update_progress
                     (products.process_chunk (products.records file) imp0)))))
    with (error_entries
            (products.upload_job
               (products.process_chunk (products.records file) imp0))).
  eapply elem_of_prefix; [|apply process_chunk_entries].
  pose proof (normalize_rows_entry (products.records file) 0 imp0 i r e Hi He)
    as H.
  rewrite Hp in H. simpl in H.
  replace (Z.of_nat (length (products.records file)) + (Z.of_nat i + 1))
    with (0 + Z.of_nat (length (products.records file)) + 0 + Z.of_nat i + 1)
    by lia.
  exact H.
Qed.

(** ** Importing a file again *)

(** A row whose SKU is still stripped after the truncation is looked
    up under the key it is stored with. *)
Lemma clean_lookup_key (n : gmap string string) :
  str.strip (products.item "sku" n) = products.item "sku" n ->
  create_key n = lookup_key n.
Proof.
  intros H. unfold create_key, lookup_key. now rewrite strip_lower, H.
Qed.

(** X24. When the SKU of every valid row is still stripped after its
    truncation to 255 characters, as it is when no SKU is longer than
    that, the second import of a file creates nothing and updates once
    for each valid row. *)
Lemma reimport_updates_all :
  forall (file : products.CsvFile) (t : list products.Product),
    unique_skus t -> header_accepted file ->
    (forall n, n ∈ valid_rows_of (products.records file) ->
       str.strip (products.item "sku" n) = products.item "sku" n) ->
    let j := products.upload_job (reimport true file t).1 in
    products.status j = products.completed
    /\ products.created_count j = 0
    /\ products.updated_count j
       = Z.of_nat (length (valid_rows_of (products.records file))).
Proof.
  intros file t Hu Hh Hclean. cbv zeta. unfold reimport.
  assert (H1 : unique_skus (products.table (import true file t).1)
               /\ forall n, n ∈ valid_rows_of (products.records file) ->
                    create_key n
                    ∈ keys (products.table (import true file t).1)).
  { rewrite (import_accepted true file t Hh). cbv zeta.
    cbn [fst products.table products.set_job].
    destruct (second_pass file t Hu) as (Hu1 & _).
    destruct (read_rows_keys (products.records file) []
                (second_pass_start true file t) eq_refl Hu) as (_ & K2 & _).
    split; [exact Hu1 | exact K2]. }
  destruct H1 as [Hu1 Hk1].
  set (t1 := products.table (import true file t).1) in *.
  rewrite (import_accepted true file t1 Hh). cbv zeta.
  destruct (second_pass file t1 Hu1) as (_ & _ & _ & _ & _ & Hs).
  destruct (read_rows_keys (products.records file) []
              (second_pass_start true file t1) eq_refl Hu1) as (_ & _ & K3).
  destruct K3 as [Kc Ku].
  { intros n Hn. cbn [app] in Hn.
    rewrite <- (clean_lookup_key n (Hclean n Hn)).
    split; [apply Hk1, Hn|].
    unfold create_key. apply strip_idemp. }
  destruct Hs as (_ & S2 & S3 & _).
  cbn [fst products.upload_job products.set_job products.mark_as_completed
       products.set_status products.status products.created_count
       products.updated_count].
  cbn [app] in Ku.
  split_ands; [reflexivity | rewrite S2, Kc; reflexivity
              | rewrite S3, Ku; reflexivity].
Qed.

(** ** A chunk under either option *)






Lemma as_saved_product_of (n : gmap string string) (active : bool) :
  as_saved (product_of n active) = product_of n active.
Proof. reflexivity. Qed.



(** ** The two keys of a row *)





(** * Further properties *)

(** ** The runs of a delivery *)

Lemma take_length (n : nat) (s : string) :
  (String.length (str.take n s) <= n)%nat.
Proof.
  revert s. induction n as [|n IH]; intros [|c s]; simpl; try lia.
  specialize (IH s). lia.
Qed.

(** One run of [send_webhook] for a webhook of the table. *)
Lemma send_webhook_known (retries : Z) (id : nat) (payload : string)
    (post : webhooks.Http) (db : webhooks.Db) (w : webhooks.Webhook) :
  webhooks.webhook_table db !! id = Some w ->
  exists entry out,
    webhooks.send_webhook retries id payload post db
    = ({| webhooks.webhook_table :=
            <[id := webhooks.record_trigger (webhooks.is_successful entry) w]>
              (webhooks.webhook_table db);
          webhooks.log_table := webhooks.log_table db ++ [entry] |}, out)
    /\ webhooks.retry_count entry = retries
    /\ webhooks.log_webhook entry = id
    /\ webhooks.log_payload entry = payload
    /\ (String.length (webhooks.response_body entry) <= 1000)%nat
    /\ match post with
       | webhooks.Response code text =>
           webhooks.status_code entry = Some code
           /\ webhooks.is_successful entry = (200 <=? code) && (code <? 300)
           /\ out = (if (200 <=? code) && (code <? 300)
                     then webhooks.Return code
                     else webhooks.Raise
                            ("Webhook failed with status " +:+ pretty code))
       | webhooks.RequestException e =>
           transport_failure entry
           /\ webhooks.error entry = e
           /\ out = webhooks.retry retries e
       end.
Proof.
  intros Hw. unfold webhooks.send_webhook. rewrite Hw.
  destruct post as [code text|e].
  - exists {| webhooks.log_webhook := id;
              webhooks.log_event_type := webhooks.event_type w;
              webhooks.log_payload := payload;
              webhooks.status_code := Some code;
              webhooks.response_body := str.take 1000 text;
              webhooks.error := "";
              webhooks.is_successful := (200 <=? code) && (code <? 300);
              webhooks.retry_count := retries |}.
    exists (if (200 <=? code) && (code <? 300)
            then webhooks.Return code
            else webhooks.Raise
                   ("Webhook failed with status " +:+ pretty code)).
    split.
    + cbn [webhooks.is_successful].
      destruct ((200 <=? code) && (code <? 300)) eqn:E; reflexivity.
    + cbn [webhooks.retry_count webhooks.log_webhook webhooks.log_payload
           webhooks.response_body webhooks.status_code webhooks.is_successful].
      split_ands; try reflexivity. apply take_length.
  - exists {| webhooks.log_webhook := id;
              webhooks.log_event_type := webhooks.event_type w;
              webhooks.log_payload := payload;
              webhooks.status_code := None;
              webhooks.response_body := "";
              webhooks.error := e;
              webhooks.is_successful := false;
              webhooks.retry_count := retries |}.
    eexists. split; [reflexivity|].
    cbn [webhooks.retry_count webhooks.log_webhook webhooks.log_payload
         webhooks.response_body webhooks.status_code webhooks.is_successful
         webhooks.error].
    unfold transport_failure. simpl. split_ands; try reflexivity; lia.
Qed.

Lemma record_triggers_counters (outs : list bool) (w : webhooks.Webhook) :
  webhooks.total_triggers (record_triggers outs w)
  = webhooks.total_triggers w + Z.of_nat (length outs)
  /\ webhooks.successful_triggers (record_triggers outs w)
     = webhooks.successful_triggers w
       + Z.of_nat (length (filter (fun b => b = true) outs))
  /\ webhooks.failed_triggers (record_triggers outs w)
     = webhooks.failed_triggers w
       + Z.of_nat (length (filter (fun b => b = false) outs)).
Proof.
  revert w. induction outs as [|b outs IH]; intros w.
  - simpl. lia.
  - change (record_triggers (b :: outs) w)
      with (record_triggers outs (webhooks.record_trigger b w)).
    destruct (IH (webhooks.record_trigger b w)) as (H1 & H2 & H3).
    rewrite H1, H2, H3.
    cbn [webhooks.record_trigger webhooks.total_triggers
         webhooks.successful_triggers webhooks.failed_triggers].
    destruct b.
    + rewrite (filter_cons_True (fun b => b = true)) by reflexivity.
      rewrite (filter_cons_False (fun b => b = false)) by discriminate.
      cbn [length]. lia.
    + rewrite (filter_cons_False (fun b => b = true)) by discriminate.
      rewrite (filter_cons_True (fun b => b = false)) by reflexivity.
      cbn [length]. lia.
Qed.

Lemma filter_outcome_length (b : bool) (entries : list webhooks.WebhookLog) :
  length (filter (fun b' => b' = b) (webhooks.is_successful <$> entries))
  = length (filter (fun l => webhooks.is_successful l = b) entries).
Proof.
  induction entries as [|l ls IH]; [reflexivity|].
  rewrite fmap_cons.
  destruct (decide (webhooks.is_successful l = b)) as [E|E].
  - rewrite !filter_cons_True by exact E. cbn [length]. now rewrite IH.
  - rewrite !filter_cons_False by exact E. exact IH.
Qed.

(** What a delivery writes, whatever the number of runs allowed: log
    entries for the webhook, appended to the log, and the outcome of
    each on the counters of the webhook.  A key that is not in the
    table writes nothing. *)
Lemma deliver_writes (id : nat) (payload : string)
    (endpoint : Z -> webhooks.Http) (fuel : nat) :
  forall (r : Z) (db db' : webhooks.Db) (out : webhooks.Outcome),
    webhooks.deliver fuel r id payload endpoint db = Some (db', out) ->
    exists entries,
      webhooks.log_table db' = webhooks.log_table db ++ entries
      /\ Forall (fun l => webhooks.log_webhook l = id
                          /\ webhooks.log_payload l = payload
                          /\ (String.length (webhooks.response_body l)
                              <= 1000)%nat) entries
      /\ match webhooks.webhook_table db !! id with
         | None => db' = db /\ entries = []
         | Some w =>
             webhooks.webhook_table db'
             = <[id := record_triggers (webhooks.is_successful <$> entries) w]>
                 (webhooks.webhook_table db)
         end.
Proof.
  induction fuel as [|fuel IH]; intros r db db' out H; [discriminate|].
  cbn [webhooks.deliver] in H.
  destruct (webhooks.webhook_table db !! id) as [w|] eqn:Hw.
  - destruct (send_webhook_known r id payload (endpoint r) db w Hw)
      as (entry & out1 & Hs & _ & Hid & Hp & Hb & _).
    rewrite Hs in H.
    assert (Hone :
      forall db1, db1 = {| webhooks.webhook_table :=
                   <[id := webhooks.record_trigger
                             (webhooks.is_successful entry) w]>
                     (webhooks.webhook_table db);
                 webhooks.log_table := webhooks.log_table db ++ [entry] |} ->
      webhooks.log_table db1 = webhooks.log_table db ++ [entry]
      /\ Forall (fun l => webhooks.log_webhook l = id
                          /\ webhooks.log_payload l = payload
                          /\ (String.length (webhooks.response_body l)
                              <= 1000)%nat) [entry]
      /\ webhooks.webhook_table db1
         = <[id := record_triggers (webhooks.is_successful <$> [entry]) w]>
             (webhooks.webhook_table db)).
    { intros db1 ->. split_ands; [reflexivity | | reflexivity].
      constructor; [auto | constructor]. }
    destruct out1 as [code|e|e].
    + inversion H; subst. exists [entry]. now apply Hone.
    + apply IH in H. destruct H as (entries & H1 & H2 & H3).
      cbn [webhooks.webhook_table webhooks.log_table] in H1, H3.
      rewrite lookup_insert_eq in H3.
      exists (entry :: entries). split_ands.
      * rewrite H1, <- app_assoc. reflexivity.
      * constructor; [auto | exact H2].
      * rewrite H3, insert_insert_eq. reflexivity.
    + inversion H; subst. exists [entry]. now apply Hone.
  - unfold webhooks.send_webhook in H. rewrite Hw in H.
    inversion H; subst. exists []. rewrite app_nil_r. auto.
Qed.

(** The runs of a delivery for a webhook of the table, from the run
    with [r] retries on. *)
Lemma deliver_from (id : nat) (payload : string)
    (endpoint : Z -> webhooks.Http) (fuel : nat) :
  forall (r : Z) (db : webhooks.Db) (w : webhooks.Webhook),
    0 <= r <= 3 -> (Z.to_nat (4 - r) <= fuel)%nat ->
    webhooks.webhook_table db !! id = Some w ->
    exists db' out entries,
      webhooks.deliver fuel r id payload endpoint db = Some (db', out)
      /\ (forall e, out <> webhooks.Retry e)
      /\ webhooks.log_table db' = webhooks.log_table db ++ entries
      /\ (1 <= length entries <= Z.to_nat (4 - r))%nat
      /\ webhooks.retry_count <$> entries
         = (fun i => r + Z.of_nat i) <$> seq 0 (length entries)
      /\ (forall i l, entries !! i = Some l -> (S i < length entries)%nat ->
            transport_failure l)
      /\ (forall code, out = webhooks.Return code ->
            exists l, last entries = Some l
                      /\ webhooks.status_code l = Some code
                      /\ webhooks.is_successful l = true)
      /\ (forall e, out = webhooks.Raise e ->
            exists l, last entries = Some l
                      /\ webhooks.is_successful l = false).
Proof.
  induction fuel as [|fuel IH]; intros r db w Hr Hf Hw; [lia|].
  cbn [webhooks.deliver].
  destruct (send_webhook_known r id payload (endpoint r) db w Hw)
    as (entry & out1 & Hs & Hrc & _ & _ & _ & Hpost).
  rewrite Hs.
  assert (Hfinal : forall out,
    (forall e, out <> webhooks.Retry e) ->
    (forall code, out = webhooks.Return code ->
       webhooks.status_code entry = Some code
       /\ webhooks.is_successful entry = true) ->
    (forall e, out = webhooks.Raise e -> webhooks.is_successful entry = false) ->
    exists db' out' entries,
      Some ({| webhooks.webhook_table :=
                 <[id := webhooks.record_trigger
                           (webhooks.is_successful entry) w]>
                   (webhooks.webhook_table db);
               webhooks.log_table := webhooks.log_table db ++ [entry] |}, out)
      = Some (db', out')
      /\ (forall e, out' <> webhooks.Retry e)
      /\ webhooks.log_table db' = webhooks.log_table db ++ entries
      /\ (1 <= length entries <= Z.to_nat (4 - r))%nat
      /\ webhooks.retry_count <$> entries
         = (fun i => r + Z.of_nat i) <$> seq 0 (length entries)
      /\ (forall i l, entries !! i = Some l -> (S i < length entries)%nat ->
            transport_failure l)
      /\ (forall code, out' = webhooks.Return code ->
            exists l, last entries = Some l
                      /\ webhooks.status_code l = Some code
                      /\ webhooks.is_successful l = true)
      /\ (forall e, out' = webhooks.Raise e ->
            exists l, last entries = Some l
                      /\ webhooks.is_successful l = false)).
  { intros out Hn Hret Hraise. eexists _, out, [entry].
    split_ands; [reflexivity | exact Hn | reflexivity | simpl; lia
                | simpl; lia | | | | ].
    - simpl. rewrite Hrc. f_equal. lia.
    - intros i l _ Hi. simpl in Hi. lia.
    - intros code Hc. exists entry. split; [reflexivity | now apply Hret].
    - intros e Hc. exists entry. split; [reflexivity | now apply (Hraise e)]. }
  destruct (endpoint r) as [code text|e].
  - destruct Hpost as (Hsc & His & ->).
    destruct ((200 <=? code) && (code <? 300)) eqn:E.
    + apply Hfinal; [discriminate | | discriminate].
      intros c Hc. inversion Hc; subst. split; [exact Hsc | exact His].
    + apply Hfinal; [discriminate | discriminate |].
      intros _ _. exact His.
  - destruct Hpost as (Htf & _ & ->). unfold webhooks.retry.
    destruct (r + 1 >? webhooks.max_retries) eqn:E.
    + apply Hfinal; [discriminate | discriminate |].
      intros _ _. apply Htf.
    + unfold webhooks.max_retries in E.
      assert (Hr' : 0 <= r + 1 <= 3) by lia.
      edestruct (IH (r + 1)
                   {| webhooks.webhook_table :=
                        <[id := webhooks.record_trigger
                                  (webhooks.is_successful entry) w]>
                          (webhooks.webhook_table db);
                      webhooks.log_table := webhooks.log_table db ++ [entry] |}
                   (webhooks.record_trigger (webhooks.is_successful entry) w)
                   Hr')
        as (db' & out & entries & H1 & H2 & H3 & H4 & H5 & H6 & H7 & H8).
      { lia. }
      { cbn [webhooks.webhook_table]. apply lookup_insert_eq. }
      exists db', out, (entry :: entries).
      cbn [webhooks.log_table] in H3.
      split_ands.
      * exact H1.
      * exact H2.
      * rewrite H3, <- app_assoc. reflexivity.
      * cbn [length]. lia.
      * cbn [length]. lia.
      * cbn [length seq]. rewrite !fmap_cons, H5, Hrc.
        f_equal; [lia|]. rewrite <- fmap_S_seq, <- list_fmap_compose.
        apply list_fmap_ext. intros _ i _. simpl. lia.
      * intros [|i] l Hl Hi.
        -- inversion Hl; subst. exact Htf.
        -- apply (H6 i l Hl). cbn [length] in Hi. lia.
      * intros code Hc. destruct (H7 code Hc) as (l & Hl & Hx).
        exists l. split; [|exact Hx].
        destruct entries; [discriminate | exact Hl].
      * intros e' Hc. destruct (H8 e' Hc) as (l & Hl & Hx).
        exists l. split; [|exact Hx].
        destruct entries; [discriminate | exact Hl].
Qed.

(** X1. A delivery to a webhook of the table always ends, after at
    most four runs ([max_retries] + 1): with four runs or more allowed
    it returns or raises, and never asks for another run.  It appends
    between one and four entries to the log, with the retry counts 0,
    1, 2, ... in this order; every entry but the last is a transport
    failure, the only kind of run that is repeated; the last one
    carries the status code when the task returns it and is a failure
    when the task raises.  The counters of the webhook move once for
    each entry, by its outcome. *)
Theorem delivery_ends_within_four_runs :
  forall (fuel : nat) (id : nat) (payload : string)
         (endpoint : Z -> webhooks.Http) (db : webhooks.Db)
         (w : webhooks.Webhook),
    (4 <= fuel)%nat ->
    webhooks.webhook_table db !! id = Some w ->
    exists db' out entries,
      webhooks.deliver fuel 0 id payload endpoint db = Some (db', out)
      /\ (forall e, out <> webhooks.Retry e)
      /\ webhooks.log_table db' = webhooks.log_table db ++ entries
      /\ (1 <= length entries <= 4)%nat
      /\ webhooks.retry_count <$> entries
         = Z.of_nat <$> seq 0 (length entries)
      /\ (forall i l, entries !! i = Some l -> (S i < length entries)%nat ->
            transport_failure l)
      /\ (forall code, out = webhooks.Return code ->
            exists l, last entries = Some l
                      /\ webhooks.status_code l = Some code
                      /\ webhooks.is_successful l = true)
      /\ (forall e, out = webhooks.Raise e ->
            exists l, last entries = Some l
                      /\ webhooks.is_successful l = false)
      /\ webhooks.webhook_table db'
         = <[id := record_triggers (webhooks.is_successful <$> entries) w]>
             (webhooks.webhook_table db).
Proof.
  intros fuel id payload endpoint db w Hf Hw.
  destruct (deliver_from id payload endpoint fuel 0 db w ltac:(lia)
              ltac:(simpl; lia) Hw)
    as (db' & out & entries & H1 & H2 & H3 & H4 & H5 & H6 & H7 & H8).
  exists db', out, entries.
  destruct (deliver_writes id payload endpoint fuel 0 db db' out H1)
    as (entries' & E1 & _ & E3).
  rewrite Hw in E3. rewrite H3 in E1. apply app_inv_head in E1. subst entries'.
  split_ands; try assumption; simpl in H4; lia.
Qed.

Lemma delivery_ends_within_four_runs_witness :
  exists db' out entries,
    webhooks.deliver 4 0 7 "{}" recovering_endpoint one_webhook
    = Some (db', out)
    /\ (forall e, out <> webhooks.Retry e)
    /\ webhooks.log_table db' = webhooks.log_table one_webhook ++ entries
    /\ (1 <= length entries <= 4)%nat
    /\ webhooks.retry_count <$> entries = Z.of_nat <$> seq 0 (length entries)
    /\ (forall i l, entries !! i = Some l -> (S i < length entries)%nat ->
          transport_failure l)
    /\ (forall code, out = webhooks.Return code ->
          exists l, last entries = Some l
                    /\ webhooks.status_code l = Some code
                    /\ webhooks.is_successful l = true)
    /\ (forall e, out = webhooks.Raise e ->
          exists l, last entries = Some l
                    /\ webhooks.is_successful l = false)
    /\ webhooks.webhook_table db'
       = <[7%nat := record_triggers (webhooks.is_successful <$> entries)
                      (webhooks.create "https://example.org/hook"
                         "upload.completed" "s3cr3t")]>
           (webhooks.webhook_table one_webhook).
Proof.
  apply (delivery_ends_within_four_runs 4 7 "{}" recovering_endpoint
           one_webhook
           (webhooks.create "https://example.org/hook" "upload.completed"
              "s3cr3t")).
  - lia.
  - reflexivity.
Defined.

(** X2. A delivery keeps the statistics honest, whatever the endpoint
    does and however many runs it takes: if before it the counters of
    every webhook tell what the log holds for it (as many triggers as
    entries, successes as successful entries, failures as failed
    ones) they do so after it; no webhook but the addressed one is
    touched, no webhook appears or disappears, the log only grows, and
    no logged response body is longer than 1000 characters. *)
Theorem delivery_keeps_counters_and_log :
  forall (fuel : nat) (retries : Z) (id : nat) (payload : string)
         (endpoint : Z -> webhooks.Http) (db db' : webhooks.Db)
         (out : webhooks.Outcome),
    webhooks.deliver fuel retries id payload endpoint db = Some (db', out) ->
    counters_match_log db ->
    bodies_bounded db ->
    counters_match_log db'
    /\ bodies_bounded db'
    /\ webhooks.log_table db `prefix_of` webhooks.log_table db'
    /\ (forall j, j <> id ->
          webhooks.webhook_table db' !! j = webhooks.webhook_table db !! j)
    /\ (forall j, is_Some (webhooks.webhook_table db' !! j)
                  <-> is_Some (webhooks.webhook_table db !! j)).
Proof.
  intros fuel r id payload endpoint db db' out H Hc Hb.
  destruct (deliver_writes id payload endpoint fuel r db db' out H)
    as (entries & E1 & E2 & E3).
  destruct (webhooks.webhook_table db !! id) as [w|] eqn:Hw.
  2:{ destruct E3 as [-> _]. split_ands; auto. }
  assert (Hlogs : forall j,
    logs_of j db'
    = logs_of j db ++ (if decide (j = id) then entries else [])).
  { intros j. unfold logs_of. rewrite E1, filter_app. f_equal.
    destruct (decide (j = id)) as [->|Hj].
    - clear -E2. induction E2 as [|l ls (Hl & _) _ IH]; [reflexivity|].
      rewrite filter_cons_True by exact Hl. now rewrite IH.
    - clear -E2 Hj. induction E2 as [|l ls (Hl & _) _ IH]; [reflexivity|].
      rewrite filter_cons_False by congruence. exact IH. }
  split_ands.
  - intros j wj Hj. rewrite E3 in Hj. rewrite Hlogs.
    destruct (decide (j = id)) as [->|Hne].
    + rewrite lookup_insert_eq in Hj. inversion Hj; subst wj.
      destruct (Hc id w Hw) as (C1 & C2 & C3).
      destruct (record_triggers_counters (webhooks.is_successful <$> entries) w)
        as (R1 & R2 & R3).
      rewrite R1, R2, R3, C1, C2, C3.
      rewrite !filter_app, !length_app, length_fmap.
      rewrite !filter_outcome_length.
      split_ands; lia.
    + rewrite lookup_insert_ne in Hj by congruence.
      rewrite app_nil_r. exact (Hc j wj Hj).
  - unfold bodies_bounded. rewrite E1. apply Forall_app. split; [exact Hb|].
    eapply Forall_impl; [exact E2|]. intros l (_ & _ & Hl). exact Hl.
  - rewrite E1. now apply prefix_app_r.
  - intros j Hj. rewrite E3. apply lookup_insert_ne. congruence.
  - intros j. rewrite E3. destruct (decide (j = id)) as [->|Hj].
    + rewrite lookup_insert_eq, Hw. split; eauto.
    + rewrite lookup_insert_ne by congruence. reflexivity.
Qed.

Lemma delivery_keeps_counters_and_log_witness :
  match webhooks.deliver 4 0 7 "{}" recovering_endpoint one_webhook with
  | Some (db', _) =>
      counters_match_log db'
      /\ bodies_bounded db'
      /\ webhooks.log_table one_webhook `prefix_of` webhooks.log_table db'
      /\ (forall j, j <> 7%nat ->
            webhooks.webhook_table db' !! j
            = webhooks.webhook_table one_webhook !! j)
      /\ (forall j, is_Some (webhooks.webhook_table db' !! j)
                    <-> is_Some (webhooks.webhook_table one_webhook !! j))
  | None => False
  end.
Proof.
  destruct (webhooks.deliver 4 0 7 "{}" recovering_endpoint one_webhook)
    as [[db' out]|] eqn:E.
  - apply (delivery_keeps_counters_and_log 4 0 7 "{}" recovering_endpoint
             one_webhook db' out E).
    + intros id w Hw. unfold one_webhook in Hw. cbn in Hw.
      apply lookup_singleton_Some in Hw as [<- <-]. vm_compute. auto.
    + constructor.
  - vm_compute in E. discriminate.
Defined.

(** X3. Whatever an endpoint answers ends the delivery in that run:
    a status from 200 to 299 makes the task return it, any other
    status makes it raise, without a further run, whatever the number
    of retries so far.  The run writes one log entry, which holds the
    first 1000 characters of the body, and counts one trigger. *)
Theorem response_ends_delivery :
  forall (fuel : nat) (retries : Z) (id : nat) (payload : string)
         (endpoint : Z -> webhooks.Http) (db : webhooks.Db)
         (w : webhooks.Webhook) (code : Z) (text : string),
    webhooks.webhook_table db !! id = Some w ->
    endpoint retries = webhooks.Response code text ->
    let ok := (200 <=? code) && (code <? 300) in
    webhooks.deliver (S fuel) retries id payload endpoint db
    = Some ({| webhooks.webhook_table :=
                 <[id := webhooks.record_trigger ok w]>
                   (webhooks.webhook_table db);
               webhooks.log_table :=
                 webhooks.log_table db
                 ++ [ {| webhooks.log_webhook := id;
                         webhooks.log_event_type := webhooks.event_type w;
                         webhooks.log_payload := payload;
                         webhooks.status_code := Some code;
                         webhooks.response_body := str.take 1000 text;
                         webhooks.error := "";
                         webhooks.is_successful := ok;
                         webhooks.retry_count := retries |} ] |},
            if ok then webhooks.Return code
            else webhooks.Raise
                   ("Webhook failed with status " +:+ pretty code)).
Proof.
  intros fuel r id payload endpoint db w code text Hw He ok.
  cbn [webhooks.deliver]. unfold webhooks.send_webhook.
  rewrite Hw, He. fold ok. destruct ok; reflexivity.
Qed.

Lemma response_ends_delivery_witness :
  webhooks.deliver 1 2 7 "{}" recovering_endpoint one_webhook
  = Some ({| webhooks.webhook_table :=
               <[7%nat := webhooks.record_trigger true
                            (webhooks.create "https://example.org/hook"
                               "upload.completed" "s3cr3t")]>
                 (webhooks.webhook_table one_webhook);
             webhooks.log_table :=
               [ {| webhooks.log_webhook := 7;
                    webhooks.log_event_type := "upload.completed";
                    webhooks.log_payload := "{}";
                    webhooks.status_code := Some 200;
                    webhooks.response_body := "ok";
                    webhooks.error := "";
                    webhooks.is_successful := true;
                    webhooks.retry_count := 2 |} ] |},
          webhooks.Return 200).
Proof.
  apply (response_ends_delivery 0 2 7 "{}" recovering_endpoint one_webhook
           (webhooks.create "https://example.org/hook" "upload.completed"
              "s3cr3t") 200 "ok").
  - reflexivity.
  - reflexivity.
Defined.

(** X4. A delivery to a key that is not in the table of webhooks
    writes nothing: no log entry, no counter; the exception of the
    failed lookup ends the task, which is not repeated. *)
Theorem unknown_webhook_not_delivered :
  forall (fuel : nat) (retries : Z) (id : nat) (payload : string)
         (endpoint : Z -> webhooks.Http) (db : webhooks.Db),
    webhooks.webhook_table db !! id = None ->
    webhooks.deliver (S fuel) retries id payload endpoint db
    = Some (db, webhooks.Raise "Webhook matching query does not exist.").
Proof.
  intros fuel r id payload endpoint db Hw.
  cbn [webhooks.deliver]. unfold webhooks.send_webhook. now rewrite Hw.
Qed.

Lemma unknown_webhook_not_delivered_witness :
  webhooks.deliver 1 0 8 "{}" recovering_endpoint one_webhook
  = Some (one_webhook,
          webhooks.Raise "Webhook matching query does not exist.").
Proof.
  apply (unknown_webhook_not_delivered 0 0 8 "{}" recovering_endpoint
           one_webhook).
  reflexivity.
Defined.

(** ** Testing a webhook *)

(** X6. [test_webhook] judges a call as [send_webhook] does: it
    reports success exactly when a run of the delivery task that gets
    the same answer from the endpoint returns, whatever the number of
    retries of that run. *)
Theorem test_webhook_agrees_with_send_webhook :
  forall (retries : Z) (id : nat) (payload : string) (post : webhooks.Http)
         (db : webhooks.Db),
    (webhooks_tasks.test_webhook id post db).1 = true
    <-> exists code,
          (webhooks.send_webhook retries id payload post db).2
          = webhooks.Return code.
Proof.
  intros r id payload post db.
  unfold webhooks_tasks.test_webhook, webhooks.send_webhook.
  destruct (webhooks.webhook_table db !! id) as [w|].
  - destruct post as [code text|e].
    + destruct ((200 <=? code) && (code <? 300)); simpl.
      * split; eauto.
      * split; [discriminate | intros [c Hc]; discriminate].
    + simpl. split; [discriminate|]. intros [c Hc].
      unfold webhooks.retry in Hc.
      destruct (r + 1 >? webhooks.max_retries); discriminate.
  - simpl. split; [discriminate | intros [c Hc]; discriminate].
Qed.

(** ** What [normalize_row] accepts and what it rejects *)

Lemma lstrip_length (s : string) :
  (String.length (str.lstrip s) <= String.length s)%nat.
Proof.
  induction s as [|c s IH]; simpl; [lia|].
  destruct (str.isspace c); simpl; lia.
Qed.

Lemma rstrip_length (s : string) :
  (String.length (str.rstrip s) <= String.length s)%nat.
Proof.
  induction s as [|c s IH]; simpl; [lia|].
  destruct (str.rstrip s); [destruct (str.isspace c)|]; simpl in *; lia.
Qed.

Lemma strip_length (s : string) :
  (String.length (str.strip s) <= String.length s)%nat.
Proof.
  unfold str.strip. pose proof (rstrip_length (str.lstrip s)).
  pose proof (lstrip_length s). lia.
Qed.

(** A stripped string that is not empty starts with a character that
    is no space. *)
Lemma stripped_head (s : string) :
  str.strip s = s -> s <> EmptyString ->
  exists c r, s = String c r /\ str.isspace c = false.
Proof.
  intros Hs Hne.
  pose proof (lstrip_strip s) as H. rewrite Hs in H.
  destruct (lstrip_head s) as [E | (c & r & E & Hc)]; rewrite H in E.
  - contradiction.
  - eauto.
Qed.

Lemma strip_head (c : ascii) (r : string) :
  str.isspace c = false -> exists r', str.strip (String c r) = String c r'.
Proof.
  intros Hc. unfold str.strip. simpl. rewrite Hc.
  apply rstrip_head, Hc.
Qed.

(** The first loop leaves stripped values only, and fails on the
    fields beyond the header and on nothing else. *)
Lemma normalize_items_stripped (items : products.Row) :
  forall (m n : gmap string string),
    map_Forall (fun _ v => str.strip v = v) m ->
    products.normalize_items items m = inr n ->
    map_Forall (fun _ v => str.strip v = v) n.
Proof.
  induction items as [|[k [v|]|extra] items IH]; intros m n Hm H; simpl in H.
  - inversion H; subst. exact Hm.
  - apply (IH _ _ (map_Forall_insert_2 _ _ _ _ (strip_idemp _) Hm) H).
  - apply (IH _ _ (map_Forall_insert_2 _ _ _ _ eq_refl Hm) H).
  - discriminate.
Qed.

Lemma normalize_items_raises (items : products.Row) :
  forall (m : gmap string string),
    match products.normalize_items items m with
    | inl e =>
        e = products.AttributeError
              "'NoneType' object has no attribute 'lower'"
        /\ exists extra, products.Rest extra ∈ items
    | inr _ => forall extra, products.Rest extra ∉ items
    end.
Proof.
  induction items as [|[k [v|]|extra] items IH]; intros m; simpl.
  - intros extra H. inversion H.
  - specialize (IH (<[str.strip (str.lower k) := products.cleaned v]> m)).
    destruct (products.normalize_items items _).
    + destruct IH as (-> & extra & H). split; [reflexivity|].
      exists extra. now right.
    + intros extra H. inversion H; subst. now apply (IH extra).
  - specialize (IH (<[str.strip (str.lower k) := ""]> m)).
    destruct (products.normalize_items items _).
    + destruct IH as (-> & extra & H). split; [reflexivity|].
      exists extra. now right.
    + intros extra H. inversion H; subst. now apply (IH extra).
  - split; [reflexivity|]. exists extra. now left.
Qed.

(** The dictionary [normalize_row] returns. *)
Lemma normalize_row_shape :
  forall (r : products.Row) (n : gmap string string),
    products.normalize_row r = inr n ->
    exists sku name description,
      n !! "sku" = Some sku /\ n !! "name" = Some name
      /\ n !! "description" = Some description
      /\ sku <> "" /\ (String.length sku <= 255)%nat
      /\ str.lstrip sku = sku /\ str.strip sku <> ""
      /\ name <> "" /\ (String.length name <= 500)%nat
      /\ str.strip name = name.
Proof.
  intros r n H. unfold products.normalize_row in H.
  destruct (products.normalize_items r ∅) as [e|n0] eqn:En; [discriminate|].
  pose proof (normalize_items_stripped r ∅ n0 (map_Forall_empty _) En) as Hst.
  destruct (negb (products.contains "sku" n0)
            || negb (str.truthy (str.strip (products.get "sku" "" n0))))
    eqn:E1; [discriminate|].
  destruct (negb (products.contains "name" n0)
            || negb (str.truthy (str.strip (products.get "name" "" n0))))
    eqn:E2; [discriminate|].
  apply orb_false_elim in E1 as [C1 T1]. apply orb_false_elim in E2 as [C2 T2].
  apply negb_false_iff in C1, T1, C2, T2.
  unfold products.contains in C1, C2.
  apply bool_decide_eq_true in C1 as [sku0 Hsku0].
  apply bool_decide_eq_true in C2 as [name0 Hname0].
  unfold products.get in T1, T2. rewrite Hsku0 in T1. rewrite Hname0 in T2.
  simpl in T1, T2.
  set (n1 := <["sku" := str.strip (products.item "sku" n0)]> n0) in H.
  destruct (negb (str.truthy (products.item "sku" n1))) eqn:E3; [discriminate|].
  set (n2 := if negb (products.contains "description" n1)
                || negb (str.truthy (products.item "description" n1))
             then <["description" := ""]> n1 else n1) in H.
  match type of H with
  | inr ?e = _ => assert (Hn : e = n) by congruence
  end.
  clear H. subst n.
  assert (I0 : products.item "sku" n0 = sku0).
  { unfold products.item. now rewrite lookup_total_alt, Hsku0. }
  assert (I1 : products.item "sku" n2 = str.strip sku0).
  { unfold products.item, n2, n1. rewrite lookup_total_alt.
    destruct (_ || _); rewrite ?lookup_insert_ne by discriminate;
      rewrite lookup_insert_eq; simpl; now rewrite I0. }
  assert (I2 : products.item "name"
                 (<["sku" := str.take 255 (products.item "sku" n2)]> n2)
               = name0).
  { unfold products.item, n2, n1. rewrite lookup_total_alt.
    rewrite lookup_insert_ne by discriminate.
    destruct (_ || _); rewrite !lookup_insert_ne by discriminate;
      now rewrite Hname0. }
  assert (D : is_Some (n2 !! "description")).
  { unfold n2. destruct (negb (products.contains "description" n1)) eqn:Ec.
    - cbn [orb]. rewrite lookup_insert_eq. eauto.
    - apply negb_false_iff, bool_decide_eq_true in Ec.
      cbn [orb].
      destruct (negb (str.truthy (products.item "description" n1)));
        [rewrite lookup_insert_eq|]; eauto. }
  destruct D as [d Hd].
  rewrite I2, I1.
  exists (str.take 255 (str.strip sku0)), (str.strip (str.take 500 name0)), d.
  (* the SKU *)
  assert (Hs : exists c s, str.strip sku0 = String c s /\ str.isspace c = false).
  { apply stripped_head; [apply strip_idemp|].
    intros E. rewrite E in T1. discriminate. }
  destruct Hs as (c & s & Es & Hc).
  (* the name *)
  assert (Hnm : exists c s, name0 = String c s /\ str.isspace c = false).
  { apply stripped_head; [exact (Hst "name" name0 Hname0)|].
    intros E. rewrite E in T2. discriminate. }
  destruct Hnm as (cn & sn & En0 & Hcn).
  split_ands.
  - rewrite lookup_insert_ne by discriminate. apply lookup_insert_eq.
  - apply lookup_insert_eq.
  - rewrite !lookup_insert_ne by discriminate. exact Hd.
  - rewrite Es. discriminate.
  - apply take_length.
  - rewrite Es. simpl. now rewrite Hc.
  - rewrite Es. change (str.take 255 (String c s))
      with (String c (str.take 254 s)).
    destruct (strip_head c (str.take 254 s) Hc) as [r' ->]. discriminate.
  - rewrite En0. change (str.take 500 (String cn sn))
      with (String cn (str.take 499 sn)).
    destruct (strip_head cn (str.take 499 sn) Hcn) as [r' ->]. discriminate.
  - etrans; [apply strip_length | apply take_length].
  - apply strip_idemp.
Qed.

(** X7. A row that [normalize_row] accepts comes out with the three
    keys [sku], [name] and [description]; its SKU is not empty, has at
    most 255 characters, starts with a character that is no space and
    is not blank, so the row passes the test of the second loop of
    [process_chunk], whose branch for an empty SKU is never taken;
    its name is not empty, is stripped and has at most 500
    characters. *)
Theorem normalize_row_accepted :
  forall (r : products.Row) (n : gmap string string),
    products.normalize_row r = inr n ->
    (exists sku name description,
       n !! "sku" = Some sku /\ n !! "name" = Some name
       /\ n !! "description" = Some description
       /\ sku <> "" /\ (String.length sku <= 255)%nat
       /\ str.lstrip sku = sku /\ str.strip sku <> ""
       /\ name <> "" /\ (String.length name <= 500)%nat
       /\ str.strip name = name)
    /\ is_valid n
    /\ forall imp, products.collect_skus [n] imp
                   = ([str.lower (str.strip (products.get "sku" "" n))],
                      [n], imp).
Proof.
  intros r n H.
  destruct (normalize_row_shape r n H)
    as (sku & name & d & Hs & Hn & Hd & H1 & H2 & H3 & H4 & H5 & H6 & H7).
  assert (Hv : is_valid n).
  { unfold is_valid, products.get. rewrite Hs. simpl.
    destruct (str.strip sku); [contradiction | reflexivity]. }
  split_ands.
  - exists sku, name, d. split_ands; assumption.
  - exact Hv.
  - intros imp. cbn [products.collect_skus].
    unfold is_valid in Hv. now rewrite Hv.
Qed.

Lemma normalize_row_accepted_witness :
  match products.normalize_row (record "  AB   12 " " Blue  widget ") with
  | inr n =>
      (exists sku name description,
         n !! "sku" = Some sku /\ n !! "name" = Some name
         /\ n !! "description" = Some description
         /\ sku <> "" /\ (String.length sku <= 255)%nat
         /\ str.lstrip sku = sku /\ str.strip sku <> ""
         /\ name <> "" /\ (String.length name <= 500)%nat
         /\ str.strip name = name)
      /\ is_valid n
      /\ forall imp, products.collect_skus [n] imp
                     = ([str.lower (str.strip (products.get "sku" "" n))],
                        [n], imp)
  | inl _ => False
  end.
Proof.
  destruct (products.normalize_row (record "  AB   12 " " Blue  widget "))
    as [e|n] eqn:E.
  - vm_compute in E. discriminate.
  - apply (normalize_row_accepted
             (record "  AB   12 " " Blue  widget ") n E).
Defined.

(** X8. [normalize_row] rejects a row in three ways only.  A record
    with more fields than the header, whose extra fields the reader
    files under the key [None], is always rejected, with the
    [AttributeError] of [None.lower()], whatever its SKU and name; a
    record without such fields is rejected only for a missing or blank
    SKU or a missing or blank name.  The third check of the function,
    [SKU cannot be empty or contain only whitespace], never fires. *)
Theorem normalize_row_rejections :
  forall (r : products.Row),
    (forall extra, products.Rest extra ∈ r ->
       products.normalize_row r
       = inl (products.AttributeError
                "'NoneType' object has no attribute 'lower'"))
    /\ (forall e, products.normalize_row r = inl e ->
          ((exists extra, products.Rest extra ∈ r)
           /\ e = products.AttributeError
                    "'NoneType' object has no attribute 'lower'")
          \/ ((forall extra, products.Rest extra ∉ r)
              /\ (e = products.ValueError "SKU is required and cannot be empty"
                  \/ e = products.ValueError
                           "Name is required and cannot be empty")))
    /\ products.normalize_row r
       <> inl (products.ValueError
                 "SKU cannot be empty or contain only whitespace").
Proof.
  intros r.
  assert (Hmain : forall e, products.normalize_row r = inl e ->
          ((exists extra, products.Rest extra ∈ r)
           /\ e = products.AttributeError
                    "'NoneType' object has no attribute 'lower'")
          \/ ((forall extra, products.Rest extra ∉ r)
              /\ (e = products.ValueError "SKU is required and cannot be empty"
                  \/ e = products.ValueError
                           "Name is required and cannot be empty"))).
  { intros e H. unfold products.normalize_row in H.
    pose proof (normalize_items_raises r ∅) as Hr.
    destruct (products.normalize_items r ∅) as [e0|n0] eqn:En.
    { destruct Hr as [-> Hx]. left. split; [exact Hx | congruence]. }
    right. split; [exact Hr|].
    destruct (negb (products.contains "sku" n0)
              || negb (str.truthy (str.strip (products.get "sku" "" n0))))
      eqn:E1; [left; congruence|].
    destruct (negb (products.contains "name" n0)
              || negb (str.truthy (str.strip (products.get "name" "" n0))))
      eqn:E2; [right; congruence|].
    exfalso.
    apply orb_false_elim in E1 as [C1 T1].
    apply negb_false_iff in C1, T1.
    unfold products.contains in C1.
    apply bool_decide_eq_true in C1 as [sku0 Hsku0].
    unfold products.get in T1. rewrite Hsku0 in T1. simpl in T1.
    assert (I1 : products.item "sku"
                   (<["sku" := str.strip (products.item "sku" n0)]> n0)
                 = str.strip sku0).
    { unfold products.item. rewrite !lookup_total_alt, lookup_insert_eq, Hsku0.
      reflexivity. }
    rewrite I1, T1 in H. cbn [negb] in H. discriminate. }
  split_ands.
  - intros extra Hx. unfold products.normalize_row.
    pose proof (normalize_items_raises r ∅) as Hr.
    destruct (products.normalize_items r ∅) as [e0|n0].
    + now destruct Hr as [-> _].
    + now destruct (Hr extra).
  - exact Hmain.
  - intros H. destruct (Hmain _ H) as [[_ E] | [_ [E | E]]]; discriminate.
Qed.

(** ** The header check *)

(** X9. [validate_headers] accepts a header row exactly when a column
    named [name] and a column named [sku] are in it, the case of the
    letters and the space around the names not counting.  A row that
    lacks [name] is refused with the message for [name], whether it
    has [sku] or not; a row that has [name] and lacks [sku] with the
    message for [sku]. *)
Theorem validate_headers_accepts_iff :
  forall (headers : list string),
    ((products.validate_headers headers).1 = true
     <-> "name" ∈ lowered headers /\ "sku" ∈ lowered headers)
    /\ ("name" ∈ lowered headers -> "sku" ∈ lowered headers ->
        products.validate_headers headers = (true, ""))
    /\ ("name" ∉ lowered headers ->
        products.validate_headers headers
        = (false, "Missing required column: name"))
    /\ ("name" ∈ lowered headers -> "sku" ∉ lowered headers ->
        products.validate_headers headers
        = (false, "Missing required column: sku")).
Proof.
  intros headers. unfold products.validate_headers. fold (lowered headers).
  rewrite missing_column_spec.
  repeat case_bool_decide; simpl;
    intuition (try discriminate; try reflexivity; try contradiction).
Qed.

(** ** The table across an import *)

Lemma table_step_refl (t : list products.Product) : table_step t t.
Proof.
  unfold table_step. split_ands; auto.
  - intros pk p H. eauto.
  - intros pk p H1 H2. congruence.
Qed.

Lemma table_step_trans (t1 t2 t3 : list products.Product) :
  table_step t1 t2 -> table_step t2 t3 -> table_step t1 t3.
Proof.
  intros (A1 & A2 & A3) (B1 & B2 & B3).
  unfold table_step. split_ands; auto.
  - intros pk p H. destruct (A1 pk p H) as (p' & H' & E & K).
    destruct (B1 pk p' H') as (p'' & H'' & E' & K'). exists p''.
    split_ands; [exact H'' | congruence | auto].
  - intros pk p'' H3 H1. destruct (t2 !! pk) as [p'|] eqn:H2.
    + destruct (A2 pk p' H2 H1) as [Ha Hk].
      destruct (B1 pk p' H2) as (q & Hq & E & K).
      rewrite H3 in Hq. injection Hq as <-. split; [congruence | auto].
    + exact (B2 pk p'' H3 H2).
Qed.

Lemma table_step_length (t t' : list products.Product) :
  table_step t t' -> (length t <= length t')%nat.
Proof.
  intros (A1 & _). destruct (decide (length t <= length t')%nat) as [|Hn];
    [assumption|].
  destruct (lookup_lt_is_Some_2 t (length t')) as [p Hp]; [lia|].
  destruct (A1 _ p Hp) as (p' & Hp' & _).
  apply lookup_lt_Some in Hp'. lia.
Qed.

Lemma table_step_consistent (t t' : list products.Product) :
  table_step t t' -> keys_consistent t -> keys_consistent t'.
Proof.
  intros (A1 & A2 & _) Hc. unfold keys_consistent in *.
  rewrite Forall_lookup in Hc. apply Forall_lookup. intros pk p' Hp'.
  destruct (t !! pk) as [p|] eqn:Hp.
  - destruct (A1 pk p Hp) as (q & Hq & _ & K).
    rewrite Hp' in Hq. injection Hq as <-. apply K, (Hc pk p Hp).
  - apply (A2 pk p' Hp' Hp).
Qed.

(** One row appended. *)
Lemma table_step_app (t : list products.Product) (p : products.Product) :
  products.is_active p = true -> key_of_sku p ->
  products.sku_lower p ∉ keys t ->
  table_step t (t ++ [p]).
Proof.
  intros Ha Hk Hn. unfold table_step. split_ands.
  - intros pk q H. exists q. split_ands; auto.
    now apply lookup_app_l_Some.
  - intros pk q H1 H2. apply lookup_ge_None in H2.
    rewrite lookup_app_r in H1 by exact H2.
    apply list_lookup_singleton_Some in H1 as [_ <-]. auto.
  - unfold unique_skus, keys. intros Hu. rewrite fmap_app.
    apply NoDup_app. split_ands; [exact Hu | | apply NoDup_singleton].
    intros k Hk1 Hk2. apply list_elem_of_singleton in Hk2. subst k.
    exact (Hn Hk1).
Qed.

(** [bulk_create], with or without conflicts ignored. *)
Lemma bulk_create_step (objs : list products.Product) :
  forall (t t' : list products.Product) (ignore : bool),
    Forall (fun p => products.is_active p = true /\ key_of_sku p) objs ->
    products.bulk_create t objs ignore = inr t' ->
    table_step t t'.
Proof.
  induction objs as [|p objs IH]; intros t t' ignore Hg H; simpl in H.
  - injection H as <-. apply table_step_refl.
  - apply Forall_cons in Hg as [[Ha Hk] Hg].
    case_bool_decide as Hin.
    + destruct ignore; [|discriminate]. now apply (IH t t' true).
    + eapply table_step_trans; [|apply (IH _ _ _ Hg H)].
      now apply table_step_app.
Qed.

Lemma NoDup_insert_delete {A} (l : list A) (i : nat) (x : A) :
  NoDup l -> x ∉ delete i l -> NoDup (<[i := x]> l).
Proof.
  intros Hl Hx. destruct (decide (i < length l)%nat) as [Hi|Hi].
  - destruct (lookup_lt_is_Some_2 l i Hi) as [y Hy].
    rewrite insert_take_drop by exact Hi.
    rewrite delete_take_drop in Hx.
    rewrite <- (take_drop_middle l i y Hy) in Hl.
    apply NoDup_app in Hl as (H1 & H2 & H3).
    apply NoDup_cons in H3 as [H3 H4].
    apply NoDup_app. split_ands; [exact H1 | | ].
    + intros z Hz1 Hz2. apply elem_of_cons in Hz2 as [->|Hz2].
      * apply Hx, elem_of_app. now left.
      * apply (H2 z Hz1). now right.
    + apply NoDup_cons. split; [|exact H4].
      intros Hz. apply Hx, elem_of_app. now right.
  - rewrite list_insert_ge by lia. exact Hl.
Qed.

(** The update of one row. *)
Lemma update_row_step (t t' : list products.Product)
    (obj : nat * products.Product) :
  key_of_sku obj.2 ->
  products.update_row t obj = inr t' ->
  table_step t t'.
Proof.
  destruct obj as [pk p]. intros Hk H. unfold products.update_row in H.
  destruct (t !! pk) as [old|] eqn:Hold.
  2:{ injection H as <-. apply table_step_refl. }
  case_bool_decide as Hin; [discriminate|]. injection H as <-.
  pose proof (lookup_lt_Some _ _ _ Hold) as Hlt.
  unfold table_step. split_ands.
  - intros i q Hq. destruct (decide (i = pk)) as [->|Hne].
    + rewrite list_lookup_insert_eq by exact Hlt. eexists. split; [reflexivity|].
      rewrite Hold in Hq. injection Hq as <-. split; [reflexivity|].
      intros _. exact Hk.
    + rewrite list_lookup_insert_ne by congruence. eauto.
  - intros i q Hq Hn. apply lookup_ge_None in Hn.
    apply lookup_lt_Some in Hq. rewrite length_insert in Hq. lia.
  - unfold unique_skus, keys. intros Hu. rewrite list_fmap_insert.
    apply NoDup_insert_delete; [exact Hu|].
    cbn [products.sku_lower].
    intros Hx. apply Hin.
    rewrite delete_take_drop in Hx. rewrite delete_take_drop, fmap_app.
    rewrite fmap_take, fmap_drop. exact Hx.
Qed.

Lemma bulk_update_step (objs : list (nat * products.Product)) :
  forall (t t' : list products.Product),
    Forall (fun o => key_of_sku o.2) objs ->
    products.bulk_update t objs = inr t' ->
    table_step t t'.
Proof.
  induction objs as [|o objs IH]; intros t t' Hg H; simpl in H.
  - injection H as <-. apply table_step_refl.
  - apply Forall_cons in Hg as [Hk Hg].
    destruct (products.update_row t o) as [e|t1] eqn:E; [discriminate|].
    eapply table_step_trans; [apply (update_row_step _ _ _ Hk E)|].
    now apply IH.
Qed.

(** [Product.save] of a new, active instance. *)
Lemma save_step (t t' : list products.Product) (p : products.Product) :
  products.is_active p = true ->
  products.save t p = inr t' ->
  table_step t t'.
Proof.
  intros Ha H. unfold products.save in H.
  case_bool_decide as Hin; [discriminate|]. injection H as <-.
  apply table_step_app; [exact Ha | reflexivity | exact Hin].
Qed.

(** ** A chunk, whatever the options *)

Lemma import_step_refl (imp : products.CSVImporter) : import_step imp imp.
Proof.
  unfold import_step. split_ands; try reflexivity; try lia.
  apply table_step_refl.
Qed.

Lemma import_step_trans (i1 i2 i3 : products.CSVImporter) :
  import_step i1 i2 -> import_step i2 i3 -> import_step i1 i3.
Proof.
  intros (A1 & A2 & A3 & A4 & A5 & A6 & A7 & A8 & A9 & A10 & A11 & A12 & A13)
         (B1 & B2 & B3 & B4 & B5 & B6 & B7 & B8 & B9 & B10 & B11 & B12 & B13).
  unfold import_step. split_ands; try congruence; try lia.
  - eapply table_step_trans; eassumption.
  - etrans; eassumption.
Qed.

(** A row counted as rejected and entered in the error list. *)
Lemma import_step_rejected (imp : products.CSVImporter) (at_row : Z)
    (msg : string) :
  import_step imp
    (products.set_job
       (products.add_error at_row msg
          (products.upload_job (products.count_rejected imp)))
       (products.count_rejected imp)).
Proof.
  unfold import_step, error_gap, error_entries.
  cbn [products.set_job products.count_rejected products.set_stats
       products.table products.skip_duplicates products.cache products.stats
       products.upload_job products.add_error products.error_details
       products.status products.total_rows
       products.add_skipped products.add_errors
       products.processed products.total products.created products.updated
       products.skipped products.errors from_option id].
  split_ands; try reflexivity; try lia.
  - apply table_step_refl.
  - rewrite length_app. cbn [length]. lia.
  - now apply prefix_app_r.
Qed.

Lemma normalize_rows_step (rows : list products.Row) :
  forall (idx : Z) (imp : products.CSVImporter),
    import_step imp (products.normalize_rows idx rows imp).2.
Proof.
  induction rows as [|r rows IH]; intros idx imp; simpl.
  - apply import_step_refl.
  - destruct (products.normalize_row r) as [e|n].
    + eapply import_step_trans; [|apply IH].
      apply import_step_rejected.
    + specialize (IH (idx + 1) imp).
      destruct (products.normalize_rows (idx + 1) rows imp). exact IH.
Qed.

(** Every row the first loop lets through passes the test of the
    second: the second loop rejects nothing. *)
Lemma normalized_valid (rows : list products.Row) :
  Forall is_valid (normalized_of rows).
Proof.
  unfold normalized_of. apply Forall_forall. intros n Hn.
  apply list_elem_of_omap in Hn as (r & _ & Hr).
  destruct (products.normalize_row r) as [e|n'] eqn:E; [discriminate|].
  injection Hr as ->.
  destruct (normalize_row_shape r n E)
    as (sku & _ & _ & Hs & _ & _ & _ & _ & _ & Hne & _).
  unfold is_valid, products.get. rewrite Hs. simpl.
  destruct (str.strip sku); [contradiction | reflexivity].
Qed.

Lemma collect_skus_valid (ns : list (gmap string string)) :
  forall (imp : products.CSVImporter),
    Forall is_valid ns ->
    products.collect_skus ns imp = (skus_lower_of ns, ns, imp).
Proof.
  induction ns as [|n ns IH]; intros imp Hv; [reflexivity|].
  apply Forall_cons in Hv as [Hn Hv]. simpl.
  unfold is_valid in Hn. rewrite Hn, (IH imp Hv). reflexivity.
Qed.

(** What the sorting loop hands to the bulk operations. *)
Lemma partition_rows_good (vs : list (gmap string string))
    (E E' : gmap string (nat * products.Product))
    (C : list products.Product) (U : list string) :
  products.partition_rows vs E = (E', C, U) ->
  Forall (fun p => products.is_active p = true /\ key_of_sku p) C
  /\ Forall (fun o => key_of_sku o.2) (products.deref E' U).
Proof.
  intros H. pose proof (partition_rows_spec vs E) as Hs. rewrite H in Hs.
  destruct Hs as (-> & -> & HE). split.
  - apply Forall_fmap, Forall_forall. intros n _. split; reflexivity.
  - apply Forall_forall. intros [pk p] Ho. unfold products.deref in Ho.
    apply list_elem_of_omap in Ho as (k & Hk & Hl).
    apply list_elem_of_fmap in Hk as (n & -> & Hn).
    apply list_elem_of_filter in Hn as [_ Hn].
    rewrite HE in Hl. destruct (E !! lookup_key n) as [[i p0]|]; [|discriminate].
    destruct (last (filter (fun n0 => lookup_key n0 = lookup_key n) vs))
      as [n'|] eqn:El.
    + injection Hl as <- <-. reflexivity.
    + apply last_None in El.
      assert (Hin : n ∈ filter (fun n0 => lookup_key n0 = lookup_key n) vs)
        by (apply list_elem_of_filter; auto).
      rewrite El in Hin. inversion Hin.
Qed.

(** The atomic block: it leaves the job and all counters but
    [skipped] alone; when it does not raise, its counts are not
    negative. *)
Lemma bulk_operations_step (C : list products.Product)
    (U : list (nat * products.Product)) (imp imp' : products.CSVImporter)
    (r : products.Exn + Z * Z) :
  Forall (fun p => products.is_active p = true /\ key_of_sku p) C ->
  Forall (fun o => key_of_sku o.2) U ->
  products.bulk_operations C U imp = (imp', r) ->
  import_step imp (products.set_table (products.table imp) imp')
  /\ match r with
     | inr (c, u) => import_step imp imp' /\ 0 <= c /\ 0 <= u
     | inl _ => True
     end.
Proof.
  intros HC HU H. unfold products.bulk_operations in H.
  assert (Hskip : forall n t', 0 <= n ->
    table_step (products.table imp) t' ->
    import_step imp
      (products.set_table t'
         (products.set_stats (products.add_skipped n (products.stats imp))
            imp))).
  { intros n t' Hn Ht. unfold import_step, error_gap. importer_fields.
    split_ands; try reflexivity; try lia. exact Ht. }
  assert (Hsame : forall t', table_step (products.table imp) t' ->
    import_step imp (products.set_table t' imp)).
  { intros t' Ht. unfold import_step, error_gap. importer_fields.
    split_ands; try reflexivity; try lia. exact Ht. }
  destruct C as [|p C].
  - destruct U as [|o U].
    + injection H as <- <-. split; [apply Hsame, table_step_refl|].
      split_ands; [apply import_step_refl | lia | lia].
    + destruct (products.bulk_update (products.table imp) (o :: U))
        as [e|t'] eqn:Eu; injection H as <- <-.
      * split; [apply Hsame, table_step_refl | exact I].
      * split; [apply Hsame, table_step_refl|]. split_ands; try lia.
        apply Hsame. apply (bulk_update_step _ _ _ HU Eu).
  - destruct (products.bulk_create (products.table imp) (p :: C)
                (products.skip_duplicates imp)) as [e|t1] eqn:Ec.
    { injection H as <- <-. split; [apply Hsame, table_step_refl | exact I]. }
    pose proof (bulk_create_step _ _ _ _ HC Ec) as Hc.
    pose proof (table_step_length _ _ Hc) as Hlen.
    cbn [products.table products.set_table] in H.
    set (c := Z.of_nat (length t1) - Z.of_nat (length (products.table imp)))
      in H.
    assert (Hc0 : 0 <= c) by (unfold c; lia).
    destruct (Z.of_nat (length (p :: C)) - c >? 0) eqn:Es.
    + assert (Hsk : 0 <= Z.of_nat (length (p :: C)) - c) by lia.
      destruct U as [|o U].
      * injection H as <- <-.
        split; [apply (Hskip _ _ Hsk), table_step_refl|].
        split_ands; try lia. apply (Hskip _ _ Hsk Hc).
      * cbn [products.table products.set_table products.set_stats] in H.
        destruct (products.bulk_update t1 (o :: U)) as [e|t2] eqn:Eu;
          injection H as <- <-.
        -- split; [apply (Hskip _ _ Hsk), table_step_refl | exact I].
        -- split; [apply (Hskip _ _ Hsk), table_step_refl|].
           split_ands; try lia. apply (Hskip _ _ Hsk).
           eapply table_step_trans; [exact Hc|].
           apply (bulk_update_step _ _ _ HU Eu).
    + destruct U as [|o U].
      * injection H as <- <-.
        split; [apply Hsame, table_step_refl|].
        split_ands; try lia. apply (Hsame _ Hc).
      * cbn [products.table products.set_table] in H.
        destruct (products.bulk_update t1 (o :: U)) as [e|t2] eqn:Eu;
          injection H as <- <-.
        -- split; [apply Hsame, table_step_refl | exact I].
        -- split; [apply Hsame, table_step_refl|].
           split_ands; try lia. apply Hsame.
           eapply table_step_trans; [exact Hc|].
           apply (bulk_update_step _ _ _ HU Eu).
Qed.

(** The fallback. *)
Lemma save_individually_step (C : list products.Product) :
  forall (imp : products.CSVImporter),
    Forall (fun p => products.is_active p = true /\ key_of_sku p) C ->
    import_step imp (products.save_individually C imp).
Proof.
  induction C as [|p C IH]; intros imp HC; simpl.
  - apply import_step_refl.
  - apply Forall_cons in HC as [[Ha _] HC].
    destruct (products.save (products.table imp) p) as [e|t'] eqn:Es.
    + eapply import_step_trans; [|apply (IH _ HC)].
      apply import_step_rejected.
    + eapply import_step_trans; [|apply (IH _ HC)].
      unfold import_step, error_gap. importer_fields.
      split_ands; try reflexivity; try lia.
      apply (save_step _ _ _ Ha Es).
Qed.

(** A chunk, whatever the options of the import: what it may do to
    the importer is an [import_step]. *)
Lemma process_chunk_step (rows : list products.Row)
    (imp : products.CSVImporter) :
  import_step imp (products.process_chunk rows imp).
Proof.
  unfold products.process_chunk.
  destruct rows as [|r rows]; [apply import_step_refl|].
  pose proof (normalize_rows_fst (r :: rows) 0 imp) as Hn1.
  pose proof (normalize_rows_step (r :: rows) 0 imp) as Hn2.
  destruct (products.normalize_rows 0 (r :: rows) imp) as [ns imp1].
  cbn [fst snd] in Hn1, Hn2. subst ns.
  destruct (normalized_of (r :: rows)) as [|n ns] eqn:En; [exact Hn2|].
  rewrite (collect_skus_valid (n :: ns) imp1)
    by (rewrite <- En; apply normalized_valid).
  destruct (products.partition_rows (n :: ns)
              (products.in_bulk (products.table imp1)
                 (skus_lower_of (n :: ns)))) as [[E' C] U] eqn:Hpart.
  destruct (partition_rows_good _ _ _ _ _ Hpart) as [HC HU].
  destruct (products.bulk_operations C (products.deref E' U) imp1)
    as [imp3 res] eqn:Hb.
  destruct (bulk_operations_step _ _ _ _ _ HC HU Hb) as [Hreset Hres].
  eapply import_step_trans; [exact Hn2|].
  destruct res as [e|[c u]].
  - eapply import_step_trans; [exact Hreset|].
    apply (save_individually_step _ _ HC).
  - destruct Hres as (Hs & Hc & Hu).
    eapply import_step_trans; [exact Hs|].
    unfold import_step, error_gap. importer_fields.
    split_ands; try reflexivity; try lia. apply table_step_refl.
Qed.

(** ** The second pass, whatever the options *)

Lemma pass_step_trans (n m : Z) (i1 i2 i3 : products.CSVImporter) :
  pass_step n i1 i2 -> pass_step m i2 i3 -> pass_step (n + m) i1 i3.
Proof.
  intros (A1 & A2 & A3 & A4 & A5 & A6 & A7 & A8 & A9 & A10 & A11 & A12)
         (B1 & B2 & B3 & B4 & B5 & B6 & B7 & B8 & B9 & B10 & B11 & B12).
  unfold pass_step. split_ands; try congruence; try lia.
  - eapply table_step_trans; eassumption.
  - etrans; eassumption.
Qed.

Lemma pass_step_chunk (rows : list products.Row) (imp : products.CSVImporter) :
  pass_step 0 imp (products.update_progress (products.process_chunk rows imp)).
Proof.
  destruct (process_chunk_step rows imp)
    as (A1 & A2 & A3 & A4 & A5 & A6 & A7 & A8 & A9 & A10 & A11 & A12 & A13).
  unfold pass_step, error_gap in *.
  rewrite update_progress_stats, update_progress_table, update_progress_skip,
    update_progress_status, update_progress_total_rows.
  change (error_entries
            (products.upload_job
               (products.update_progress (products.process_chunk rows imp))))
    with (error_entries (products.upload_job (products.process_chunk rows imp))).
  split_ands; try assumption; lia.
Qed.

Lemma update_progress_cache (imp : products.CSVImporter) :
  cache_current (products.update_progress imp).
Proof.
  unfold cache_current, products.update_progress.
  eexists. split; [reflexivity|]. split_ands; reflexivity.
Qed.

Lemma pass_step_read (imp : products.CSVImporter) :
  pass_step 1
    imp (products.set_stats (products.add_processed 1 (products.stats imp)) imp).
Proof.
  unfold pass_step, error_gap. importer_fields.
  split_ands; try reflexivity; try lia. apply table_step_refl.
Qed.

Lemma read_rows_any (rows : list products.Row) :
  forall (chunk : list products.Row) (imp : products.CSVImporter),
    let imp' := products.read_rows rows chunk imp in
    pass_step (Z.of_nat (length rows)) imp imp'
    /\ (chunk <> [] \/ rows <> [] -> synced imp' /\ cache_current imp')
    /\ (chunk = [] -> rows = [] -> imp' = imp).
Proof.
  induction rows as [|r rows IH]; intros chunk imp; cbv zeta.
  - cbn [products.read_rows length]. destruct chunk as [|c chunk].
    + split_ands; [|intros [H|H]; congruence | reflexivity].
      unfold pass_step, error_gap. split_ands; try reflexivity; try lia.
      apply table_step_refl.
    + split_ands; [apply pass_step_chunk | | discriminate].
      intros _. split; [apply update_progress_synced
                       | apply update_progress_cache].
  - cbn [products.read_rows].
    replace (Z.of_nat (length (r :: rows)))
      with (1 + Z.of_nat (length rows)) by (cbn [length]; lia).
    destruct (products.CHUNK_SIZE <=? length (chunk ++ [r]))%nat.
    + match goal with
      | |- context [products.read_rows rows [] ?i] =>
          destruct (IH [] i) as (P & S & E)
      end.
      split_ands; [| | discriminate].
      * eapply pass_step_trans; [apply pass_step_read|].
        replace (Z.of_nat (length rows)) with (0 + Z.of_nat (length rows))
          by lia.
        eapply pass_step_trans; [apply pass_step_chunk | exact P].
      * intros _. destruct rows as [|r' rows].
        -- rewrite (E eq_refl eq_refl).
           split; [apply update_progress_synced
                  | apply update_progress_cache].
        -- apply S. now right.
    + match goal with
      | |- context [products.read_rows rows ?c ?i] =>
          destruct (IH c i) as (P & S & E)
      end.
      split_ands; [| | discriminate].
      * eapply pass_step_trans; [apply pass_step_read | exact P].
      * intros _. apply S. left. now destruct chunk.
Qed.

(** ** The whole import, whatever the options *)

(** X10. An import never removes a product and never changes whether
    one is active, whatever the file, the options and the state of
    the job: every row of the table is still there afterwards, under
    its primary key and with its flag, so the table does not shrink;
    every row that has appeared is active and has the key
    [sku.lower().strip()] of its SKU.  If [sku_lower] was unique
    before the import it is unique after it, also when conflicts are
    not ignored and a chunk falls back to saving one by one; and if
    every key was the key of its SKU, every key still is. *)
Theorem import_keeps_products :
  forall (file : products.CsvFile) (imp : products.CSVImporter),
    let t := products.table imp in
    let t' := products.table (products.import_csv file imp).1 in
    (length t <= length t')%nat
    /\ (forall pk p, t !! pk = Some p ->
          exists p', t' !! pk = Some p'
                     /\ products.is_active p' = products.is_active p)
    /\ (forall pk p', t' !! pk = Some p' -> t !! pk = None ->
          products.is_active p' = true /\ key_of_sku p')
    /\ (unique_skus t -> unique_skus t')
    /\ (keys_consistent t -> keys_consistent t').
Proof.
  intros file imp t t'.
  assert (H : table_step t t').
  { subst t t'. unfold products.import_csv.
    match goal with
    | |- context [match ?h with Some _ => _ | None => _ end] =>
        destruct h as [e|]
    end.
    - apply table_step_refl.
    - cbv zeta. cbn [fst products.table products.set_job].
      match goal with
      | |- context [products.read_rows ?rows [] ?i] =>
          destruct (read_rows_any rows [] i) as ((P & _) & _)
      end.
      exact P. }
  split_ands.
  - apply (table_step_length _ _ H).
  - intros pk p Hp. destruct H as (H & _).
    destruct (H pk p Hp) as (p' & H1 & H2 & _). eauto.
  - apply H.
  - apply H.
  - apply (table_step_consistent _ _ H).
Qed.

(** X11. When an import of a fresh job gets past the header check,
    whatever the options, the job ends [completed] with the counters
    of the statistics the call returns: [processed_rows] and
    [total_rows] are the number of records of the file,
    [success_count] is [created_count + updated_count], no counter is
    negative, and [error_count] is the number of entries of the error
    list. *)
Theorem job_counters_after_import :
  forall (skip : bool) (file : products.CsvFile) (t : list products.Product),
    header_accepted file ->
    let r := import skip file t in
    let j := products.upload_job r.1 in
    products.status j = products.completed
    /\ r.2 = inr (products.stats r.1)
    /\ synced r.1
    /\ products.processed_rows j = Z.of_nat (length (products.records file))
    /\ products.total_rows j = Z.of_nat (length (products.records file))
    /\ products.error_count j = Z.of_nat (length (error_entries j))
    /\ 0 <= products.created_count j /\ 0 <= products.updated_count j
    /\ 0 <= products.skipped_count j /\ 0 <= products.error_count j.
Proof.
  intros skip file t Hh r j. subst r j.
  rewrite (import_accepted skip file t Hh). cbv zeta.
  destruct (read_rows_any (products.records file) []
              (second_pass_start skip file t)) as (P & S & E).
  cbv zeta in P, S, E.
  set (imp' := products.read_rows (products.records file) []
                 (second_pass_start skip file t)) in *.
  destruct P as (_ & _ & P3 & P4 & P5 & P6 & P7 & _ & P9 & P10 & P11 & P12).
  assert (Hs : synced imp').
  { destruct (products.records file) as [|r rows] eqn:Er.
    - rewrite (E eq_refl eq_refl). unfold synced. simpl. split_ands; reflexivity.
    - apply S. now right. }
  destruct Hs as (S1 & S2 & S3 & S4 & S5 & S6).
  unfold error_gap in P7.
  cbn [second_pass_start products.upload_job products.stats products.set_job
       products.set_stats products.init products.set_total_rows
       products.mark_as_processing products.set_status products.new_job
       products.set_total products.no_stats products.total_rows
       products.processed products.total products.created products.updated
       products.skipped products.errors products.status
       products.error_details error_entries from_option id length] in *.
  cbn [fst snd products.upload_job products.set_job products.stats
       products.mark_as_completed products.set_status products.status
       products.processed_rows products.total_rows products.error_count
       products.created_count products.updated_count products.skipped_count
       products.error_details].
  unfold synced.
  cbn [products.upload_job products.set_job products.stats
       products.mark_as_completed products.set_status
       products.processed_rows products.total_rows products.error_count
       products.created_count products.updated_count products.skipped_count
       products.success_count].
  change (error_entries
            (products.mark_as_completed (products.upload_job imp')))
    with (error_entries (products.upload_job imp')).
  split_ands; try reflexivity; try assumption; lia.
Qed.

Lemma job_counters_after_import_witness :
  let r := import false mixed_file [stored "x" "old"] in
  let j := products.upload_job r.1 in
  products.status j = products.completed
  /\ r.2 = inr (products.stats r.1)
  /\ synced r.1
  /\ products.processed_rows j = 4
  /\ products.total_rows j = 4
  /\ products.error_count j = Z.of_nat (length (error_entries j))
  /\ 0 <= products.created_count j /\ 0 <= products.updated_count j
  /\ 0 <= products.skipped_count j /\ 0 <= products.error_count j.
Proof.
  apply (job_counters_after_import false mixed_file [stored "x" "old"]).
  vm_compute. reflexivity.
Defined.

(** X12. The snapshot of the progress in the cache is never that of
    a finished job: after an import that has read at least one
    record, whatever the options, the job is [completed] while the
    cache still says [processing], with all the records processed and
    the final counts of created and updated products and of errors. *)
Theorem cache_after_import :
  forall (skip : bool) (file : products.CsvFile) (t : list products.Product),
    header_accepted file ->
    products.records file <> [] ->
    let imp' := (import skip file t).1 in
    let j := products.upload_job imp' in
    products.status j = products.completed
    /\ exists c,
         products.cache imp' = Some c
         /\ products.p_status c = products.processing
         /\ products.p_processed c = Z.of_nat (length (products.records file))
         /\ products.p_total c = Z.of_nat (length (products.records file))
         /\ products.p_created c = products.created_count j
         /\ products.p_updated c = products.updated_count j
         /\ products.p_errors c = products.error_count j.
Proof.
  intros skip file t Hh Hne imp' j. subst imp' j.
  rewrite (import_accepted skip file t Hh). cbv zeta.
  destruct (read_rows_any (products.records file) []
              (second_pass_start skip file t)) as (P & S & _).
  cbv zeta in P, S.
  set (imp' := products.read_rows (products.records file) []
                 (second_pass_start skip file t)) in *.
  destruct P as (_ & _ & P3 & P4 & P5 & _).
  destruct (S (or_intror Hne)) as [Hs (c & C0 & C1 & C2 & C3 & C4 & C5 & C6)].
  destruct Hs as (S1 & S2 & S3 & S4 & S5 & S6).
  cbn [second_pass_start products.upload_job products.stats products.set_job
       products.set_stats products.init products.set_total_rows
       products.mark_as_processing products.set_status products.new_job
       products.set_total products.no_stats products.total_rows
       products.processed products.total products.status] in P3, P4, P5.
  cbn [fst products.upload_job products.set_job products.cache
       products.mark_as_completed products.set_status products.status
       products.error_count products.created_count products.updated_count].
  split; [reflexivity|]. exists c.
  split_ands; try assumption; try congruence; lia.
Qed.

Lemma cache_after_import_witness :
  let imp' := (import false mixed_file [stored "x" "old"]).1 in
  let j := products.upload_job imp' in
  products.status j = products.completed
  /\ exists c,
       products.cache imp' = Some c
       /\ products.p_status c = products.processing
       /\ products.p_processed c = 4
       /\ products.p_total c = 4
       /\ products.p_created c = products.created_count j
       /\ products.p_updated c = products.updated_count j
       /\ products.p_errors c = products.error_count j.
Proof.
  apply (cache_after_import false mixed_file [stored "x" "old"]).
  - vm_compute. reflexivity.
  - discriminate.
Defined.

(** ** Rows that restate the table *)

Lemma same_key_same_product (t : list products.Product)
    (q q' : products.Product) :
  unique_skus t -> q ∈ t -> q' ∈ t ->
  products.sku_lower q = products.sku_lower q' -> q = q'.
Proof.
  intros Hu Hq Hq' Hk.
  apply list_elem_of_lookup in Hq as [i Hi].
  apply list_elem_of_lookup in Hq' as [j Hj].
  assert (Hki : keys t !! i = Some (products.sku_lower q))
    by (unfold keys; now rewrite list_lookup_fmap, Hi).
  assert (Hkj : keys t !! j = Some (products.sku_lower q))
    by (unfold keys; now rewrite list_lookup_fmap, Hj, Hk).
  pose proof (NoDup_lookup _ _ _ _ Hu Hki Hkj) as ->.
  congruence.
Qed.

Lemma restates_found (t : list products.Product) (n : gmap string string) :
  restates t n ->
  lookup_key n ∈ keys t /\ str.strip (lookup_key n) = lookup_key n.
Proof.
  intros (Hs & q & Hq & Hp).
  assert (Hk : lookup_key n = create_key n)
    by (symmetry; now apply clean_lookup_key).
  split.
  - rewrite Hk. unfold create_key.
    replace (str.strip (str.lower (products.item "sku" n)))
      with (products.sku_lower q) by now rewrite <- Hp.
    unfold keys. now apply list_elem_of_fmap_2.
  - rewrite Hk. unfold create_key. apply strip_idemp.
Qed.

(** A chunk whose valid rows restate products of the table leaves
    the table as it is. *)
Lemma process_chunk_restating (rows : list products.Row)
    (imp : products.CSVImporter) :
  products.skip_duplicates imp = true ->
  unique_skus (products.table imp) ->
  (forall n, n ∈ valid_rows_of rows -> restates (products.table imp) n) ->
  products.table (products.process_chunk rows imp) = products.table imp.
Proof.
  intros Hskip Hu Hall.
  destruct (process_chunk_ignoring_shape rows imp Hskip Hu)
    as [(_ & Ht & _)|(E' & C & U & N & Hp & Hc & Hb & _)]; [exact Ht|].
  set (t := products.table imp) in *.
  set (vs := valid_rows_of rows) in *.
  destruct (upsert_keys t Hu vs E' C U Hp N _ Hc Hb) as (_ & _ & HN).
  destruct HN as [-> _]; [intros n Hn; apply restates_found, Hall, Hn|].
  rewrite app_nil_r in Hb.
  pose proof (deref_keeps_keys t vs E' C U Hp []) as Hk.
  rewrite app_nil_r in Hk.
  destruct (bulk_update_ok _ t Hu Hk) as (t' & Ht' & _ & Hrows).
  rewrite Hb in Ht'. injection Ht' as Ht'. rewrite Ht'.
  apply list_eq. intros j. rewrite Hrows.
  destruct (t !! j) as [q|] eqn:Hj.
  - rewrite (deref_on_row t Hu vs E' C U Hp j q Hj).
    destruct (last (filter (fun n => lookup_key n = products.sku_lower q) vs))
      as [n|] eqn:El; [|reflexivity].
    case_decide as Hs; [|reflexivity].
    cbn [fmap option_fmap option_map snd]. f_equal.
    assert (Hn : n ∈ filter (fun n => lookup_key n = products.sku_lower q) vs)
      by (eapply last_Some_elem_of, El).
    apply list_elem_of_filter in Hn as [Hkn Hn].
    destruct (Hall n Hn) as (Hst & q' & Hq' & Hpq).
    assert (q' = q) as ->.
    { apply (same_key_same_product t); [exact Hu | exact Hq' | |].
      - eapply list_elem_of_lookup_2, Hj.
      - rewrite <- Hkn, <- Hpq. cbn [products.sku_lower product_of].
        fold (create_key n). now apply clean_lookup_key. }
    rewrite Hpq. now destruct q.
  - now destruct (last (filter (fun o => o.1 = j) (products.deref E' U))).
Qed.

Lemma read_rows_restating (rows : list products.Row) :
  forall (chunk : list products.Row) (imp : products.CSVImporter),
    products.skip_duplicates imp = true ->
    unique_skus (products.table imp) ->
    (forall n, n ∈ valid_rows_of (chunk ++ rows) ->
       restates (products.table imp) n) ->
    products.table (products.read_rows rows chunk imp) = products.table imp.
Proof.
  induction rows as [|r rows IH]; intros chunk imp Hskip Hu Hall.
  - cbn [products.read_rows]. rewrite app_nil_r in Hall.
    destruct chunk as [|c chunk]; [reflexivity|].
    rewrite update_progress_table.
    now apply process_chunk_restating.
  - cbn [products.read_rows].
    set (imp1 := products.set_stats
                   (products.add_processed 1 (products.stats imp)) imp).
    assert (Hskip1 : products.skip_duplicates imp1 = true) by exact Hskip.
    assert (Hu1 : unique_skus (products.table imp1)) by exact Hu.
    replace (chunk ++ r :: rows) with ((chunk ++ [r]) ++ rows) in Hall
      by now rewrite <- app_assoc.
    rewrite valid_rows_of_app in Hall.
    destruct (products.CHUNK_SIZE <=? length (chunk ++ [r]))%nat.
    + assert (Ht : products.table
                     (products.process_chunk (chunk ++ [r]) imp1)
                   = products.table imp).
      { apply (process_chunk_restating (chunk ++ [r]) imp1 Hskip1 Hu1).
        intros n Hn. apply Hall, elem_of_app. now left. }
      destruct (process_chunk_ignoring (chunk ++ [r]) imp1 Hskip1 Hu1)
        as (_ & _ & _ & _ & _ & _ & Hs & _).
      rewrite IH.
      * rewrite update_progress_table. exact Ht.
      * exact Hs.
      * rewrite update_progress_table, Ht. exact Hu.
      * rewrite update_progress_table, Ht. intros n Hn.
        apply Hall, elem_of_app. now right.
    + rewrite IH; [reflexivity | exact Hskip1 | exact Hu1 |].
      intros n Hn. rewrite valid_rows_of_app in Hn. exact (Hall n Hn).
Qed.

(** An import that ignores conflicts, of a file whose valid rows
    restate products of the table. *)
Lemma import_restating (file : products.CsvFile)
    (t : list products.Product) :
  unique_skus t -> header_accepted file ->
  (forall n, n ∈ valid_rows_of (products.records file) -> restates t n) ->
  let imp := (import true file t).1 in
  let j := products.upload_job imp in
  products.table imp = t
  /\ products.status j = products.completed
  /\ products.created_count j = 0
  /\ products.updated_count j
     = Z.of_nat (length (valid_rows_of (products.records file)))
  /\ products.skipped_count j
     = Z.of_nat (length (products.records file))
       - Z.of_nat (length (valid_rows_of (products.records file))).
Proof.
  intros Hu Hh Hall. cbv zeta.
  rewrite (import_accepted true file t Hh). cbv zeta.
  destruct (second_pass file t Hu) as (_ & _ & Hacc & _ & _ & Hs).
  destruct (read_rows_keys (products.records file) []
              (second_pass_start true file t) eq_refl Hu) as (_ & _ & K3).
  destruct K3 as [Kc Ku].
  { intros n Hn. apply restates_found, Hall, Hn. }
  pose proof (read_rows_restating (products.records file) []
                (second_pass_start true file t) eq_refl Hu Hall) as Ht.
  destruct Hs as (_ & S2 & S3 & S4 & _).
  cbn [fst products.upload_job products.set_job products.mark_as_completed
       products.set_status products.status products.created_count
       products.updated_count products.skipped_count products.table].
  cbn [app] in Ku. unfold accounted in Hacc.
  split_ands.
  - exact Ht.
  - reflexivity.
  - rewrite S2, Kc. reflexivity.
  - rewrite S3, Ku. reflexivity.
  - rewrite S4.
    change (products.created (products.stats (second_pass_start true file t)))
      with 0 in Kc.
    change (products.updated (products.stats (second_pass_start true file t)))
      with 0 in Ku.
    lia.
Qed.

(** ** Notifications *)

(** The calls [trigger_webhooks] queues. *)
Lemma trigger_webhooks_calls (event_type : string)
    (payload : list (string * webhooks_views.Value))
    (tbl : gmap nat webhooks.Webhook) :
  NoDup (products_tasks.trigger_webhooks event_type payload tbl)
  /\ (forall c, c ∈ products_tasks.trigger_webhooks event_type payload tbl
                <-> exists id, c = products_tasks.send_webhook_delay id payload
                               /\ subscribed event_type id tbl).
Proof.
  unfold products_tasks.trigger_webhooks. split.
  - apply NoDup_fmap_2_strong.
    + intros [i w] [j w'] Hi Hj Heq. simpl in Heq. injection Heq as ->.
      apply list_elem_of_filter in Hi as [_ Hi], Hj as [_ Hj].
      apply elem_of_map_to_list in Hi, Hj. congruence.
    + apply NoDup_filter, NoDup_map_to_list.
  - intros c. rewrite list_elem_of_fmap. split.
    + intros ([i w] & -> & Hin).
      apply list_elem_of_filter in Hin as [[He Ha] Hin].
      apply elem_of_map_to_list in Hin. exists i. split; [reflexivity|].
      exists w. auto.
    + intros (i & -> & w & Hw & He & Ha). exists (i, w).
      split; [reflexivity|]. apply list_elem_of_filter.
      split; [auto | now apply elem_of_map_to_list].
Qed.

(** X13. [trigger_webhooks] queues one delivery, with the payload it
    was given, for each webhook of the table that is active and
    listens to the event, and no other: a webhook that is switched
    off or listens to another event gets none, and none gets two. *)
Theorem trigger_webhooks_selects :
  forall (event_type : string)
         (payload : list (string * webhooks_views.Value))
         (tbl : gmap nat webhooks.Webhook),
    let calls := products_tasks.trigger_webhooks event_type payload tbl in
    NoDup calls
    /\ (forall c, c ∈ calls
                  <-> exists id, c = products_tasks.send_webhook_delay id payload
                                 /\ subscribed event_type id tbl)
    /\ (forall id w, tbl !! id = Some w -> webhooks.is_active w = false ->
          products_tasks.send_webhook_delay id payload ∉ calls)
    /\ (forall id w, tbl !! id = Some w ->
          webhooks.event_type w <> event_type ->
          products_tasks.send_webhook_delay id payload ∉ calls).
Proof.
  intros e payload tbl calls. subst calls.
  destruct (trigger_webhooks_calls e payload tbl) as [Hnd Hin].
  split_ands; [exact Hnd | exact Hin | |].
  - intros id w Hw Ha Hc. apply Hin in Hc as (id' & Heq & w' & Hw' & _ & Ha').
    injection Heq as <-. congruence.
  - intros id w Hw He Hc. apply Hin in Hc as (id' & Heq & w' & Hw' & He' & _).
    injection Heq as <-. congruence.
Qed.

(** The end of [import_csv] and the status of its job. *)
Lemma import_csv_status (file : products.CsvFile) (imp : products.CSVImporter) :
  match (products.import_csv file imp).2 with
  | inr s =>
      header_accepted file
      /\ s = products.stats (products.import_csv file imp).1
      /\ products.status (products.upload_job (products.import_csv file imp).1)
         = products.completed
  | inl e =>
      ~ header_accepted file
      /\ products.status (products.upload_job (products.import_csv file imp).1)
         = products.failed
      /\ products.table (products.import_csv file imp).1 = products.table imp
      /\ exists entries,
           products.error_details
             (products.upload_job (products.import_csv file imp).1)
           = Some (entries ++ [ {| products.row := 0;
                                   products.error := products.exn_str e |} ])
  end.
Proof.
  unfold products.import_csv, header_accepted.
  destruct (products.fieldnames file) as [[|h hs]|];
    try (cbn [snd fst]; split_ands; [exact I | reflexivity | reflexivity]).
  destruct (products.validate_headers (h :: hs)) as [[] msg] eqn:Ev.
  - cbn [snd fst]. split_ands; reflexivity.
  - cbn [snd fst products.exn_str]. split_ands.
    + simpl. discriminate.
    + unfold products.mark_as_failed.
      destruct (str.truthy msg); reflexivity.
    + reflexivity.
    + unfold products.validate_headers in Ev.
      rewrite missing_column_spec in Ev.
      repeat case_bool_decide; try discriminate; injection Ev as <-;
        eexists; reflexivity.
Qed.

(** X14. A run of [process_csv_import] queues exactly one
    notification, and it tells how the run ended: [upload.completed],
    with the name of the file and the statistics the task returns,
    when the import returns, the job then being [completed];
    [upload.failed], with the text of the exception the task raises,
    when the import raises, the job then being [failed] and the
    product table as it was, or when there is no job of that key, the
    tables then being as they were.  No other job is touched. *)
Theorem process_csv_import_notifies_once :
  forall (id : nat) (options : option (gmap string bool))
         (jobs : gmap nat products_tasks.JobRow)
         (table : list products.Product),
    let run := products_tasks.process_csv_import id options jobs table in
    (forall j, j <> id ->
       products_tasks.jobs run !! j = jobs !! j)
    /\ ((exists stats upload_job,
           products_tasks.result run = inr stats
           /\ jobs !! id = Some upload_job
           /\ products_tasks.queued run
              = [products_tasks.trigger_webhooks_delay "upload.completed"
                   [("upload_job_id", webhooks_views.Int (Z.of_nat id));
                    ("file_name",
                     webhooks_views.Str (products_tasks.file_name upload_job));
                    ("stats",
                     webhooks_views.Dict (products_tasks.stats_dict stats))]]
           /\ exists row, products_tasks.jobs run !! id = Some row
                /\ products.status (products_tasks.job row)
                   = products.completed)
        \/ (exists e,
              products_tasks.result run = inl e
              /\ products_tasks.queued run
                 = [products_tasks.trigger_webhooks_delay "upload.failed"
                      [("upload_job_id", webhooks_views.Int (Z.of_nat id));
                       ("error",
                        webhooks_views.Str (products_tasks.failure_str e))]]
              /\ products_tasks.table run = table
              /\ match jobs !! id with
                 | None => products_tasks.jobs run = jobs
                 | Some _ =>
                     exists row, products_tasks.jobs run !! id = Some row
                       /\ products.status (products_tasks.job row)
                          = products.failed
                 end)).
Proof.
  intros id options jobs table run. subst run.
  unfold products_tasks.process_csv_import.
  destruct (jobs !! id) as [upload_job|] eqn:Hj.
  2:{ cbn [products_tasks.jobs products_tasks.result products_tasks.queued
           products_tasks.table]. split; [reflexivity|]. right.
      eexists. split_ands; reflexivity. }
  pose proof (import_csv_status (products_tasks.file upload_job)
                (products.init (products_tasks.job upload_job)
                   (products_tasks.skip_duplicates_of options) table)) as H.
  destruct (products.import_csv _ _) as [importer [e|stats]];
    cbn [fst snd] in H.
  - destruct H as (_ & Hs & Ht & _).
    cbn [products_tasks.jobs products_tasks.result products_tasks.queued
         products_tasks.table].
    split; [intros j Hne; now rewrite lookup_insert_ne by congruence|].
    right. exists (products_tasks.ImportError e).
    split_ands; try reflexivity; [exact Ht|].
    eexists. rewrite lookup_insert_eq. split; [reflexivity | exact Hs].
  - destruct H as (_ & _ & Hs).
    cbn [products_tasks.jobs products_tasks.result products_tasks.queued
         products_tasks.table].
    split; [intros j Hne; now rewrite lookup_insert_ne by congruence|].
    left. exists stats, upload_job. split_ands; try reflexivity.
    eexists. rewrite lookup_insert_eq. split; [reflexivity | exact Hs].
Qed.

Lemma triggered_single (event_type : string)
    (payload : list (string * webhooks_views.Value))
    (tbl : gmap nat webhooks.Webhook) :
  triggered [products_tasks.trigger_webhooks_delay event_type payload] tbl
  = products_tasks.trigger_webhooks event_type payload tbl.
Proof.
  unfold triggered. cbn [mbind list_bind]. apply app_nil_r.
Qed.

(** X15. From the run of an import to the deliveries: when the
    worker runs what [process_csv_import] has queued, a webhook gets
    a delivery exactly when it is active and listens to the event of
    the way the job ended, [upload.completed] for a job that is
    [completed] and [upload.failed] for one that is not; and no
    webhook gets more than one. *)
Theorem import_notifies_subscribers :
  forall (id : nat) (options : option (gmap string bool))
         (jobs : gmap nat products_tasks.JobRow)
         (table : list products.Product)
         (tbl : gmap nat webhooks.Webhook)
         (upload_job : products_tasks.JobRow),
    jobs !! id = Some upload_job ->
    let run := products_tasks.process_csv_import id options jobs table in
    let calls := triggered (products_tasks.queued run) tbl in
    exists row event,
      products_tasks.jobs run !! id = Some row
      /\ event = (if decide (products.status (products_tasks.job row)
                             = products.completed)
                  then "upload.completed" else "upload.failed")
      /\ NoDup calls
      /\ (forall c, c ∈ calls ->
            exists wid payload,
              c = products_tasks.send_webhook_delay wid payload)
      /\ (forall wid,
            (exists payload,
               products_tasks.send_webhook_delay wid payload ∈ calls)
            <-> subscribed event wid tbl).
Proof.
  intros id options jobs table tbl upload_job Hj run calls.
  subst run calls. unfold products_tasks.process_csv_import. rewrite Hj.
  pose proof (import_csv_status (products_tasks.file upload_job)
                (products.init (products_tasks.job upload_job)
                   (products_tasks.skip_duplicates_of options) table)) as H.
  assert (Hgen : forall ev payload row,
    ev = (if decide (products.status (products_tasks.job row)
                     = products.completed)
          then "upload.completed" else "upload.failed") ->
    NoDup (triggered [products_tasks.trigger_webhooks_delay ev payload] tbl)
    /\ (forall c,
          c ∈ triggered [products_tasks.trigger_webhooks_delay ev payload] tbl ->
          exists wid payload',
            c = products_tasks.send_webhook_delay wid payload')
    /\ (forall wid,
          (exists payload',
             products_tasks.send_webhook_delay wid payload'
             ∈ triggered [products_tasks.trigger_webhooks_delay ev payload] tbl)
          <-> subscribed
                (if decide (products.status (products_tasks.job row)
                            = products.completed)
                 then "upload.completed" else "upload.failed") wid tbl)).
  { intros ev payload row ->.
    rewrite triggered_single.
    destruct (trigger_webhooks_calls
                (if decide (products.status (products_tasks.job row)
                            = products.completed)
                 then "upload.completed" else "upload.failed")
                payload tbl) as [Hnd Hin].
    split_ands.
    - exact Hnd.
    - intros c Hc. apply Hin in Hc as (wid & -> & _). eauto.
    - intros wid. split.
      + intros (p & Hp). apply Hin in Hp as (wid' & Heq & Hs).
        injection Heq as -> _. exact Hs.
      + intros Hs. exists payload. apply Hin. eauto. }
  destruct (products.import_csv _ _) as [importer [e|stats]];
    cbn [fst snd] in H;
    cbn [products_tasks.jobs products_tasks.queued].
  - destruct H as (_ & Hs & _).
    eexists _, _. rewrite lookup_insert_eq.
    split; [reflexivity|]. split; [reflexivity|].
    apply Hgen. cbn [products_tasks.job]. rewrite Hs.
    rewrite decide_False by discriminate. reflexivity.
  - destruct H as (_ & _ & Hs).
    eexists _, _. rewrite lookup_insert_eq.
    split; [reflexivity|]. split; [reflexivity|].
    apply Hgen. cbn [products_tasks.job]. rewrite Hs.
    rewrite decide_True by reflexivity. reflexivity.
Qed.

Lemma import_notifies_subscribers_witness :
  let run := products_tasks.process_csv_import 3 None one_job [] in
  let calls := triggered (products_tasks.queued run) two_webhooks in
  exists row event,
    products_tasks.jobs run !! 3%nat = Some row
    /\ event = (if decide (products.status (products_tasks.job row)
                           = products.completed)
                then "upload.completed" else "upload.failed")
    /\ NoDup calls
    /\ (forall c, c ∈ calls ->
          exists wid payload,
            c = products_tasks.send_webhook_delay wid payload)
    /\ (forall wid,
          (exists payload,
             products_tasks.send_webhook_delay wid payload ∈ calls)
          <-> subscribed event wid two_webhooks).
Proof.
  apply (import_notifies_subscribers 3 None one_job [] two_webhooks
           mixed_upload).
  reflexivity.
Defined.

(** ** The upload view *)

Lemma endswith_spec (suffix s : string) :
  products_views.endswith suffix s = true
  <-> exists stem, s = stem +:+ suffix.
Proof.
  induction s as [|c s IH]; cbn [products_views.endswith].
  - rewrite orb_false_r. split.
    + intros H. apply String.eqb_eq in H. subst. now exists "".
    + intros [[|c stem] H].
      * change ("" +:+ suffix) with suffix in H. subst suffix.
        apply String.eqb_refl.
      * change (String c stem +:+ suffix)
          with (String c (stem +:+ suffix)) in H. discriminate.
  - rewrite orb_true_iff, IH. split.
    + intros [H | [stem ->]].
      * apply String.eqb_eq in H. subst. now exists "".
      * now exists (String c stem).
    + intros [[|d stem] H].
      * left. change ("" +:+ suffix) with suffix in H. subst suffix.
        apply String.eqb_refl.
      * right. change (String d stem +:+ suffix)
          with (String d (stem +:+ suffix)) in H.
        injection H as -> ->. now exists stem.
Qed.

(** X16. [upload_csv] creates a job and queues an import exactly
    for a POST that brings a file whose name ends in [.csv], in
    these very letters.  It then creates one job, pending and with
    all counters 0, and queues the notification [upload.started] and
    the import of that job, in this order; the import is told to
    ignore conflicts exactly when the field [skip_duplicates] of the
    form is the word [true], so the default of the importer, to
    ignore them, is never what an upload through the view gets for a
    form without the field.  Any other POST is answered with status
    400 and creates and queues nothing, and so does a request that is
    no POST, which gets the upload page. *)
Theorem upload_csv_starts_import :
  forall (request : products_views.UploadRequest) (job_id : nat),
    let r := products_views.upload_csv request job_id in
    let accepted :=
      products_views.method request = "POST"
      /\ exists stem, products_views.csv_file request = Some (stem +:+ ".csv") in
    (accepted ->
       exists name options,
         products_views.csv_file request = Some name
         /\ r = (webhooks_views.Json 200
                   [("success", webhooks_views.Bool true);
                    ("job_id", webhooks_views.Int (Z.of_nat job_id))],
                 Some (job_id, products.new_job),
                 [products_tasks.trigger_webhooks_delay "upload.started"
                    [("job_id", webhooks_views.Int (Z.of_nat job_id));
                     ("file_name", webhooks_views.Str name)];
                  products_tasks.process_csv_import_delay job_id options])
         /\ products_tasks.skip_duplicates_of (Some options)
            = bool_decide (products_views.POST request !! "skip_duplicates"
                           = Some "true"))
    /\ (~ accepted ->
        r.1.2 = None /\ r.2 = []
        /\ (products_views.method request = "POST" ->
            exists msg,
              r.1.1 = webhooks_views.Json 400
                        [("error", webhooks_views.Str msg)])
        /\ (products_views.method request <> "POST" ->
            r.1.1 = webhooks_views.Render "products/upload.html")).
Proof.
  intros request job_id r accepted. subst r accepted.
  unfold products_views.upload_csv.
  destruct (String.eqb (products_views.method request) "POST") eqn:Em.
  - apply String.eqb_eq in Em.
    destruct (products_views.csv_file request) as [name|] eqn:Ef.
    + destruct (negb (str.truthy name)) eqn:Et.
      * assert (name = "") as -> by (destruct name; [reflexivity|discriminate]).
        split.
        -- intros (_ & stem & H). injection H as H.
           destruct stem; discriminate.
        -- intros _. cbn [fst snd]. split_ands; try reflexivity; [eauto|].
           intros H. contradiction.
      * destruct (negb (products_views.endswith ".csv" name)) eqn:Ee.
        -- split.
           ++ intros (_ & stem & H). injection H as ->.
              apply negb_true_iff in Ee.
              assert (products_views.endswith ".csv" (stem +:+ ".csv") = true)
                by (apply endswith_spec; eauto).
              congruence.
           ++ intros _. cbn [fst snd]. split_ands; try reflexivity; [eauto|].
              intros H. contradiction.
        -- split.
           ++ intros _. eexists _, _. split; [reflexivity|].
              split; [reflexivity|].
              unfold products_tasks.skip_duplicates_of.
              cbn [from_option id].
              rewrite lookup_insert_ne by discriminate.
              rewrite lookup_insert_eq. reflexivity.
           ++ intros Hn. exfalso. apply Hn. split; [exact Em|].
              apply negb_false_iff, endswith_spec in Ee as [stem ->]. eauto.
    + split.
      * intros (_ & stem & H). discriminate.
      * intros _. cbn [fst snd]. split_ands; try reflexivity; [eauto|].
        intros H. contradiction.
  - apply String.eqb_neq in Em. split.
    + intros (H & _). contradiction.
    + intros _. cbn [fst snd]. split_ands; try reflexivity.
      intros H. contradiction.
Qed.

(** ** The status of an upload *)

Lemma upload_status_errors (j : products.UploadJob) :
  match products_views.errors j with
  | [] => []
  | l => take 10 l
  end
  = take 10 (products.error <$> error_entries j).
Proof.
  unfold products_views.errors, error_entries.
  destruct (products.error_details j) as [[|e l]|]; reflexivity.
Qed.

(** X17. What [upload_status] answers for the job of an import that
    got past the header check, whatever its options: the status
    [completed], the number of records of the file as [total_rows] and
    as [processed_rows], the number of entries of the error list as
    [error_count], and as [errors] the messages of the first ten
    entries, in the order they were recorded, so that the list shown
    never holds more than ten messages and holds fewer than
    [error_count] tells as soon as more than ten rows were in error. *)
Theorem upload_status_after_import :
  forall (skip : bool) (file : products.CsvFile) (t : list products.Product),
    header_accepted file ->
    let j := products.upload_job (import skip file t).1 in
    let n := Z.of_nat (length (products.records file)) in
    let shown := take 10 (products.error <$> error_entries j) in
    products_views.upload_status j
    = [("status", webhooks_views.Str "completed");
       ("progress_percentage",
        webhooks_views.Int (products.progress_percentage j));
       ("total_rows", webhooks_views.Int n);
       ("processed_rows", webhooks_views.Int n);
       ("created_count", webhooks_views.Int (products.created_count j));
       ("updated_count", webhooks_views.Int (products.updated_count j));
       ("skipped_count", webhooks_views.Int (products.skipped_count j));
       ("error_count",
        webhooks_views.Int (Z.of_nat (length (error_entries j))));
       ("errors", webhooks_views.Strs shown)]
    /\ Z.of_nat (length shown) = Z.min 10 (products.error_count j).
Proof.
  intros skip file t Hh j n shown. subst n shown.
  assert (H : products.status j = products.completed
              /\ products.processed_rows j
                 = Z.of_nat (length (products.records file))
              /\ products.total_rows j
                 = Z.of_nat (length (products.records file))
              /\ products.error_count j
                 = Z.of_nat (length (error_entries j))).
  { subst j. rewrite (import_accepted skip file t Hh). cbv zeta.
    destruct (read_rows_any (products.records file) []
                (second_pass_start skip file t)) as (P & S & E).
    cbv zeta in P, S, E.
    set (imp' := products.read_rows (products.records file) []
                   (second_pass_start skip file t)) in *.
    destruct P as (_ & _ & P3 & _ & _ & P6 & P7 & _).
    assert (Hs : synced imp').
    { destruct (products.records file) as [|r rows] eqn:Er.
      - rewrite (E eq_refl eq_refl). unfold synced. simpl.
        split_ands; reflexivity.
      - apply S. now right. }
    destruct Hs as (S1 & _ & _ & _ & S5 & _).
    unfold error_gap in P7.
    cbn [second_pass_start products.upload_job products.stats products.set_job
         products.set_stats products.init products.set_total_rows
         products.mark_as_processing products.set_status products.new_job
         products.set_total products.no_stats products.total_rows
         products.processed products.errors
         products.error_details error_entries from_option id length]
      in P3, P6, P7.
    cbn [fst products.upload_job products.set_job].
    change (error_entries
              (products.mark_as_completed (products.upload_job imp')))
      with (error_entries (products.upload_job imp')).
    cbn [products.mark_as_completed products.set_status products.status
         products.processed_rows products.total_rows products.error_count].
    split_ands; [reflexivity | lia | lia | ].
    unfold error_entries in *. lia. }
  destruct H as (H1 & H2 & H3 & H4).
  unfold products_views.upload_status.
  rewrite upload_status_errors, H1, H2, H3, H4.
  split; [reflexivity|].
  rewrite length_take, length_fmap. lia.
Qed.

Lemma upload_status_after_import_witness :
  let j := products.upload_job (import false mixed_file [stored "x" "old"]).1 in
  let shown := take 10 (products.error <$> error_entries j) in
  products_views.upload_status j
  = [("status", webhooks_views.Str "completed");
     ("progress_percentage",
      webhooks_views.Int (products.progress_percentage j));
     ("total_rows", webhooks_views.Int 4);
     ("processed_rows", webhooks_views.Int 4);
     ("created_count", webhooks_views.Int (products.created_count j));
     ("updated_count", webhooks_views.Int (products.updated_count j));
     ("skipped_count", webhooks_views.Int (products.skipped_count j));
     ("error_count",
      webhooks_views.Int (Z.of_nat (length (error_entries j))));
     ("errors", webhooks_views.Strs shown)]
  /\ Z.of_nat (length shown) = Z.min 10 (products.error_count j).
Proof.
  apply (upload_status_after_import false mixed_file [stored "x" "old"]).
  vm_compute. reflexivity.
Defined.

(** ** Bulk operations of the product list *)

Lemma update_is_active_lookup (b : bool) (ids : list nat)
    (rows : products_tasks.Rows) (i : nat) :
  (products_views.update_is_active b ids rows).1 !! i
  = (fun r =>
       if bool_decide (r.1 ∈ ids)
       then (r.1, {| products.sku := products.sku r.2;
                     products.sku_lower := products.sku_lower r.2;
                     products.name := products.name r.2;
                     products.description := products.description r.2;
                     products.is_active := b |})
       else r) <$> rows !! i.
Proof. unfold products_views.update_is_active. cbn [fst]. apply list_lookup_fmap. Qed.

Lemma update_is_active_keys (b : bool) (ids : list nat)
    (rows : products_tasks.Rows) :
  (products_views.update_is_active b ids rows).1.*1 = rows.*1.
Proof.
  unfold products_views.update_is_active. cbn [fst].
  induction rows as [|[pk p] rows IH]; [reflexivity|].
  rewrite !fmap_cons, IH. f_equal. cbn [fst]. now case_bool_decide.
Qed.

Lemma update_is_active_selected (b : bool) (ids : list nat)
    (rows : products_tasks.Rows) :
  products_tasks.filter_id_in ids (products_views.update_is_active b ids rows).1
  = (products_views.update_is_active b ids
       (products_tasks.filter_id_in ids rows)).1.
Proof.
  unfold products_views.update_is_active, products_tasks.filter_id_in.
  cbn [fst]. induction rows as [|[pk p] rows IH]; [reflexivity|].
  rewrite fmap_cons. cbn [fst]. destruct (decide (pk ∈ ids)) as [Hin|Hin].
  - rewrite bool_decide_eq_true_2 by exact Hin.
    rewrite !(filter_cons_True (fun r : nat * products.Product => r.1 ∈ ids))
      by exact Hin.
    rewrite fmap_cons. cbn [fst].
    rewrite bool_decide_eq_true_2 by exact Hin. f_equal. exact IH.
  - rewrite bool_decide_eq_false_2 by exact Hin.
    rewrite !(filter_cons_False (fun r : nat * products.Product => r.1 ∈ ids))
      by exact Hin.
    exact IH.
Qed.

Lemma update_is_active_skus (b : bool) (ids : list nat)
    (rows : products_tasks.Rows) :
  (fun r => products.sku r.2) <$> (products_views.update_is_active b ids rows).1
  = (fun r => products.sku r.2) <$> rows.
Proof.
  unfold products_views.update_is_active. cbn [fst].
  rewrite <- list_fmap_compose. apply list_fmap_ext.
  intros _ [pk p] _. simpl. now case_bool_decide.
Qed.

Lemma update_is_active_twice (b b' : bool) (ids : list nat)
    (rows : products_tasks.Rows) :
  (products_views.update_is_active b ids
     (products_views.update_is_active b' ids rows).1).1
  = (products_views.update_is_active b ids rows).1.
Proof.
  unfold products_views.update_is_active. cbn [fst].
  rewrite <- list_fmap_compose. apply list_fmap_ext.
  intros _ [pk p] _. cbn [compose fst snd].
  destruct (decide (pk ∈ ids)) as [Hin|Hin].
  - rewrite (bool_decide_eq_true_2 _ Hin). cbn [fst snd].
    rewrite (bool_decide_eq_true_2 _ Hin). reflexivity.
  - rewrite (bool_decide_eq_false_2 _ Hin). cbn [fst snd].
    rewrite (bool_decide_eq_false_2 _ Hin). reflexivity.
Qed.

Lemma bulk_set_active_unfold (b : bool) (ids : list nat)
    (rows : products_tasks.Rows) :
  bulk_set_active b ids rows
  = let n := products_tasks.count (products_tasks.filter_id_in ids rows) in
    ((products_views.update_is_active b ids rows).1,
     webhooks_views.Json 200
       [("success", webhooks_views.Bool true); ("count", webhooks_views.Int n)],
     if n >? 0
     then [products_tasks.trigger_webhooks_delay "product.updated"
             [("action", webhooks_views.Str (bulk_action b));
              ("count", webhooks_views.Int n);
              ("product_ids", webhooks_views.Ids ids);
              ("skus",
               webhooks_views.Strs
                 (take 100 ((fun r => products.sku r.2)
                            <$> products_tasks.filter_id_in ids rows)))]]
     else []).
Proof. destruct b; reflexivity. Qed.

(** X18. [bulk_activate] and [bulk_deactivate] touch the flag
    [is_active] and nothing else: the rows, their order, their keys,
    SKUs, names and descriptions are as before, the flag of a row
    whose key is among [product_ids] is set and that of any other row
    is as it was.  The number in the reply is the number of rows with
    a key among [product_ids], whether their flag changes or not, so
    keys that are not in the table count for nothing.  One
    notification [product.updated] is queued when that number is
    positive and none when it is 0; it lists at most 100 SKUs.
    Doing it again changes nothing and answers and notifies the same,
    and after the one the other leaves what the other alone leaves. *)
Theorem bulk_set_active_effect :
  forall (b : bool) (product_ids : list nat) (rows : products_tasks.Rows),
    let r := bulk_set_active b product_ids rows in
    let rows' := r.1.1 in
    let n := Z.of_nat (length (products_tasks.filter_id_in product_ids rows)) in
    rows'.*1 = rows.*1
    /\ (forall i pk p, rows !! i = Some (pk, p) ->
          exists p', rows' !! i = Some (pk, p')
            /\ same_product p p'
            /\ products.is_active p'
               = if decide (pk ∈ product_ids) then b
                 else products.is_active p)
    /\ r.1.2 = webhooks_views.Json 200
                 [("success", webhooks_views.Bool true);
                  ("count", webhooks_views.Int n)]
    /\ (n = 0 -> r.2 = [])
    /\ (0 < n ->
        exists skus,
          r.2 = [products_tasks.trigger_webhooks_delay "product.updated"
                   [("action", webhooks_views.Str (bulk_action b));
                    ("count", webhooks_views.Int n);
                    ("product_ids", webhooks_views.Ids product_ids);
                    ("skus", webhooks_views.Strs skus)]]
          /\ (length skus <= 100)%nat)
    /\ bulk_set_active b product_ids rows' = r
    /\ (bulk_set_active b product_ids
          (bulk_set_active (negb b) product_ids rows).1.1).1.1
       = rows'.
Proof.
  intros b ids rows r rows' n. subst r rows' n.
  rewrite !bulk_set_active_unfold. cbv zeta. cbn [fst snd].
  unfold products_tasks.count.
  split_ands.
  - apply update_is_active_keys.
  - intros i pk p Hi. rewrite update_is_active_lookup, Hi. cbn [fmap option_fmap option_map fst snd].
    destruct (decide (pk ∈ ids)) as [Hin|Hin].
    + rewrite bool_decide_eq_true_2 by exact Hin. eexists.
      split; [reflexivity|]. split; [|reflexivity].
      unfold same_product. auto.
    + rewrite bool_decide_eq_false_2 by exact Hin. eexists.
      split; [reflexivity|]. split; [|reflexivity].
      unfold same_product. auto.
  - reflexivity.
  - intros ->. reflexivity.
  - intros Hn. apply Z.gtb_lt in Hn. rewrite Hn. eexists.
    split; [reflexivity|]. rewrite length_take. lia.
  - rewrite update_is_active_twice, update_is_active_selected,
      update_is_active_skus.
    unfold products_views.update_is_active at 2 3 4. cbn [fst].
    rewrite !length_fmap. reflexivity.
  - apply update_is_active_twice.
Qed.

(** ** Bulk deletion *)

Lemma filter_id_in_split (ids : list nat) (rows : products_tasks.Rows) :
  (length (products_tasks.filter_id_in ids rows)
   + length (filter (fun r => r.1 ∉ ids) rows) = length rows)%nat.
Proof.
  unfold products_tasks.filter_id_in.
  induction rows as [|[pk p] rows IH]; [reflexivity|].
  rewrite !filter_cons. cbn [fst].
  destruct (decide (pk ∈ ids)) as [Hin|Hin];
    destruct (decide (pk ∉ ids)) as [Hn|Hn]; try tauto; cbn [length]; lia.
Qed.

Lemma filter_id_in_deleted (ids : list nat) (rows : products_tasks.Rows) :
  products_tasks.filter_id_in ids (filter (fun r => r.1 ∉ ids) rows) = [].
Proof.
  unfold products_tasks.filter_id_in.
  induction rows as [|[pk p] rows IH]; [reflexivity|].
  rewrite filter_cons. cbn [fst].
  destruct (decide (pk ∉ ids)) as [Hn|Hn]; [|exact IH].
  rewrite filter_cons. cbn [fst].
  destruct (decide (pk ∈ ids)) as [Hin|Hin]; [tauto | exact IH].
Qed.

Lemma filter_not_id_in_idemp (ids : list nat) (rows : products_tasks.Rows) :
  filter (fun r => r.1 ∉ ids) (filter (fun r => r.1 ∉ ids) rows)
  = filter (fun r : nat * products.Product => r.1 ∉ ids) rows.
Proof.
  induction rows as [|[pk p] rows IH]; [reflexivity|].
  rewrite (filter_cons _ (pk, p) rows). cbn [fst].
  destruct (decide (pk ∉ ids)) as [Hn|Hn]; [|exact IH].
  rewrite filter_cons. cbn [fst].
  destruct (decide (pk ∉ ids)) as [Hn'|Hn']; [|tauto].
  f_equal. exact IH.
Qed.

(** X19. [bulk_delete_products] removes exactly the rows whose key
    is among [product_ids] and leaves the others in their order.  The
    number it returns, writes to the audit log and sends with the
    notification is the number of rows removed; keys that are not in
    the table count for nothing.  The audit entry lists the SKUs of
    the first rows removed, 100 at most.  The audit entry and the
    notification [product.bulk_deleted] are written whatever the
    number: a second run on the same keys removes nothing, returns 0,
    and still writes the entry and queues the notification, with 0. *)
Theorem bulk_delete_products_effect :
  forall (product_ids : list nat) (rows : products_tasks.Rows),
    let r := products_tasks.bulk_delete_products product_ids rows in
    let rows' := r.1.1.1 in
    let n := r.2 in
    (forall x, x ∈ rows' <-> x ∈ rows /\ x.1 ∉ product_ids)
    /\ rows' `sublist_of` rows
    /\ n = Z.of_nat (length rows) - Z.of_nat (length rows')
    /\ 0 <= n <= Z.of_nat (length rows)
    /\ r.1.2 = [products_tasks.trigger_webhooks_delay "product.bulk_deleted"
                  [("deleted_count", webhooks_views.Int n)]]
    /\ (exists skus,
          r.1.1.2
          = {| products_tasks.product_sku := "BULK_DELETE";
               products_tasks.action := "bulk_delete";
               products_tasks.changes :=
                 [("deleted_count", webhooks_views.Int n);
                  ("product_ids", webhooks_views.Ids product_ids);
                  ("skus", webhooks_views.Strs skus)];
               products_tasks.user := "system" |}
          /\ (length skus <= 100)%nat
          /\ Z.of_nat (length skus) = Z.min 100 n
          /\ forall s, s ∈ skus ->
               exists pk p, (pk, p) ∈ rows /\ pk ∈ product_ids
                            /\ products.sku p = s)
    /\ products_tasks.bulk_delete_products product_ids rows'
       = (rows',
          {| products_tasks.product_sku := "BULK_DELETE";
             products_tasks.action := "bulk_delete";
             products_tasks.changes :=
               [("deleted_count", webhooks_views.Int 0);
                ("product_ids", webhooks_views.Ids product_ids);
                ("skus", webhooks_views.Strs [])];
             products_tasks.user := "system" |},
          [products_tasks.trigger_webhooks_delay "product.bulk_deleted"
             [("deleted_count", webhooks_views.Int 0)]],
          0).
Proof.
  intros ids rows r rows' n. subst r rows' n.
  unfold products_tasks.bulk_delete_products, products_tasks.count.
  cbn [fst snd].
  pose proof (filter_id_in_split ids rows) as Hsplit.
  split_ands.
  - intros x. rewrite list_elem_of_filter. tauto.
  - apply sublist_filter.
  - lia.
  - lia.
  - lia.
  - reflexivity.
  - eexists. split; [reflexivity|]. split_ands.
    + rewrite length_take. lia.
    + rewrite length_take, length_fmap. lia.
    + intros s Hs. apply elem_of_take in Hs as (i & Hs & _).
      apply list_elem_of_lookup_2 in Hs.
      apply list_elem_of_fmap in Hs as ([pk p] & -> & Hin).
      unfold products_tasks.filter_id_in in Hin.
      apply list_elem_of_filter in Hin as [H1 H2]. eauto.
  - rewrite filter_id_in_deleted, filter_not_id_in_idemp. reflexivity.
Qed.

Lemma remove_dups_length (ids : list nat) :
  (length (remove_dups ids) <= length ids)%nat
  /\ (length (remove_dups ids) = length ids -> NoDup ids).
Proof.
  induction ids as [|x ids [IH1 IH2]]; [split; [reflexivity | constructor]|].
  cbn [remove_dups]. destruct (decide_rel elem_of x ids) as [Hx|Hx].
  - cbn [length]. split; lia.
  - cbn [length]. split; [lia|]. intros E.
    constructor; [exact Hx | apply IH2; lia].
Qed.

(** X20. The number [bulk_delete_view] reports is the length of the
    list it was sent, whatever is in the table; the task it queues
    deletes, for a table with distinct keys, at most as many rows as
    the list has distinct keys, and fewer than the view has reported
    as soon as a key of the list is not in the table or is listed
    twice. *)
Theorem bulk_delete_view_overcounts :
  forall (product_ids : list nat) (rows : products_tasks.Rows),
    NoDup rows.*1 ->
    let reported := Z.of_nat (length product_ids) in
    let deleted :=
      (products_tasks.bulk_delete_products product_ids rows).2 in
    products_views.bulk_delete_view product_ids
    = (webhooks_views.Json 200
         [("success", webhooks_views.Bool true);
          ("count", webhooks_views.Int reported)],
       [products_tasks.bulk_delete_products_delay product_ids])
    /\ deleted <= reported
    /\ ((exists pk, pk ∈ product_ids /\ pk ∉ rows.*1) -> deleted < reported)
    /\ (~ NoDup product_ids -> deleted < reported).
Proof.
  intros ids rows Hnd reported deleted. subst reported deleted.
  unfold products_tasks.bulk_delete_products, products_tasks.count.
  cbn [snd].
  assert (Hsub : (products_tasks.filter_id_in ids rows).*1 ⊆ ids).
  { intros pk Hpk. apply list_elem_of_fmap in Hpk as ([pk' p] & -> & Hin).
    unfold products_tasks.filter_id_in in Hin.
    now apply list_elem_of_filter in Hin as [H1 _]. }
  assert (Hnd' : NoDup (products_tasks.filter_id_in ids rows).*1).
  { apply (sublist_NoDup _ rows.*1); [exact Hnd|].
    apply fmap_sublist, sublist_filter. }
  assert (Hrm : forall pk, pk ∈ (products_tasks.filter_id_in ids rows).*1 ->
                           pk ∈ remove_dups ids).
  { intros pk Hpk. apply elem_of_remove_dups, Hsub, Hpk. }
  pose proof (submseteq_length _ _
                (NoDup_submseteq _ _ Hnd' Hrm)) as Hlen.
  rewrite length_fmap in Hlen.
  destruct (remove_dups_length ids) as [Hle Hdup].
  split_ands.
  - reflexivity.
  - lia.
  - intros (pk & Hpk & Hn).
    assert (Hrm' : forall x,
              x ∈ (products_tasks.filter_id_in ids rows).*1 ->
              x ∈ filter (fun x => x <> pk) (remove_dups ids)).
    { intros x Hx. apply list_elem_of_filter. split; [|now apply Hrm].
      intros ->. apply Hn.
      apply list_elem_of_fmap in Hx as ([pk' p] & -> & Hin).
      unfold products_tasks.filter_id_in in Hin.
      apply list_elem_of_filter in Hin as [_ Hin].
      apply list_elem_of_fmap. exists (pk', p). auto. }
    pose proof (submseteq_length _ _
                  (NoDup_submseteq _ _ Hnd' Hrm')) as Hlen'.
    rewrite length_fmap in Hlen'.
    assert (length (filter (fun x => x <> pk) (remove_dups ids))
            < length (remove_dups ids))%nat.
    { apply (length_filter_lt _ _ pk); [now apply elem_of_remove_dups|].
      intros H. now apply H. }
    lia.
  - intros Hnot.
    destruct (decide (length (remove_dups ids) = length ids)) as [E|E];
      [|lia].
    exfalso. apply Hnot, Hdup, E.
Qed.

Lemma bulk_delete_view_overcounts_witness :
  let reported := Z.of_nat (length [5%nat; 9%nat; 5%nat]) in
  let deleted :=
    (products_tasks.bulk_delete_products [5%nat; 9%nat; 5%nat] three_rows).2 in
  products_views.bulk_delete_view [5%nat; 9%nat; 5%nat]
  = (webhooks_views.Json 200
       [("success", webhooks_views.Bool true);
        ("count", webhooks_views.Int reported)],
     [products_tasks.bulk_delete_products_delay [5%nat; 9%nat; 5%nat]])
  /\ deleted <= reported
  /\ ((exists pk, pk ∈ [5%nat; 9%nat; 5%nat] /\ pk ∉ three_rows.*1) ->
      deleted < reported)
  /\ (~ NoDup [5%nat; 9%nat; 5%nat] -> deleted < reported).
Proof.
  apply (bulk_delete_view_overcounts [5%nat; 9%nat; 5%nat] three_rows).
  apply (bool_decide_unpack _). vm_compute. exact I.
Defined.

(** ** The statistics of the dashboard *)

Lemma filter_is_active_split (rows : products_tasks.Rows) :
  (length (products_tasks.filter_is_active true rows)
   + length (products_tasks.filter_is_active false rows) = length rows)%nat.
Proof.
  unfold products_tasks.filter_is_active.
  induction rows as [|[pk p] rows IH]; [reflexivity|].
  rewrite !filter_cons. cbn [snd].
  destruct (products.is_active p); simpl; lia.
Qed.

Lemma filter_status_split (jobs : list products.UploadJob) :
  (length (products_tasks.filter_status products.pending jobs)
   + length (products_tasks.filter_status products.processing jobs)
   + length (products_tasks.filter_status products.completed jobs)
   + length (products_tasks.filter_status products.failed jobs)
   = length jobs)%nat.
Proof.
  unfold products_tasks.filter_status.
  induction jobs as [|j jobs IH]; [reflexivity|].
  rewrite !filter_cons.
  destruct (products.status j); simpl; lia.
Qed.

(** X21. The statistics [update_product_stats] puts into the cache
    add up: every product is counted as active or as inactive and
    never as both, and every upload under exactly one status, so
    [total_products] is the sum of the two product counts and
    [total_uploads] the sum of the four upload counts; no count is
    negative. *)
Theorem update_product_stats_add_up :
  forall (rows : products_tasks.Rows) (jobs : list products.UploadJob),
    let s := products_tasks.update_product_stats rows jobs in
    products_tasks.total_products s
    = products_tasks.active_products s + products_tasks.inactive_products s
    /\ products_tasks.total_uploads s
       = products_tasks.pending_uploads s
         + products_tasks.processing_uploads s
         + products_tasks.completed_uploads s
         + products_tasks.failed_uploads s
    /\ 0 <= products_tasks.active_products s
    /\ 0 <= products_tasks.inactive_products s
    /\ 0 <= products_tasks.pending_uploads s
    /\ 0 <= products_tasks.processing_uploads s
    /\ 0 <= products_tasks.completed_uploads s
    /\ 0 <= products_tasks.failed_uploads s.
Proof.
  intros rows jobs s. subst s.
  unfold products_tasks.update_product_stats, products_tasks.count.
  cbn [products_tasks.total_products products_tasks.active_products
       products_tasks.inactive_products products_tasks.total_uploads
       products_tasks.pending_uploads products_tasks.processing_uploads
       products_tasks.completed_uploads products_tasks.failed_uploads].
  pose proof (filter_is_active_split rows).
  pose proof (filter_status_split jobs).
  split_ands; lia.
Qed.

(** ** Switching a webhook on and off *)

(** X22. [webhook_toggle] on a key that is not in the table answers
    with status 400, not 404, and changes nothing: the exception of
    [get_object_or_404] is caught by the view.  On a webhook of the
    table it flips [is_active] and answers with the new value; the
    URL, the event type and the three counters are as before, no
    other webhook is touched, and the secret is kept, a webhook
    without one getting the token generated at this save.  From then
    on [trigger_webhooks] queues a delivery for it exactly when it has
    been switched on and listens to the event.  A second toggle
    restores the flag, and the whole table when the webhook had a
    secret. *)
Theorem webhook_toggle_effect :
  forall (pk : nat) (token token' : string) (tbl : gmap nat webhooks.Webhook),
    let r := webhooks_views.webhook_toggle pk token tbl in
    match tbl !! pk with
    | None =>
        r = (tbl,
             webhooks_views.Json 400
               [("success", webhooks_views.Bool false);
                ("error",
                 webhooks_views.Str "No Webhook matches the given query.")])
    | Some w =>
        exists w',
          r.1 !! pk = Some w'
          /\ r.2 = webhooks_views.Json 200
                     [("success", webhooks_views.Bool true);
                      ("is_active",
                       webhooks_views.Bool (negb (webhooks.is_active w)))]
          /\ webhooks.is_active w' = negb (webhooks.is_active w)
          /\ webhooks.url w' = webhooks.url w
          /\ webhooks.event_type w' = webhooks.event_type w
          /\ webhooks.total_triggers w' = webhooks.total_triggers w
          /\ webhooks.successful_triggers w' = webhooks.successful_triggers w
          /\ webhooks.failed_triggers w' = webhooks.failed_triggers w
          /\ webhooks.secret w'
             = (if str.truthy (webhooks.secret w) then webhooks.secret w
                else token)
          /\ (forall j, j <> pk -> r.1 !! j = tbl !! j)
          /\ (forall e payload,
                products_tasks.send_webhook_delay pk payload
                ∈ products_tasks.trigger_webhooks e payload r.1
                <-> webhooks.is_active w = false
                    /\ webhooks.event_type w = e)
          /\ (exists w'',
                (webhooks_views.webhook_toggle pk token' r.1).1 !! pk
                = Some w''
                /\ webhooks.is_active w'' = webhooks.is_active w)
          /\ (webhooks.secret w <> "" ->
              (webhooks_views.webhook_toggle pk token' r.1).1 = tbl)
    end.
Proof.
  intros pk token token' tbl r. subst r.
  destruct (tbl !! pk) as [w|] eqn:Hw.
  2:{ unfold webhooks_views.webhook_toggle. now rewrite Hw. }
  assert (Hr : webhooks_views.webhook_toggle pk token tbl
               = (<[pk := webhooks_views.save token
                     {| webhooks.url := webhooks.url w;
                        webhooks.event_type := webhooks.event_type w;
                        webhooks.is_active := negb (webhooks.is_active w);
                        webhooks.secret := webhooks.secret w;
                        webhooks.total_triggers := webhooks.total_triggers w;
                        webhooks.successful_triggers :=
                          webhooks.successful_triggers w;
                        webhooks.failed_triggers :=
                          webhooks.failed_triggers w |}]> tbl,
                  webhooks_views.Json 200
                    [("success", webhooks_views.Bool true);
                     ("is_active",
                      webhooks_views.Bool
                        (webhooks.is_active
                           (webhooks_views.save token
                     {| webhooks.url := webhooks.url w;
                        webhooks.event_type := webhooks.event_type w;
                        webhooks.is_active := negb (webhooks.is_active w);
                        webhooks.secret := webhooks.secret w;
                        webhooks.total_triggers := webhooks.total_triggers w;
                        webhooks.successful_triggers :=
                          webhooks.successful_triggers w;
                        webhooks.failed_triggers :=
                          webhooks.failed_triggers w |})))])).
  { unfold webhooks_views.webhook_toggle. now rewrite Hw. }
  rewrite Hr. clear Hr. cbn [fst snd].
  assert (Hact : forall t w0, webhooks.is_active (webhooks_views.save t w0)
                              = webhooks.is_active w0).
  { intros t w0. unfold webhooks_views.save. now destruct (negb _). }
  set (w1 := {| webhooks.url := webhooks.url w;
                webhooks.event_type := webhooks.event_type w;
                webhooks.is_active := negb (webhooks.is_active w);
                webhooks.secret := webhooks.secret w;
                webhooks.total_triggers := webhooks.total_triggers w;
                webhooks.successful_triggers := webhooks.successful_triggers w;
                webhooks.failed_triggers := webhooks.failed_triggers w |}).
  assert (Hsave : forall t,
            webhooks.url (webhooks_views.save t w1) = webhooks.url w
            /\ webhooks.event_type (webhooks_views.save t w1)
               = webhooks.event_type w
            /\ webhooks.total_triggers (webhooks_views.save t w1)
               = webhooks.total_triggers w
            /\ webhooks.successful_triggers (webhooks_views.save t w1)
               = webhooks.successful_triggers w
            /\ webhooks.failed_triggers (webhooks_views.save t w1)
               = webhooks.failed_triggers w
            /\ webhooks.is_active (webhooks_views.save t w1)
               = negb (webhooks.is_active w)
            /\ webhooks.secret (webhooks_views.save t w1)
               = (if str.truthy (webhooks.secret w) then webhooks.secret w
                  else t)).
  { intros t. unfold webhooks_views.save, w1. cbn [webhooks.secret].
    destruct (str.truthy (webhooks.secret w)); cbn; auto 10. }
  destruct (Hsave token) as (S1 & S2 & S3 & S4 & S5 & S6 & S7).
  exists (webhooks_views.save token w1).
  split_ands; try assumption.
  - apply lookup_insert_eq.
  - now rewrite S6.
  - intros j Hj. apply lookup_insert_ne. congruence.
  - intros e payload.
    destruct (trigger_webhooks_calls e payload
                (<[pk := webhooks_views.save token w1]> tbl)) as [_ Hin].
    rewrite Hin. split.
    + intros (id & Heq & w2 & Hw2 & He & Ha). injection Heq as <-.
      rewrite lookup_insert_eq in Hw2. injection Hw2 as <-.
      rewrite S6 in Ha. rewrite S2 in He.
      split; [now destruct (webhooks.is_active w) | exact He].
    + intros [Ha He]. exists pk. split; [reflexivity|].
      exists (webhooks_views.save token w1). rewrite lookup_insert_eq.
      split_ands; [reflexivity | now rewrite S2 | now rewrite S6, Ha].
  - unfold webhooks_views.webhook_toggle. rewrite lookup_insert_eq.
    cbn [fst]. eexists. rewrite lookup_insert_eq. split; [reflexivity|].
    rewrite Hact. cbn [webhooks.is_active]. rewrite S6.
    apply negb_involutive.
  - intros Hs. unfold webhooks_views.webhook_toggle. rewrite lookup_insert_eq.
    cbn [fst]. rewrite insert_insert_eq.
    assert (Ht : str.truthy (webhooks.secret w) = true)
      by (destruct (webhooks.secret w); [contradiction | reflexivity]).
    rewrite Ht in S7.
    assert (Hsame : webhooks_views.save token w1 = w1).
    { unfold webhooks_views.save, w1. cbn [webhooks.secret]. now rewrite Ht. }
    rewrite Hsame. unfold webhooks_views.save, w1.
    cbn [webhooks.secret webhooks.url webhooks.event_type
         webhooks.is_active webhooks.total_triggers
         webhooks.successful_triggers webhooks.failed_triggers].
    rewrite Ht. cbn [negb]. rewrite negb_involutive.
    destruct w. cbn. apply insert_id. exact Hw.
Qed.

(** ** The ledger, the second import and the row numbers, on a file *)

Lemma accounting_closes_ignoring_conflicts_witness :
  let j := products.upload_job (import true mixed_file [stored "x" "old"]).1 in
  products.status j = products.completed
  /\ products.processed_rows j = products.total_rows j
  /\ products.total_rows j = 4
  /\ products.created_count j + products.updated_count j
     + (products.skipped_count j - products.error_count j)
     = products.processed_rows j - products.error_count j.
Proof.
  apply (accounting_closes_ignoring_conflicts mixed_file [stored "x" "old"]).
  - apply (bool_decide_unpack _). vm_compute. exact I.
  - vm_compute. reflexivity.
Defined.

Lemma reimport_updates_all_witness :
  let j := products.upload_job (reimport true mixed_file [stored "x" "old"]).1 in
  products.status j = products.completed
  /\ products.created_count j = 0
  /\ products.updated_count j = 3.
Proof.
  apply (reimport_updates_all mixed_file [stored "x" "old"]).
  - apply (bool_decide_unpack _). vm_compute. exact I.
  - vm_compute. reflexivity.
  - apply Forall_forall. apply (bool_decide_unpack _). vm_compute. exact I.
Defined.

Lemma rejected_row_number_witness :
  {| products.row := 5;
     products.error := "SKU is required and cannot be empty" |}
  ∈ error_entries
      (products.upload_job (import true mixed_file [stored "x" "old"]).1).
Proof.
  apply (rejected_row_number true mixed_file [stored "x" "old"] 0
           (record "  " "no sku")
           (products.ValueError "SKU is required and cannot be empty")).
  - vm_compute. reflexivity.
  - vm_compute. lia.
  - reflexivity.
  - vm_compute. reflexivity.
Defined.

(** ** Export and import *)

Lemma take_all (n : nat) (s : string) :
  (String.length s <= n)%nat -> str.take n s = s.
Proof.
  revert s. induction n as [|n IH]; intros [|c s] H; simpl in *;
    try reflexivity; try lia.
  f_equal. apply IH. lia.
Qed.

Lemma truthy_nonempty (s : string) : s <> "" -> str.truthy s = true.
Proof. now destruct s. Qed.

Lemma cleaned_stripped (s : string) :
  products.cleaned s = s -> str.strip s = s.
Proof.
  intros H. rewrite <- H at 1. unfold products.cleaned.
  rewrite strip_idemp. exact H.
Qed.

(** The record the reader makes of the exported row of [r]. *)
Lemma written_records (exported : list (products.Product * string)) :
  products.records
    (products_tasks.written (products_tasks.export_products_csv exported))
  = (fun r => [products.Col "SKU" (Some (products.sku r.1));
               products.Col "Name" (Some (products.name r.1));
               products.Col "Description"
                 (Some (products.description r.1));
               products.Col "Status"
                 (Some (if products.is_active r.1
                        then "Active" else "Inactive"));
               products.Col "Created At" (Some r.2)]) <$> exported.
Proof.
  unfold products_tasks.written, products_tasks.export_products_csv.
  cbn [products.records]. rewrite <- list_fmap_compose.
  apply list_fmap_ext. intros i r _. reflexivity.
Qed.

Lemma normalize_exported (r : products.Product * string) :
  clean r.1 ->
  products.normalize_row
    [products.Col "SKU" (Some (products.sku r.1));
     products.Col "Name" (Some (products.name r.1));
     products.Col "Description" (Some (products.description r.1));
     products.Col "Status"
       (Some (if products.is_active r.1 then "Active" else "Inactive"));
     products.Col "Created At" (Some r.2)]
  = inr (exported_row r).
Proof.
  intros (Hs & Hs0 & Hsl & Hn & Hn0 & Hnl & Hd & _).
  unfold products.normalize_row.
  set (n0 := <["created at" := products.cleaned r.2]>
               (<["status" :=
                    products.cleaned
                      (if products.is_active r.1
                       then "Active" else "Inactive")]>
                  (<["description" := products.description r.1]>
                     (<["name" := products.name r.1]>
                        (<["sku" := products.sku r.1]>
                           (∅ : gmap string string)))))).
  assert (E0 : products.normalize_items
                 [products.Col "SKU" (Some (products.sku r.1));
                  products.Col "Name" (Some (products.name r.1));
                  products.Col "Description"
                    (Some (products.description r.1));
                  products.Col "Status"
                    (Some (if products.is_active r.1
                           then "Active" else "Inactive"));
                  products.Col "Created At" (Some r.2)] ∅
               = inr n0).
  { cbn [products.normalize_items]. rewrite Hs, Hn, Hd. reflexivity. }
  rewrite E0.
  assert (L1 : n0 !! "sku" = Some (products.sku r.1)).
  { unfold n0. rewrite !lookup_insert_ne by discriminate.
    apply lookup_insert_eq. }
  assert (L2 : n0 !! "name" = Some (products.name r.1)).
  { unfold n0. rewrite !lookup_insert_ne by discriminate.
    apply lookup_insert_eq. }
  assert (L3 : n0 !! "description" = Some (products.description r.1)).
  { unfold n0. rewrite !lookup_insert_ne by discriminate.
    apply lookup_insert_eq. }
  pose proof (cleaned_stripped _ Hs) as Hss.
  pose proof (cleaned_stripped _ Hn) as Hns.
  assert (I1 : products.item "sku" n0 = products.sku r.1)
    by (unfold products.item; now rewrite lookup_total_alt, L1).
  unfold products.contains, products.get. rewrite L1, L2.
  rewrite !bool_decide_eq_true_2 by eauto.
  cbn [from_option id negb orb]. rewrite Hss, Hns.
  rewrite !(truthy_nonempty _ Hs0), !(truthy_nonempty _ Hn0).
  cbn [negb]. rewrite I1, Hss.
  set (n1 := <["sku" := products.sku r.1]> n0).
  assert (J1 : products.item "sku" n1 = products.sku r.1).
  { unfold products.item, n1. rewrite lookup_total_alt, lookup_insert_eq.
    reflexivity. }
  rewrite J1, (truthy_nonempty _ Hs0). cbn [negb].
  assert (J3 : n1 !! "description" = Some (products.description r.1)).
  { unfold n1. rewrite lookup_insert_ne by discriminate. exact L3. }
  set (n2 := if negb (str.truthy (products.item "description" n1))
             then <["description" := ""]> n1 else n1).
  assert (E2 : n2 = n1).
  { unfold n2, products.item. rewrite lookup_total_alt, J3. cbn [from_option id].
    destruct (products.description r.1) as [|c d] eqn:Ed; cbn [str.truthy negb];
      [|reflexivity].
    apply map_eq. intros k. destruct (decide (k = "description")) as [->|Hk].
    - now rewrite lookup_insert_eq, J3.
    - now rewrite lookup_insert_ne by congruence. }
  rewrite E2.
  assert (K1 : products.item "sku" n1 = products.sku r.1) by exact J1.
  rewrite K1, (take_all 255 _ Hsl).
  assert (K2 : products.item "name" (<["sku" := products.sku r.1]> n1)
               = products.name r.1).
  { unfold products.item, n1.
    rewrite lookup_total_alt, !lookup_insert_ne by discriminate.
    now rewrite L2. }
  rewrite K2, (take_all 500 _ Hnl), Hns.
  unfold exported_row, n1, n0. reflexivity.
Qed.

Lemma exported_row_valid (r : products.Product * string) :
  clean r.1 -> is_valid (exported_row r).
Proof.
  intros (Hs & Hs0 & _). unfold is_valid, products.get, exported_row.
  rewrite lookup_insert_eq. cbn [from_option id].
  rewrite (cleaned_stripped _ Hs). now apply truthy_nonempty.
Qed.

Lemma exported_row_restates (t : list products.Product)
    (r : products.Product * string) :
  clean r.1 -> r.1 ∈ t -> restates t (exported_row r).
Proof.
  intros Hc Hin.
  assert (I1 : products.item "sku" (exported_row r) = products.sku r.1).
  { unfold products.item, exported_row.
    now rewrite lookup_total_alt, lookup_insert_eq. }
  assert (I2 : products.item "name" (exported_row r) = products.name r.1).
  { unfold products.item, exported_row.
    rewrite lookup_total_alt, lookup_insert_ne by discriminate.
    now rewrite lookup_insert_eq. }
  assert (I3 : products.get "description" "" (exported_row r)
               = products.description r.1).
  { unfold products.get, exported_row.
    rewrite !lookup_insert_ne by discriminate.
    now rewrite lookup_insert_eq. }
  destruct Hc as (Hs & _ & _ & _ & _ & _ & _ & Hk).
  split.
  - rewrite I1. now apply cleaned_stripped.
  - exists r.1. split; [exact Hin|]. unfold product_of.
    rewrite I1, I2, I3, <- Hk. now destruct r.1.
Qed.

Lemma exported_valid_rows (t : list products.Product)
    (exported : list (products.Product * string)) :
  Forall clean t -> (forall r, r ∈ exported -> r.1 ∈ t) ->
  valid_rows_of
    (products.records
       (products_tasks.written (products_tasks.export_products_csv exported)))
  = exported_row <$> exported.
Proof.
  intros Hc Hin. rewrite written_records. unfold valid_rows_of, normalized_of.
  induction exported as [|r exported IH]; [reflexivity|].
  assert (Hr : clean r.1).
  { eapply (proj1 (Forall_forall _ _) Hc), Hin. now left. }
  cbn [fmap list_fmap omap list_omap].
  rewrite (normalize_exported r Hr).
  rewrite (filter_cons_True is_valid) by now apply exported_row_valid.
  f_equal. apply IH. intros r' Hr'. apply Hin. now right.
Qed.

(** X26. Importing the file that the export has written of products
    of the table gives the table back: when the table has unique
    keys and its products are clean (as the importer itself stores
    them), the import completes, leaves every row as it was, creates
    nothing, skips nothing and counts one update for each exported
    product. *)
Theorem export_import_round_trip :
  forall (t : list products.Product)
         (exported : list (products.Product * string)),
    unique_skus t -> Forall clean t ->
    (forall r, r ∈ exported -> r.1 ∈ t) ->
    let file :=
      products_tasks.written (products_tasks.export_products_csv exported) in
    let imp := (import true file t).1 in
    let j := products.upload_job imp in
    products.table imp = t
    /\ products.status j = products.completed
    /\ products.created_count j = 0
    /\ products.updated_count j = Z.of_nat (length exported)
    /\ products.skipped_count j = 0.
Proof.
  intros t exported Hu Hc Hin. cbv zeta.
  set (file := products_tasks.written
                 (products_tasks.export_products_csv exported)).
  assert (Hh : header_accepted file) by (vm_compute; reflexivity).
  pose proof (exported_valid_rows t exported Hc Hin) as Hv. fold file in Hv.
  assert (Hlen : length (products.records file) = length exported).
  { unfold file. now rewrite written_records, length_fmap. }
  destruct (import_restating file t Hu Hh) as (H1 & H2 & H3 & H4 & H5).
  { rewrite Hv. intros n Hn.
    apply list_elem_of_fmap in Hn as (r & -> & Hr).
    apply exported_row_restates; [|now apply Hin].
    eapply (proj1 (Forall_forall _ _) Hc), Hin, Hr. }
  rewrite Hv, length_fmap in H4, H5. rewrite Hlen in H5.
  split_ands; [exact H1 | exact H2 | exact H3 | exact H4 | lia].
Qed.

Lemma export_import_round_trip_witness :
  let imp :=
    (import true
       (products_tasks.written
          (products_tasks.export_products_csv two_exported))
       two_products).1 in
  let j := products.upload_job imp in
  products.table imp = two_products
  /\ products.status j = products.completed
  /\ products.created_count j = 0
  /\ products.updated_count j = 2
  /\ products.skipped_count j = 0.
Proof.
  apply (export_import_round_trip two_products two_exported).
  - apply (bool_decide_unpack _). vm_compute. exact I.
  - repeat constructor; vm_compute; (reflexivity || discriminate || lia).
  - apply Forall_forall. repeat constructor.
Defined.

(** X27. An import that ignores conflicts, of a file whose valid
    rows each restate a product of the table (the SKU stripped, the
    SKU, its key, the name and the description those of the
    product), changes no row of the table: it completes, creates
    nothing, counts one update for each valid row and skips the
    other rows. *)
Theorem import_of_restating_rows :
  forall (file : products.CsvFile) (t : list products.Product),
    unique_skus t -> header_accepted file ->
    (forall n, n ∈ valid_rows_of (products.records file) -> restates t n) ->
    let imp := (import true file t).1 in
    let j := products.upload_job imp in
    products.table imp = t
    /\ products.status j = products.completed
    /\ products.created_count j = 0
    /\ products.updated_count j
       = Z.of_nat (length (valid_rows_of (products.records file)))
    /\ products.skipped_count j
       = Z.of_nat (length (products.records file))
         - Z.of_nat (length (valid_rows_of (products.records file))).
Proof.
  intros file t Hu Hh Hall. exact (import_restating file t Hu Hh Hall).
Qed.

Lemma import_of_restating_rows_witness :
  let imp := (import true restating_file two_products).1 in
  let j := products.upload_job imp in
  products.table imp = two_products
  /\ products.status j = products.completed
  /\ products.created_count j = 0
  /\ products.updated_count j = 1
  /\ products.skipped_count j = 1.
Proof.
  apply (import_of_restating_rows restating_file two_products).
  - apply (bool_decide_unpack _). vm_compute. exact I.
  - vm_compute. reflexivity.
  - apply Forall_forall. repeat constructor.
    exists (stored "a1" "Red widget"). split; [now left|].
    vm_compute. reflexivity.
Defined.
